(** * shadcn-index-generator: the barrel-file generator, embedded and verified

    The development follows [src/index.ts] (the version of [generateIndex]
    with the extension policy), [src/config.ts] and [src/types.ts].

    Conventions of the embedding:
    - a JavaScript string is a [string] of 8-bit code units; [a +++ b] is
      string concatenation and a template literal is written as a chain of
      [+++];
    - a [RegExp] is used by the program only through [test]; a pattern
      without the [g] and [y] flags is modelled by that function, a pattern
      with one of them by what it finds from its [lastIndex], which
      [Stateful] carries from call to call;
    - a [Map] keeps its keys in order of first insertion ([JsMap]);
    - the file system, the console and [process.exitCode] are explicit
      state ([Process]); what Node, the TypeScript parser and the project
      around the tool provide is a record of functions ([Host]);
    - [chalk] is taken at colour level 0, where every style is the identity
      on strings; the time stamp that [log] puts in front of each line and
      the elapsed time are left out of the recorded output. *)

From Stdlib Require Import Bool Arith ZArith Lia List Ascii String.
From Stdlib Require Import Sorting.Sorted Sorting.Permutation.
From Stdlib Require Import Numbers.DecimalString.
Import ListNotations.

Local Open Scope string_scope.
Local Open Scope list_scope.

Infix "+++" := String.append (right associativity, at level 60).

(** ** Strings *)

Module Str.

Definition startsWith (s p : string) : bool := String.prefix p s.

Fixpoint rev_acc (s acc : string) : string :=
  match s with
  | EmptyString => acc
  | String c s' => rev_acc s' (String c acc)
  end.

Definition rev (s : string) : string := rev_acc s "".

Definition endsWith (s p : string) : bool := String.prefix (rev p) (rev s).

(** [s.slice(i)] for [0 <= i]. *)
Definition sliceFrom (i : nat) (s : string) : string :=
  String.substring i (String.length s - i) s.

(** [s.slice(0, n)]. *)
Definition sliceTo (n : nat) (s : string) : string := String.substring 0 n s.

(** [s.lastIndexOf(c)], [None] for -1. *)
Fixpoint lastIndexOf (c : ascii) (s : string) : option nat :=
  match s with
  | EmptyString => None
  | String x s' =>
      match lastIndexOf c s' with
      | Some i => Some (S i)
      | None => if Ascii.eqb x c then Some 0 else None
      end
  end.

Definition isUpper (c : ascii) : bool :=
  let n := nat_of_ascii c in ((65 <=? n) && (n <=? 90))%nat.

Definition isLower (c : ascii) : bool :=
  let n := nat_of_ascii c in ((97 <=? n) && (n <=? 122))%nat.

Definition isDigit (c : ascii) : bool :=
  let n := nat_of_ascii c in ((48 <=? n) && (n <=? 57))%nat.

Definition lowerChar (c : ascii) : ascii :=
  if isUpper c then ascii_of_nat (nat_of_ascii c + 32) else c.

Definition upperChar (c : ascii) : ascii :=
  if isLower c then ascii_of_nat (nat_of_ascii c - 32) else c.

(** [s.toLowerCase()] on the ASCII letters; the program only compares the
    result with ASCII literals. *)
Fixpoint toLowerCase (s : string) : string :=
  match s with
  | EmptyString => EmptyString
  | String c s' => String (lowerChar c) (toLowerCase s')
  end.

(** [String(n)] for a non-negative integer. *)
Definition ofNat (n : nat) : string := NilEmpty.string_of_uint (Nat.to_uint n).

(** The lines of a text, as [s.split] at the newlines gives them. *)
Fixpoint lines (s : string) : list string :=
  match s with
  | EmptyString => [EmptyString]
  | String c s' =>
      if Ascii.eqb c "010" then EmptyString :: lines s'
      else match lines s' with
           | l :: ls => String c l :: ls
           | [] => [String c EmptyString]
           end
  end.

Fixpoint contains (c : ascii) (s : string) : bool :=
  match s with
  | EmptyString => false
  | String x s' => Ascii.eqb x c || contains c s'
  end.

End Str.

(** The newline of the template literals. *)
Definition nl : string := String "010" EmptyString.

(** ** Regular expressions

    [RegExp.prototype.test] for a pattern without the [g] and [y] flags is
    a function of the tested string.  A pattern with one of these flags is
    an object with a [lastIndex]: every call of [test] starts there, and
    sets it to the end of the match, or to 0 when there is none.  Such a
    pattern is the address of the object and the function that gives, for
    a string and a value of [lastIndex], the end of the match that [exec]
    finds from there (none when [lastIndex] is beyond the string). *)

Inductive RegExp : Type :=
| mkRegExp (answer : string -> bool)
| mkAdvancing (address : nat) (execFrom : string -> nat -> option nat).

(** [pattern.test(s)] on a pattern whose [lastIndex] is 0; for a pattern
    without the two flags this is every call. *)
Definition test (pattern : RegExp) (s : string) : bool :=
  match pattern with
  | mkRegExp answer => answer s
  | mkAdvancing _ execFrom =>
      match execFrom s 0 with Some _ => true | None => false end
  end.

(** The patterns of [config.ts] are built from a regular fragment: literal
    characters, [\w], sequence, alternation and repetition, with the
    anchors [^] and [$] at the ends of the pattern and the [i] flag. *)
Module Regex.

Inductive re : Type :=
| Never
| Eps
| Lit (c : ascii)
| Word
| Seq (a b : re)
| Alt (a b : re)
| Star (a : re).

Definition Plus (a : re) : re := Seq a (Star a).
Definition Opt (a : re) : re := Alt a Eps.

Fixpoint lits (s : string) : re :=
  match s with
  | EmptyString => Eps
  | String c s' => Seq (Lit c) (lits s')
  end.

Record flags : Type := mkFlags {
  anchoredStart : bool;   (* the pattern begins with ^ *)
  anchoredEnd : bool;     (* the pattern ends with $ *)
  ignoreCase : bool       (* the i flag *)
}.

Definition isWordChar (c : ascii) : bool :=
  Str.isUpper c || Str.isLower c || Str.isDigit c || Ascii.eqb c "_".

(** Canonicalize of the specification of the language, without the u flag. *)
Definition canon (i : bool) (c : ascii) : ascii :=
  if i then Str.upperChar c else c.

Fixpoint nullable (r : re) : bool :=
  match r with
  | Never => false
  | Eps => true
  | Lit _ => false
  | Word => false
  | Seq a b => nullable a && nullable b
  | Alt a b => nullable a || nullable b
  | Star _ => true
  end.

(** The residual of [r] after reading the character [x]. *)
Fixpoint deriv (i : bool) (x : ascii) (r : re) : re :=
  match r with
  | Never => Never
  | Eps => Never
  | Lit c => if Ascii.eqb (canon i c) (canon i x) then Eps else Never
  | Word => if isWordChar x then Eps else Never
  | Seq a b =>
      if nullable a then Alt (Seq (deriv i x a) b) (deriv i x b)
      else Seq (deriv i x a) b
  | Alt a b => Alt (deriv i x a) (deriv i x b)
  | Star a => Seq (deriv i x a) (Star a)
  end.

(** Does some match of [r] start at the beginning of [s]?  With [$] the
    match has to reach the end of the input. *)
Fixpoint matchHere (i toEnd : bool) (r : re) (s : string) : bool :=
  match s with
  | EmptyString => nullable r
  | String x s' =>
      (negb toEnd && nullable r) || matchHere i toEnd (deriv i x r) s'
  end.

(** The search for a match from every start position. *)
Fixpoint search (i toEnd : bool) (r : re) (s : string) : bool :=
  matchHere i toEnd r s ||
  match s with
  | EmptyString => false
  | String _ s' => search i toEnd r s'
  end.

Definition exec (f : flags) (r : re) (s : string) : bool :=
  if anchoredStart f then matchHere (ignoreCase f) (anchoredEnd f) r s
  else search (ignoreCase f) (anchoredEnd f) r s.

Definition compile (f : flags) (r : re) : RegExp := mkRegExp (exec f r).

(** [/<s>$/] and [/<s>$/i] for a literal [s]. *)
Definition suffix (i : bool) (r : re) : RegExp := compile (mkFlags false true i) r.

End Regex.

(** ** Paths

    [fs.readdir] yields the names of the directory entries, which contain
    no path separator.  On such a name Node's [path.extname] returns the
    part from the last dot on, and nothing when there is no dot, when the
    only dot is the first character, or when the name is [".."]. *)

Definition extname (p : string) : string :=
  match Str.lastIndexOf "." p with
  | None => ""
  | Some startDot =>
      if (startDot =? 0)%nat then ""
      else if String.eqb p ".." then ""
      else Str.sliceFrom startDot p
  end.

(** [path.basename(p, suffix)] on a name without separator: the name
    without [suffix] when it ends with it and is not [suffix] itself. *)
Definition basename (p suffix : string) : string :=
  if negb (String.eqb suffix "") && (String.length suffix <=? String.length p)%nat
  then
    if String.eqb suffix p then ""
    else if Str.endsWith p suffix
         then Str.sliceTo (String.length p - String.length suffix) p
         else p
  else p.

(** ** Map: keys in order of first insertion *)

Module JsMap.

Section Defs.
Context {V : Type}.

Definition t : Type := list (string * V).

Definition empty : t := [].

(** [m.set(k, v)]: a key already present keeps its place. *)
Fixpoint set (m : t) (k : string) (v : V) : t :=
  match m with
  | [] => [(k, v)]
  | (k', v') :: m' =>
      if String.eqb k' k then (k', v) :: m' else (k', v') :: set m' k v
  end.

Fixpoint get (m : t) (k : string) : option V :=
  match m with
  | [] => None
  | (k', v') :: m' => if String.eqb k' k then Some v' else get m' k
  end.

Definition keys (m : t) : list string := map fst m.

Definition size (m : t) : nat := List.length m.

End Defs.

Arguments t : clear implicits.

End JsMap.

(** ** Configuration ([config.ts])

    [singleLineThreshold] is a number; it is an integer here, as
    [parseInt] of the command line gives it.  The two fields of the
    extension policy are read by [generateIndex]; when the caller leaves
    them out they are [undefined], which every use treats as [false] and
    as the empty string. *)

Record Config : Type := mkConfig {
  componentsDir : string;
  outputFile : string;
  sortAlphabetically : bool;
  singleLineThreshold : Z;
  typePatterns : list RegExp;
  include : RegExp;
  exclude : list RegExp;
  headerComment : string;
  verbose : bool;
  dryRun : bool;
  forceExplicitExtensions : bool;
  extensionOverride : string
}.

Module Defaults.
Import Regex.

Definition typePatterns : list RegExp :=
  [ suffix true (lits "Api");
    suffix true (lits "Props");
    suffix true (lits "Config");
    compile (mkFlags true true true) (Seq (lits "Use") (Plus Word));
    suffix true (lits "Context");
    suffix true (lits "Provider");
    suffix true (lits "Store");
    suffix true (lits "Ref");
    suffix true (lits "Options") ].

(** [/\.(tsx|ts)$/] *)
Definition include : RegExp :=
  suffix false (Seq (Lit ".") (Alt (lits "tsx") (lits "ts"))).

(** [[/\.d\.ts$/, /\.test\.tsx?$/, /\.stories\.tsx?$/, /index\.ts$/]] *)
Definition exclude : list RegExp :=
  [ suffix false (lits ".d.ts");
    suffix false (Seq (lits ".test.ts") (Opt (Lit "x")));
    suffix false (Seq (lits ".stories.ts") (Opt (Lit "x")));
    suffix false (lits "index.ts") ].

Definition headerComment : string :=
  "/**" +++ nl +++
  " * This file was automatically generated." +++ nl +++
  " * DO NOT MODIFY IT BY HAND." +++ nl +++
  " * Run the script again to regenerate." +++ nl +++
  " */" +++ nl +++ nl.

End Defaults.

Definition defaultConfig : Config :=
  {| componentsDir := "src/components/ui";
     outputFile := "index.ts";
     sortAlphabetically := true;
     singleLineThreshold := 3;
     typePatterns := Defaults.typePatterns;
     include := Defaults.include;
     exclude := Defaults.exclude;
     headerComment := Defaults.headerComment;
     verbose := false;
     dryRun := false;
     forceExplicitExtensions := false;
     extensionOverride := "" |}.

(** [Partial<Config>]: a field is [None] when the key is absent. *)
Record PartialConfig : Type := mkPartialConfig {
  p_componentsDir : option string;
  p_outputFile : option string;
  p_sortAlphabetically : option bool;
  p_singleLineThreshold : option Z;
  p_typePatterns : option (list RegExp);
  p_include : option RegExp;
  p_exclude : option (list RegExp);
  p_headerComment : option string;
  p_verbose : option bool;
  p_dryRun : option bool;
  p_forceExplicitExtensions : option bool;
  p_extensionOverride : option string
}.

Definition noOptions : PartialConfig :=
  mkPartialConfig None None None None None None None None None None None None.

Definition orDefault {A : Type} (o : option A) (d : A) : A :=
  match o with Some a => a | None => d end.

(** [{ ...d, ...c }] *)
Definition mergeConfig (d : Config) (c : PartialConfig) : Config :=
  {| componentsDir := orDefault (p_componentsDir c) (componentsDir d);
     outputFile := orDefault (p_outputFile c) (outputFile d);
     sortAlphabetically := orDefault (p_sortAlphabetically c) (sortAlphabetically d);
     singleLineThreshold := orDefault (p_singleLineThreshold c) (singleLineThreshold d);
     typePatterns := orDefault (p_typePatterns c) (typePatterns d);
     include := orDefault (p_include c) (include d);
     exclude := orDefault (p_exclude c) (exclude d);
     headerComment := orDefault (p_headerComment c) (headerComment d);
     verbose := orDefault (p_verbose c) (verbose d);
     dryRun := orDefault (p_dryRun c) (dryRun d);
     forceExplicitExtensions :=
       orDefault (p_forceExplicitExtensions c) (forceExplicitExtensions d);
     extensionOverride := orDefault (p_extensionOverride c) (extensionOverride d) |}.

(** ** The syntax tree of a source file

    A node of the TypeScript tree carries its kind, with the fields that
    [extractExports] reads, and the children that [ts.forEachChild]
    enumerates. *)

Inductive SyntaxKind : Type :=
| ExportKeyword
| DefaultKeyword
| DeclareKeyword
| AsyncKeyword
| OtherModifier.

Definition SyntaxKind_eqb (a b : SyntaxKind) : bool :=
  match a, b with
  | ExportKeyword, ExportKeyword
  | DefaultKeyword, DefaultKeyword
  | DeclareKeyword, DeclareKeyword
  | AsyncKeyword, AsyncKeyword
  | OtherModifier, OtherModifier => true
  | _, _ => false
  end.

(** The name of a declaration: an identifier with its [text], or a
    binding pattern. *)
Inductive DeclarationName : Type :=
| Identifier (text : string)
| BindingPattern.

Record ExportSpecifier : Type := mkExportSpecifier {
  isTypeOnly : bool;
  name : string           (* [element.name.text], the exported name *)
}.

Inductive ExportClause : Type :=
| NamedExports (elements : list ExportSpecifier)
| NamespaceExport.

(** The expression of [export default <expression>]. *)
Inductive Expression : Type :=
| IdentifierExpression (text : string)
| FunctionExpression
| ArrowFunction
| OtherExpression.

Inductive NodeKind : Type :=
| ExportDeclaration (exportClause : option ExportClause)
| VariableStatement (modifiers : option (list SyntaxKind))
                    (declarations : list DeclarationName)
| TypeAliasDeclaration (modifiers : option (list SyntaxKind)) (name : DeclarationName)
| InterfaceDeclaration (modifiers : option (list SyntaxKind)) (name : DeclarationName)
| FunctionDeclaration (modifiers : option (list SyntaxKind)) (name : option string)
| ExportAssignment (isExportEquals : bool) (expression : Expression)
| OtherNode.

Unset Elimination Schemes.
Inductive Node : Type :=
| mkNode (kind : NodeKind) (children : list Node).
Set Elimination Schemes.

Definition kind (n : Node) : NodeKind := match n with mkNode k _ => k end.
Definition children (n : Node) : list Node := match n with mkNode _ cs => cs end.

(** [node.modifiers?.some(m => m.kind === ts.SyntaxKind.ExportKeyword)] *)
Definition hasExportModifier (modifiers : option (list SyntaxKind)) : bool :=
  match modifiers with
  | Some ms => existsb (fun m => SyntaxKind_eqb m ExportKeyword) ms
  | None => false
  end.

(** ** extractExports *)

Record Exports : Type := mkExports {
  exports : list string;
  typeExports : list string
}.

Definition pushExport (x : string) (acc : Exports) : Exports :=
  mkExports (exports acc ++ [x]) (typeExports acc).

Definition pushTypeExport (x : string) (acc : Exports) : Exports :=
  mkExports (exports acc) (typeExports acc ++ [x]).

Definition pushSpecifier (acc : Exports) (element : ExportSpecifier) : Exports :=
  if isTypeOnly element then pushTypeExport (name element) acc
  else pushExport (name element) acc.

Definition pushDeclaration (acc : Exports) (declaration : DeclarationName) : Exports :=
  match declaration with
  | Identifier text => pushExport text acc
  | BindingPattern => acc
  end.

(** What [visit] does with the node itself: the chain of [if ... else if]. *)
Definition visitOwn (k : NodeKind) (acc : Exports) : Exports :=
  match k with
  | ExportDeclaration (Some (NamedExports elements)) =>
      fold_left pushSpecifier elements acc
  | ExportDeclaration _ => acc
  | VariableStatement modifiers declarations =>
      if hasExportModifier modifiers
      then fold_left pushDeclaration declarations acc
      else acc
  | TypeAliasDeclaration modifiers (Identifier text) =>
      if hasExportModifier modifiers then pushTypeExport text acc else acc
  | TypeAliasDeclaration _ BindingPattern => acc
  | InterfaceDeclaration modifiers (Identifier text) =>
      if hasExportModifier modifiers then pushTypeExport text acc else acc
  | InterfaceDeclaration _ BindingPattern => acc
  | FunctionDeclaration modifiers (Some text) =>
      if hasExportModifier modifiers then pushExport text acc else acc
  | FunctionDeclaration _ None => acc
  | ExportAssignment false (IdentifierExpression text) => pushExport text acc
  | ExportAssignment false (FunctionExpression | ArrowFunction) =>
      pushExport "default" acc
  | ExportAssignment _ _ => acc
  | OtherNode => acc
  end.

(** [visit]: the node, then its children in order. *)
Fixpoint visit (node : Node) (acc : Exports) : Exports :=
  match node with
  | mkNode k cs => fold_left (fun a c => visit c a) cs (visitOwn k acc)
  end.

Definition extractExports (sourceFile : Node) : Exports :=
  visit sourceFile (mkExports [] []).

(** ** shouldBeType *)

Definition shouldBeType (name : string) (typePatterns : list RegExp) : bool :=
  existsb (fun pattern => test pattern name) typePatterns.

(** ** Errors ([types.ts]) and results of calls that can throw *)

Record FileSystemError : Type := mkError {
  message : string;
  code : option string;
  path : option string
}.

Inductive Result (A : Type) : Type :=
| Ok (value : A)
| Throw (error : FileSystemError).

Arguments Ok {A} value.
Arguments Throw {A} error.

(** ** JSON values, as [JSON.parse] returns them *)

Unset Elimination Schemes.
Inductive Json : Type :=
| JNull
| JBool (b : bool)
| JNumber (n : Z)
| JString (s : string)
| JArray (items : list Json)
| JObject (members : list (string * Json)).
Set Elimination Schemes.

(** The member of an object under a key; a repeated key has its last
    value. *)
Fixpoint member (members : list (string * Json)) (key : string) : option Json :=
  match members with
  | [] => None
  | (k, v) :: rest =>
      match member rest key with
      | Some v' => Some v'
      | None => if String.eqb k key then Some v else None
      end
  end.

(** [value.key] for one of the keys the program reads: a [TypeError] on
    [null], [undefined] ([None]) on a value without that member. *)
Definition property (value : Json) (key : string) : Result (option Json) :=
  match value with
  | JNull => Throw (mkError "Cannot read properties of null" None None)
  | JObject members => Ok (member members key)
  | _ => Ok None
  end.

Definition truthy (value : option Json) : bool :=
  match value with
  | None => false
  | Some JNull => false
  | Some (JBool b) => b
  | Some (JNumber n) => negb (n =? 0)%Z
  | Some (JString s) => negb (String.eqb s "")
  | Some (JArray _) => true
  | Some (JObject _) => true
  end.

(** [value?.toLowerCase?.()] on a value that [JSON.parse] gave: the
    string in lower case for a string; [undefined] for [undefined] and
    [null], for a number, a boolean or an array, which have no such
    member, and for an object without it or with [null] under that key; a
    [TypeError] for an object with anything else under the key
    [toLowerCase], which is not a function. *)
Definition lowered (value : option Json) : Result (option string) :=
  match value with
  | Some (JString s) => Ok (Some (Str.toLowerCase s))
  | Some (JObject members) =>
      match member members "toLowerCase" with
      | None | Some JNull => Ok None
      | Some _ =>
          Throw (mkError "toLowerCase is not a function" None None)
      end
  | _ => Ok None
  end.

Definition isString (value : option string) (literal : string) : bool :=
  match value with
  | Some s => String.eqb s literal
  | None => false
  end.

(** ** The host: Node, the parser, the clock *)

Record Host : Type := mkHost {
  cwd : string;                                     (* process.cwd() *)
  path_resolve : string -> string -> string;        (* path.resolve(a, b) *)
  path_join : string -> string -> string;           (* path.join(a, b) *)
  JSON_parse : string -> Result Json;
  (* ts.createSourceFile(file, sourceText, ts.ScriptTarget.Latest, true) *)
  createSourceFile : string -> string -> Result Node;
  processingTime : string     (* ((endTime - startTime) / 1000).toFixed(2) *)
}.

(** ** The file system *)

Record Stats : Type := mkStats { isDirectory : bool }.

(** What the promisified calls of [fs] answer for each path. *)
Record FileSystem : Type := mkFileSystem {
  stat : string -> Result Stats;
  readdir : string -> Result (list string);
  readFile : string -> Result string;
  (* the error with which a write to the path is refused, if it is *)
  writeRefused : string -> option FileSystemError
}.

(** [writeFile(p, data)]: unless refused, the file at [p] holds [data]
    afterwards, whatever it held before. *)
Definition writeFile (fs : FileSystem) (p data : string)
  : Result unit * FileSystem :=
  match writeRefused fs p with
  | Some e => (Throw e, fs)
  | None =>
      (Ok tt,
       mkFileSystem (stat fs) (readdir fs)
         (fun q => if String.eqb q p then Ok data else readFile fs q)
         (writeRefused fs))
  end.

(** ** What a run does: console output and file-system calls, in order *)

Inductive LogType : Type := info | success | warning | error | highlight.

Inductive Effect : Type :=
| Log (message : string) (type : LogType)        (* log(message, type) *)
| ConsoleLog (text : string)                     (* console.log(text) *)
| ConsoleWarn (text : string) (e : FileSystemError)
| ConsoleError (text : string) (e : FileSystemError)
| StdoutWrite (text : string)                    (* process.stdout.write *)
(* the progress line; its percentage is
   Math.floor((processedCount / total) * 100) *)
| Progress (processedCount total : nat)
| FsStat (p : string)
| FsReaddir (p : string)
| FsReadFile (p : string)
| FsWriteFile (p data : string).

Definition isWrite (e : Effect) : bool :=
  match e with FsWriteFile _ _ => true | _ => false end.

Definition isRead (e : Effect) : bool :=
  match e with FsReadFile _ => true | _ => false end.

(** The state of the process around a call of [generateIndex]. *)
Record Process : Type := mkProcess {
  fileSystem : FileSystem;
  trace : list Effect;
  exitCode : option Z          (* process.exitCode; [None] is undefined *)
}.

(** The code with which the process ends when nothing else sets it. *)
Definition exitStatus (p : Process) : Z := orDefault (exitCode p) 0%Z.

(** ** The environment probe *)

Section Probe.
Variable H : Host.
Variable fs : FileSystem.

Definition readJson (p : string) : Result Json :=
  match readFile fs p with
  | Ok content => JSON_parse H content
  | Throw e => Throw e
  end.

(** The first [try] of [shouldUseExplicitExtensions]: [true] when it
    returns [true], [false] when it falls through or its [catch] runs. *)
Definition packageIsModule (cwd : string) : bool :=
  match readJson (path_join H cwd "package.json") with
  | Ok packageJson =>
      match property packageJson "type" with
      | Ok (Some (JString s)) => String.eqb s "module"
      | _ => false
      end
  | Throw _ => false
  end.

(** [options.key?.toLowerCase?.() === literal] *)
Definition lowerIs (options : Json) (key literal : string) : Result bool :=
  match property options key with
  | Ok value =>
      match lowered value with
      | Ok lower => Ok (isString lower literal)
      | Throw e => Throw e
      end
  | Throw e => Throw e
  end.

(** [a || b]: [b] is evaluated when [a] is false. *)
Definition orElse (a b : Result bool) : Result bool :=
  match a with
  | Ok true => Ok true
  | Ok false => b
  | Throw e => Throw e
  end.

(** The condition on [moduleResolution] and [module]. *)
Definition optionsAskForExtensions (options : Json) : Result bool :=
  orElse (lowerIs options "moduleResolution" "nodenext")
    (orElse (lowerIs options "moduleResolution" "node16")
       (orElse (lowerIs options "module" "nodenext")
          (lowerIs options "module" "node16"))).

Definition tsconfigAsksForExtensions (cwd : string) : bool :=
  match readJson (path_join H cwd "tsconfig.json") with
  | Ok tsconfig =>
      match property tsconfig "compilerOptions" with
      | Ok compilerOptions =>
          if truthy compilerOptions
          then match compilerOptions with
               | Some options =>
                   match optionsAskForExtensions options with
                   | Ok asked => asked
                   | Throw _ => false
                   end
               | None => false
               end
          else false
      | Throw _ => false
      end
  | Throw _ => false
  end.

Definition shouldUseExplicitExtensions (cwd : string) : bool * list Effect :=
  if packageIsModule cwd
  then (true, [FsReadFile (path_join H cwd "package.json")])
  else (tsconfigAsksForExtensions cwd,
        [FsReadFile (path_join H cwd "package.json");
         FsReadFile (path_join H cwd "tsconfig.json")]).

(** The two loops of [detectMonorepo] and the loop of
    [findUIComponentsInMonorepo]: the first candidate whose [stat]
    succeeds and satisfies [accept]. *)
Fixpoint firstStat (accept : Stats -> bool) (base : string)
  (candidates : list string) : option string * list Effect :=
  match candidates with
  | [] => (None, [])
  | c :: rest =>
      let full := path_join H base c in
      match stat fs full with
      | Ok st =>
          if accept st then (Some full, [FsStat full])
          else let '(r, t) := firstStat accept base rest in (r, FsStat full :: t)
      | Throw _ =>
          let '(r, t) := firstStat accept base rest in (r, FsStat full :: t)
      end
  end.

Definition monorepoConfigs : list string :=
  ["lerna.json"; "pnpm-workspace.yaml"; "turbo.json"; "nx.json"; "rush.json"].

Definition monorepoDirs : list string := ["packages"; "apps"; "libs"; "modules"].

Definition detectMonorepo (cwd : string) : bool * list Effect :=
  match firstStat (fun _ => true) cwd monorepoConfigs with
  | (Some _, t) => (true, t)
  | (None, t) =>
      match firstStat isDirectory cwd monorepoDirs with
      | (Some _, t') => (true, t ++ t')
      | (None, t') => (false, t ++ t')
      end
  end.

Definition commonPaths : list string :=
  ["packages/ui/src/components/ui";
   "packages/ui/components/ui";
   "packages/ui/src/ui";
   "packages/ui/ui";
   "packages/components/src/ui";
   "packages/components/ui";
   "packages/design-system/src/components/ui";
   "packages/design-system/components/ui";
   "libs/ui/src/components/ui";
   "libs/ui/components/ui"].

Definition findUIComponentsInMonorepo (cwd : string) : option string * list Effect :=
  firstStat isDirectory cwd commonPaths.

End Probe.

(** ** Array.prototype.sort() on strings

    Without a comparison function the elements are ordered by their code
    units, [String.leb].  The order is total, so every correct sort gives
    the same array; insertion is the simplest one. *)

Fixpoint insert (x : string) (l : list string) : list string :=
  match l with
  | [] => [x]
  | y :: l' => if String.leb x y then x :: l else y :: insert x l'
  end.

Fixpoint sort (l : list string) : list string :=
  match l with
  | [] => []
  | x :: l' => insert x (sort l')
  end.

(** ** generateIndex *)

(** The double quote of the generated statements. *)
Definition dq : string := String "034" EmptyString.

(** The bullet U+2022 of the verbose listing, in UTF-8. *)
Definition bullet : string :=
  String "226" (String "128" (String "162" EmptyString)).

(** [Buffer.byteLength(s, 'utf8')] for code units below 256. *)
Fixpoint byteLength (s : string) : nat :=
  match s with
  | EmptyString => 0
  | String c s' => (if (nat_of_ascii c <? 128)%nat then 1 else 2) + byteLength s'
  end.

(** [(bytes / 1024).toFixed(2)]: the quotient is exact, and the nearest
    number of hundredths is taken, the larger one on a tie. *)
Definition fileSizeKB (bytes : nat) : string :=
  let n := ((bytes * 100 + 512) / 1024)%nat in
  let r := (n mod 100)%nat in
  Str.ofNat (n / 100) +++ "." +++
  (if (r <? 10)%nat then "0" +++ Str.ofNat r else Str.ofNat r).

Record LoopState : Type := mkLoopState {
  componentExports : JsMap.t (list string);
  fileExtensions : JsMap.t string;
  processedCount : nat;
  typesDetectedCount : nat
}.

(** The result of the loop over the value exports of one file. *)
Record Classified : Type := mkClassified {
  finalExports : list string;
  finalTypeExports : list string;
  detected : nat;                  (* typesDetectedCount *)
  notices : list Effect
}.

(** The statements that run when the [try] block is left. *)
Inductive Completion : Type :=
| Completed
| Returned
| Threw (e : FileSystemError).

Section Generate.
Variable H : Host.
Variable fullConfig : Config.

(** One turn of [for (const name of exports)]. *)
Definition classifyStep (file : string) (c : Classified) (name : string)
  : Classified :=
  if shouldBeType name (typePatterns fullConfig)
  then mkClassified
         (finalExports c)
         (finalTypeExports c ++ [name])
         (S (detected c))
         (notices c ++
          if verbose fullConfig
          then [Log ("Marking " +++ dq +++ name +++ dq +++ " in " +++ file
                     +++ " as a type export") highlight]
          else [])
  else mkClassified (finalExports c ++ [name]) (finalTypeExports c)
         (detected c) (notices c).

Definition classify (file : string) (ex : Exports) (count : nat) : Classified :=
  fold_left (classifyStep file) (exports ex)
    (mkClassified [] (typeExports ex) count []).

(** [[...finalExports, ...finalTypeExports.map(name => `type ${name}`)]] *)
Definition allExportsOf (c : Classified) : list string :=
  finalExports c ++ map (fun name => "type " +++ name) (finalTypeExports c).

(** [updateProgress] *)
Definition updateProgress (total : nat) (s : LoopState)
  : LoopState * list Effect :=
  let s' := mkLoopState (componentExports s) (fileExtensions s)
              (S (processedCount s)) (typesDetectedCount s) in
  (s', if verbose fullConfig then [Progress (processedCount s') total] else []).

(** Reading and parsing one file: the part of the [try] block that can
    throw. *)
Definition readSource (fs : FileSystem) (filePath file : string) : Result Node :=
  match readFile fs filePath with
  | Ok sourceText => createSourceFile H file sourceText
  | Throw e => Throw e
  end.

(** The body of [for (const file of componentFiles)]. *)
Definition processFile (fs : FileSystem) (componentsDir : string) (total : nat)
  (s : LoopState) (file : string) : LoopState * list Effect :=
  let filePath := path_join H componentsDir file in
  let componentName := basename file (extname file) in
  let s1 := mkLoopState (componentExports s)
              (JsMap.set (fileExtensions s) componentName (extname file))
              (processedCount s) (typesDetectedCount s) in
  match readSource fs filePath file with
  | Ok sourceFile =>
      let c := classify file (extractExports sourceFile) (typesDetectedCount s1) in
      let allExports := allExportsOf c in
      let s2 := mkLoopState
                  (if (0 <? List.length allExports)%nat
                   then JsMap.set (componentExports s1) componentName allExports
                   else componentExports s1)
                  (fileExtensions s1) (processedCount s1) (detected c) in
      let '(s3, t) := updateProgress total s2 in
      (s3, [FsReadFile filePath] ++ notices c ++ t)
  | Throw e =>
      let '(s3, t) := updateProgress total s1 in
      (s3, [FsReadFile filePath;
            ConsoleWarn ("Warning: Could not process file " +++ file +++ ":") e]
           ++ t)
  end.

Fixpoint processFiles (fs : FileSystem) (componentsDir : string) (total : nat)
  (s : LoopState) (files : list string) : LoopState * list Effect :=
  match files with
  | [] => (s, [])
  | file :: rest =>
      let '(s1, t1) := processFile fs componentsDir total s file in
      let '(s2, t2) := processFiles fs componentsDir total s1 rest in
      (s2, t1 ++ t2)
  end.

(** [files.filter(...)] *)
Definition isComponentFile (file : string) : bool :=
  test (include fullConfig) file &&
  negb (existsb (fun pattern => test pattern file) (exclude fullConfig)).

Definition componentFilesOf (files : list string) : list string :=
  filter isComponentFile files.

(** [Array.from(componentExports.keys())], sorted or not. *)
Definition componentNamesOf (s : LoopState) : list string :=
  let componentNames := JsMap.keys (componentExports s) in
  if sortAlphabetically fullConfig then sort componentNames else componentNames.

(** The extension of the module specifier of one component. *)
Definition extensionOf (useExplicitExtensions : bool) (s : LoopState)
  (componentName : string) : string :=
  if useExplicitExtensions then
    if negb (String.eqb (extensionOverride fullConfig) "") then
      if Str.startsWith (extensionOverride fullConfig) "."
      then extensionOverride fullConfig
      else "." +++ extensionOverride fullConfig
    else if forceExplicitExtensions fullConfig then
      orDefault (JsMap.get (fileExtensions s) componentName) ""
    else
      let originalExtension :=
        orDefault (JsMap.get (fileExtensions s) componentName) "" in
      if String.eqb originalExtension ".tsx" || String.eqb originalExtension ".ts"
      then ".js"
      else originalExtension
  else "".

(** The module specifier, between the quotes. *)
Definition specifierOf (componentName extension : string) : string :=
  "./" +++ componentName +++ extension.

Definition singleLine (exports : list string) (specifier : string) : string :=
  "export { " +++ String.concat ", " exports +++ " } from " +++ dq +++ specifier
  +++ dq +++ ";" +++ nl.

Definition multiLine (exports : list string) (specifier : string) : string :=
  "export {" +++ nl +++ "  " +++ String.concat ("," +++ nl +++ "  ") exports
  +++ nl +++ "} from " +++ dq +++ specifier +++ dq +++ ";" +++ nl.

(** The text that one turn of the last loop appends to [indexContent]. *)
Definition statementOf (useExplicitExtensions : bool) (s : LoopState)
  (componentName : string) : string :=
  let exports := orDefault (JsMap.get (componentExports s) componentName) [] in
  let extension := extensionOf useExplicitExtensions s componentName in
  if (Z.of_nat (List.length exports) <=? singleLineThreshold fullConfig)%Z
  then singleLine exports (specifierOf componentName extension)
  else multiLine exports (specifierOf componentName extension).

(** [indexContent] after the loop over [componentNames]. *)
Definition renderIndex (useExplicitExtensions : bool) (s : LoopState) : string :=
  fold_left
    (fun indexContent componentName =>
       indexContent +++ statementOf useExplicitExtensions s componentName)
    (componentNamesOf s) (headerComment fullConfig).

Definition emptyLoopState : LoopState := mkLoopState JsMap.empty JsMap.empty 0 0.

(** The state after the loop over the component files of a listing. *)
Definition scan (fs : FileSystem) (componentsDir : string) (files : list string)
  : LoopState * list Effect :=
  let componentFiles := componentFilesOf files in
  processFiles fs componentsDir (List.length componentFiles) emptyLoopState
    componentFiles.

(** The text generated from a listing. *)
Definition indexContentOf (useExplicitExtensions : bool) (fs : FileSystem)
  (componentsDir : string) (files : list string) : string :=
  renderIndex useExplicitExtensions (fst (scan fs componentsDir files)).

Definition banner : list Effect :=
  [ConsoleLog "=====================================";
   ConsoleLog " ShadCN UI Index Generator";
   ConsoleLog "====================================="].

(** From the listing to the end of the [try] block. *)
Definition generateFrom (useExplicitExtensions : bool) (fs : FileSystem)
  (componentsDir outputFilePath : string) (files : list string)
  : Completion * list Effect * FileSystem :=
  let componentFiles := componentFilesOf files in
  let found :=
    [Log ("Found " +++ Str.ofNat (List.length componentFiles) +++ " component files")
       highlight] ++
    (if verbose fullConfig
     then [Log "Component files found:" info] ++
          map (fun file => ConsoleLog ("  " +++ bullet +++ " " +++ file)) componentFiles ++
          [ConsoleLog ""]
     else []) ++
    [Log "Processing component files..." info] in
  let '(s, loop) := scan fs componentsDir files in
  let processed :=
    (if verbose fullConfig then [StdoutWrite nl] else []) ++
    [Log ("Processed " +++ Str.ofNat (List.length componentFiles) +++ " files in "
          +++ processingTime H +++ "s") success;
     Log ("Detected " +++ Str.ofNat (typesDetectedCount s)
          +++ " type exports that need the 'type' keyword") highlight;
     Log "Generating index.ts content..." info] in
  let indexContent := renderIndex useExplicitExtensions s in
  if dryRun fullConfig then
    (Completed,
     found ++ loop ++ processed ++
     [Log "Dry run - index.ts would contain:" highlight;
      ConsoleLog "---------------------------------------------------";
      ConsoleLog indexContent;
      ConsoleLog "---------------------------------------------------";
      Log "No files were modified (dry run mode)" info],
     fs)
  else
    match writeFile fs outputFilePath indexContent with
    | (Ok _, fs') =>
        (Completed,
         found ++ loop ++ processed ++
         [FsWriteFile outputFilePath indexContent;
          Log ("Generated " +++ outputFilePath +++ " ("
               +++ fileSizeKB (byteLength indexContent) +++ "KB" +++ ")") success;
          Log ("File contains " +++ Str.ofNat (JsMap.size (componentExports s))
               +++ " component exports") success],
         fs')
    | (Throw e, fs') =>
        (Threw e,
         found ++ loop ++ processed ++ [FsWriteFile outputFilePath indexContent],
         fs')
    end.

(** The [try] block. *)
Definition tryBlock (useExplicitExtensions : bool) (fs : FileSystem)
  (componentsDir outputFilePath : string)
  : Completion * list Effect * FileSystem :=
  match stat fs componentsDir with
  | Throw fsError =>
      if isString (code fsError) "ENOENT"
      then (Returned,
            [FsStat componentsDir;
             Log ("Directory not found: " +++ componentsDir) error;
             Log "Please check the path and try again" warning],
            fs)
      else (Threw fsError, [FsStat componentsDir], fs)
  | Ok _ =>
      let start :=
        [FsStat componentsDir] ++ banner ++
        [Log "Starting index generation for UI components" info;
         Log ("Scanning directory: " +++ componentsDir) info;
         FsReaddir componentsDir] in
      match readdir fs componentsDir with
      | Throw e => (Threw e, start, fs)
      | Ok files =>
          let '(c, t, fs') :=
            generateFrom useExplicitExtensions fs componentsDir outputFilePath files in
          (c, start ++ t, fs')
      end
  end.

(** [chalk.bold(fsError.path)] *)
Definition shownPath (fsError : FileSystemError) : string :=
  orDefault (path fsError) "undefined".

(** The [catch] block, before it sets the exit code. *)
Definition report (fsError : FileSystemError) : list Effect :=
  (match code fsError with
   | Some c =>
       if String.eqb c "" then
         [Log ("Unexpected error: " +++ message fsError) error]
       else if String.eqb c "EACCES" then
         [Log ("Permission denied: Cannot access " +++ shownPath fsError) error;
          Log "Try running with elevated permissions" warning]
       else if String.eqb c "ENAMETOOLONG" then
         [Log ("Path too long: " +++ shownPath fsError) error]
       else
         [Log ("Operation failed: " +++ message fsError) error]
   | None => [Log ("Unexpected error: " +++ message fsError) error]
   end) ++
  (if verbose fullConfig
   then [ConsoleError (nl +++ "Detailed error information:") fsError]
   else [Log "Run with --verbose for more details" info]).

(** The [finally] block. *)
Definition footer : list Effect :=
  [ConsoleLog "=====================================";
   Log "Generation complete!" success;
   ConsoleLog "====================================="].

(** What is settled before the [try] block: whether extensions are
    written, and the directory to scan. *)
Record Setup : Type := mkSetup {
  useExplicitExtensions : bool;
  scannedDir : string;              (* componentsDir *)
  outputFilePath : string;          (* outputFile *)
  setupTrace : list Effect
}.

Definition setup (fs : FileSystem) : Setup :=
  let cwd := cwd H in
  let '(isMonorepo, t1) := detectMonorepo H fs cwd in
  let '(useExplicitExtensions, t2) :=
    if forceExplicitExtensions fullConfig then (true, [])
    else shouldUseExplicitExtensions H fs cwd in
  let t3 :=
    if useExplicitExtensions then
      (if forceExplicitExtensions fullConfig
       then [Log "Using actual file extensions in imports (--force-extensions flag)"
               highlight]
       else [Log "Detected ESM project, converting extensions to .js" highlight]) ++
      (if negb (String.eqb (extensionOverride fullConfig) "")
       then [Log ("Using override extension: " +++ extensionOverride fullConfig
                  +++ " for all imports") highlight]
       else [Log "Converting .tsx/.ts extensions to .js in imports (auto-detected)"
               highlight])
    else [] in
  let resolved := path_resolve H cwd (componentsDir fullConfig) in
  let '(componentsDir, t4) :=
    if isMonorepo then
      match findUIComponentsInMonorepo H fs cwd with
      | (Some monorepoUIPath, t) =>
          (monorepoUIPath,
           t ++ if verbose fullConfig
                then [Log ("Detected monorepo structure, using UI components at: "
                           +++ monorepoUIPath) highlight]
                else [])
      | (None, t) => (resolved, t)
      end
    else (resolved, []) in
  mkSetup useExplicitExtensions componentsDir
    (path_join H componentsDir (outputFile fullConfig))
    (t1 ++ t2 ++ t3 ++ t4).

(** [generateIndex] once the configuration is merged. *)
Definition run (p : Process) : Process :=
  let fs := fileSystem p in
  let s := setup fs in
  match tryBlock (useExplicitExtensions s) fs (scannedDir s) (outputFilePath s) with
  | (Threw fsError, t, fs') =>
      mkProcess fs' (trace p ++ setupTrace s ++ t ++ report fsError ++ footer)
        (Some 1%Z)
  | (_, t, fs') =>
      mkProcess fs' (trace p ++ setupTrace s ++ t ++ footer) (exitCode p)
  end.

End Generate.

Definition generateIndex (H : Host) (config : PartialConfig) (p : Process)
  : Process :=
  run H (mergeConfig defaultConfig config) p.

(** Induction on a tree, with the hypothesis for every child. *)
Section NodeInduction.
Variable P : Node -> Prop.
Hypothesis step : forall k cs, Forall P cs -> P (mkNode k cs).

Fixpoint Node_ind (n : Node) : P n :=
  match n with
  | mkNode k cs =>
      step k cs
        ((fix all (l : list Node) : Forall P l :=
            match l with
            | [] => Forall_nil P
            | c :: l' => Forall_cons c (Node_ind c) (all l')
            end) cs)
  end.

End NodeInduction.

(** * Notions used to state the properties *)

(** The order of [sort]: code units, left to right. *)
Definition lt (a b : string) : Prop := String.ltb a b = true.
Definition le (a b : string) : Prop := String.leb a b = true.

(** [m] is a node of the tree [n]. *)
Inductive Inside (m : Node) : Node -> Prop :=
| Inside_here : Inside m m
| Inside_child k cs c : In c cs -> Inside m c -> Inside m (mkNode k cs).

Definition noExports : Exports := mkExports [] [].

Definition appendExports (a b : Exports) : Exports :=
  mkExports (exports a ++ exports b) (typeExports a ++ typeExports b).

(** The shapes of declaration the properties are about. *)



(** [export const Foo = ...] somewhere in the file, possibly with other
    declarations in the same statement. *)
Definition ExportsConst (sourceFile : Node) (Foo : string) : Prop :=
  exists modifiers declarations cs,
    hasExportModifier modifiers = true /\
    In (Identifier Foo) declarations /\
    Inside (mkNode (VariableStatement modifiers declarations) cs) sourceFile.

(** A string without a newline. *)
Definition NoNewline (s : string) : Prop := Str.contains "010" s = false.

(** The lines between the braces of a multi-line statement: one name on
    each, after two spaces, with a comma after every name but the last. *)
Fixpoint nameLines (exports : list string) : list string :=
  match exports with
  | [] => ["  "]
  | [e] => ["  " +++ e]
  | e :: rest => ("  " +++ e +++ ",") :: nameLines rest
  end.

(** [name] is emitted with the [type] modifier. *)
Definition isType (fullConfig : Config) (name : string) : bool :=
  shouldBeType name (typePatterns fullConfig).

(** The component name of a file: [path.basename(file, path.extname(file))]. *)
Definition componentNameOf (file : string) : string := basename file (extname file).

(** The export clause that the loop stores for a file: none when reading
    or parsing throws, and none when the file exports nothing. *)
Definition clauseOf (H : Host) (fullConfig : Config) (fs : FileSystem)
  (componentsDir file : string) : option (list string) :=
  match readSource H fs (path_join H componentsDir file) file with
  | Ok sourceFile =>
      let allExports :=
        allExportsOf (classify fullConfig file (extractExports sourceFile) 0) in
      if (0 <? List.length allExports)%nat then Some allExports else None
  | Throw _ => None
  end.

(** The number of value exports of a file that the type patterns move. *)
Definition reclassifiedIn (H : Host) (fullConfig : Config) (fs : FileSystem)
  (componentsDir file : string) : nat :=
  match readSource H fs (path_join H componentsDir file) file with
  | Ok sourceFile =>
      List.length (filter (isType fullConfig) (exports (extractExports sourceFile)))
  | Throw _ => 0
  end.

Definition readSucceeds (H : Host) (fs : FileSystem) (componentsDir file : string)
  : bool :=
  match readSource H fs (path_join H componentsDir file) file with
  | Ok _ => true
  | Throw _ => false
  end.

Definition isSome {A : Type} (o : option A) : bool :=
  match o with Some _ => true | None => false end.

(** The names of a list in the order of their first occurrence. *)
Fixpoint firstOccurrences (l : list string) : list string :=
  match l with
  | [] => []
  | x :: l' => x :: filter (fun y => negb (String.eqb y x)) (firstOccurrences l')
  end.

(** The last element of a list that satisfies [p]. *)
Definition lastWith {A : Type} (p : A -> bool) (l : list A) : option A :=
  find p (rev l).

Definition mem (k : string) (l : list string) : bool := existsb (String.eqb k) l.

(** One turn of a loop that sets the value of an element, if it has one,
    under its key. *)
Definition setStep {A V : Type} (key : A -> string) (value : A -> option V)
  (m : JsMap.t V) (a : A) : JsMap.t V :=
  match value a with
  | Some v => JsMap.set m (key a) v
  | None => m
  end.

(** What one file does to the map of the export clauses. *)
Definition stepExports (H : Host) (fullConfig : Config) (fs : FileSystem)
  (componentsDir : string) (m : JsMap.t (list string)) (file : string)
  : JsMap.t (list string) :=
  match clauseOf H fullConfig fs componentsDir file with
  | Some clause => JsMap.set m (componentNameOf file) clause
  | None => m
  end.

(** What one file does to the map of the extensions. *)
Definition stepExtensions (m : JsMap.t string) (file : string) : JsMap.t string :=
  JsMap.set m (componentNameOf file) (extname file).

(** The component files of a listing that give an export clause. *)
Definition contributingFiles (H : Host) (fullConfig : Config) (fs : FileSystem)
  (componentsDir : string) (files : list string) : list string :=
  filter (fun file => isSome (clauseOf H fullConfig fs componentsDir file))
    (componentFilesOf fullConfig files).

(** Their component names, in the order in which the listing enumerates
    them; a name that comes again keeps its first place. *)
Definition enumeratedNames (H : Host) (fullConfig : Config) (fs : FileSystem)
  (componentsDir : string) (files : list string) : list string :=
  firstOccurrences
    (map componentNameOf (contributingFiles H fullConfig fs componentsDir files)).

(** The reading of the collision rule in which the last file with a base
    name always decides the export list of that name. *)
Definition LastFileDecidesClause : Prop :=
  forall (H : Host) (fullConfig : Config) (fs : FileSystem)
         (componentsDir : string) (files : list string) (name last : string),
    lastWith (fun file => String.eqb (componentNameOf file) name)
      (componentFilesOf fullConfig files) = Some last ->
    JsMap.get (componentExports (fst (scan H fullConfig fs componentsDir files))) name
    = clauseOf H fullConfig fs componentsDir last.

(** [file] ends with [suffix]. *)
Definition EndsWith (file suffix : string) : Prop :=
  exists stem, file = stem +++ suffix.

(** The names that the exclude patterns of [config.ts] are written for. *)
Definition ExcludedByDefault (file : string) : Prop :=
  EndsWith file ".d.ts" \/
  EndsWith file ".test.ts" \/ EndsWith file ".test.tsx" \/
  EndsWith file ".stories.ts" \/ EndsWith file ".stories.tsx" \/
  EndsWith file "index.ts".

(** The options of a call that only names the output file. *)
Definition outputTo (name : string) : PartialConfig :=
  mkPartialConfig None (Some name) None None None None None None None None None None.

(** The reading of the exclusion rule in which the configured output file
    is left out of the scan whatever its name. *)
Definition OutputFileIsExcluded : Prop :=
  forall (H : Host) (useExplicit : bool) (fs : FileSystem)
         (componentsDir : string) (files : list string) (output : string),
    let fullConfig := mergeConfig defaultConfig (outputTo output) in
    (forall file, In file files ->
       EndsWith file ".d.ts" \/
       EndsWith file ".test.ts" \/ EndsWith file ".test.tsx" \/
       EndsWith file ".stories.ts" \/ EndsWith file ".stories.tsx" \/
       file = output) ->
    indexContentOf H fullConfig useExplicit fs componentsDir files
    = headerComment fullConfig.

(** Effects that leave the files alone, and effects that read none. *)
Definition NotWrite (e : Effect) : Prop := isWrite e = false.
Definition NotRead (e : Effect) : Prop := isRead e = false.

(** The effects of the probe: calls of [stat] and [readFile], and lines of
    [log]. *)
Definition Probe (e : Effect) : Prop :=
  match e with
  | FsStat _ | FsReadFile _ | Log _ _ => True
  | _ => False
  end.

(** The failures that abort a run: [stat] of the directory throws
    something else than ENOENT, the listing throws, or the write does. *)
Definition Aborts (fullConfig : Config) (fs : FileSystem)
  (componentsDir output : string) (e : FileSystemError) : Prop :=
  (stat fs componentsDir = Throw e /\ code e <> Some "ENOENT") \/
  (exists st, stat fs componentsDir = Ok st /\ readdir fs componentsDir = Throw e) \/
  (exists st files,
     stat fs componentsDir = Ok st /\ readdir fs componentsDir = Ok files /\
     dryRun fullConfig = false /\ writeRefused fs output = Some e).

(** * A small project, for the concrete runs *)

Module Example.

Definition join (a b : string) : string := a +++ "/" +++ b.

Definition leaf (k : NodeKind) : Node := mkNode k [].

Definition exported : option (list SyntaxKind) := Some [ExportKeyword].

(** The sources of the examples and their trees. *)

Definition buttonSource : string :=
  "export const Button = 1; export interface ButtonProps {}".

Definition buttonTree : Node :=
  mkNode OtherNode
    [leaf (VariableStatement exported [Identifier "Button"]);
     leaf (InterfaceDeclaration exported (Identifier "ButtonProps"))].

Definition cardSource : string := "export const Card = 1;".

Definition cardTree : Node :=
  mkNode OtherNode [leaf (VariableStatement exported [Identifier "Card"])].

Definition variantsSource : string :=
  "export type Variant = string; export const buttonConfig = {};".

Definition variantsTree : Node :=
  mkNode OtherNode
    [leaf (TypeAliasDeclaration exported (Identifier "Variant"));
     leaf (VariableStatement exported [Identifier "buttonConfig"])].

Definition iconsSource : string :=
  "export const A = 1, B = 2; export function C() {} export const D = 4;".

Definition iconsTree : Node :=
  mkNode OtherNode
    [leaf (VariableStatement exported [Identifier "A"; Identifier "B"]);
     leaf (FunctionDeclaration exported (Some "C"));
     leaf (VariableStatement exported [Identifier "D"])].

Definition helperSource : string := "const local = 1;".

Definition helperTree : Node :=
  mkNode OtherNode [leaf (VariableStatement None [Identifier "local"])].

(** A barrel file that an earlier run wrote. *)
Definition barrelSource : string :=
  Defaults.headerComment +++ "export { Card } from " +++ dq +++ "./card" +++ dq
  +++ ";" +++ nl.

Definition barrelTree : Node :=
  mkNode OtherNode
    [leaf (ExportDeclaration (Some (NamedExports [mkExportSpecifier false "Card"])))].

Definition syntaxError : FileSystemError :=
  mkError "Unexpected token" None None.

(** The parser, on the sources above; any other text does not parse. *)
Definition parse (file text : string) : Result Node :=
  if String.eqb text buttonSource then Ok buttonTree
  else if String.eqb text cardSource then Ok cardTree
  else if String.eqb text variantsSource then Ok variantsTree
  else if String.eqb text iconsSource then Ok iconsTree
  else if String.eqb text helperSource then Ok helperTree
  else if String.eqb text barrelSource then Ok barrelTree
  else Throw syntaxError.

(** A project in [/proj] without [package.json] and [tsconfig.json]
    that could be parsed: nothing asks for explicit extensions. *)
Definition host : Host :=
  mkHost "/proj" join join (fun _ => Throw syntaxError) parse "0.01".

Definition enoent (p : string) : FileSystemError :=
  mkError "ENOENT: no such file or directory" (Some "ENOENT") (Some p).

Definition eacces (p : string) : FileSystemError :=
  mkError "EACCES: permission denied" (Some "EACCES") (Some p).

Fixpoint lookup (p : string) (entries : list (string * Result string))
  : Result string :=
  match entries with
  | [] => Throw (enoent p)
  | (q, r) :: rest => if String.eqb q p then r else lookup p rest
  end.

(** A file system with one directory, listed in the given order. *)
Definition folder (dir : string) (entries : list (string * Result string))
  : FileSystem :=
  mkFileSystem
    (fun p => if String.eqb p dir then Ok (mkStats true) else Throw (enoent p))
    (fun p => if String.eqb p dir then Ok (map fst entries) else Throw (enoent p))
    (fun p => lookup p (map (fun e => (join dir (fst e), snd e)) entries))
    (fun _ => None).

Definition ui : string := "/proj/src/components/ui".

(** The directory of the specification's example, enumerated with
    [card.tsx] first. *)
Definition components : FileSystem :=
  folder ui [("card.tsx", Ok cardSource); ("button.tsx", Ok buttonSource)].

(** The same directory when the output file cannot be written. *)
Definition readOnly : FileSystem :=
  mkFileSystem (stat components) (readdir components) (readFile components)
    (fun p => Some (eacces p)).

(** [button.ts] is a component; [button.tsx] beside it cannot be read. *)
Definition brokenTwin : FileSystem :=
  folder ui
    [("button.ts", Ok cardSource);
     ("button.tsx", Throw (eacces "/proj/src/components/ui/button.tsx"))].

(** The same directory without the file that cannot be read. *)
Definition withoutTwin : FileSystem :=
  folder ui [("button.ts", Ok cardSource)].

(** [--force-extensions] *)
Definition forceOptions : PartialConfig :=
  mkPartialConfig None None None None None None None None None None (Some true) None.

(** [--ext .jsx] *)
Definition jsxOptions : PartialConfig :=
  mkPartialConfig None None None None None None None None None None None (Some ".jsx").

(** [--no-sort] *)
Definition noSortOptions : PartialConfig :=
  mkPartialConfig None None (Some false) None None None None None None None None None.

Definition dryRunOptions : PartialConfig :=
  mkPartialConfig None None None None None None None None None (Some true) None None.

Definition fresh (fs : FileSystem) : Process := mkProcess fs [] None.

End Example.


(** * Further notions: the extractor *)

(** The node kind [k] records [x] as a value export: the branches of
    [visit] that push to [exports]. *)
Definition RecordsValue (k : NodeKind) (x : string) : Prop :=
  match k with
  | ExportDeclaration (Some (NamedExports elements)) =>
      exists element, In element elements /\ isTypeOnly element = false /\ name element = x
  | VariableStatement modifiers declarations =>
      hasExportModifier modifiers = true /\ In (Identifier x) declarations
  | FunctionDeclaration modifiers (Some text) =>
      hasExportModifier modifiers = true /\ text = x
  | ExportAssignment false (IdentifierExpression text) => text = x
  | ExportAssignment false FunctionExpression => x = "default"
  | ExportAssignment false ArrowFunction => x = "default"
  | _ => False
  end.

(** The node kind [k] records [x] as a type export: the branches of
    [visit] that push to [typeExports]. *)
Definition RecordsType (k : NodeKind) (x : string) : Prop :=
  match k with
  | ExportDeclaration (Some (NamedExports elements)) =>
      exists element, In element elements /\ isTypeOnly element = true /\ name element = x
  | TypeAliasDeclaration modifiers (Identifier text) =>
      hasExportModifier modifiers = true /\ text = x
  | InterfaceDeclaration modifiers (Identifier text) =>
      hasExportModifier modifiers = true /\ text = x
  | _ => False
  end.

(** Node kinds that no branch of [visit] records anything for: any other
    kind of node (a class, an import, a block), [export * from] and
    [export * as ns from], [export =], a default export of an expression
    that is neither an identifier nor a function, an exported function
    without a name, and declarations without the [export] modifier. *)
Definition unrecognized (k : NodeKind) : bool :=
  match k with
  | OtherNode => true
  | ExportDeclaration None => true
  | ExportDeclaration (Some NamespaceExport) => true
  | ExportDeclaration (Some (NamedExports elements)) =>
      match elements with [] => true | _ => false end
  | ExportAssignment true _ => true
  | ExportAssignment false OtherExpression => true
  | ExportAssignment false _ => false
  | FunctionDeclaration _ None => true
  | FunctionDeclaration modifiers (Some _) => negb (hasExportModifier modifiers)
  | VariableStatement modifiers _ => negb (hasExportModifier modifiers)
  | TypeAliasDeclaration modifiers _ => negb (hasExportModifier modifiers)
  | InterfaceDeclaration modifiers _ => negb (hasExportModifier modifiers)
  end.

(** * Further notions: the loop *)

(** A line of [log]. *)
Definition IsLog (e : Effect) : Prop :=
  match e with Log _ _ => True | _ => False end.

(** The export clause of the extracted names: the value exports that no
    type pattern matches, then, each behind [type], the declared type
    exports and the value exports that a pattern matches. *)
Definition clauseLayout (fullConfig : Config) (ex : Exports) : list string :=
  filter (fun n => negb (isType fullConfig n)) (exports ex)
  ++ map (fun n => "type " +++ n)
       (typeExports ex ++ filter (isType fullConfig) (exports ex)).

(** A tree with an exported class and a star export, which the extractor
    does not recognise, and a declaration that is not exported. *)
Definition silentTree : Node :=
  mkNode OtherNode
    [Example.leaf OtherNode;
     Example.leaf (ExportDeclaration None);
     Example.leaf (ExportAssignment true OtherExpression);
     Example.leaf (VariableStatement None [Identifier "local"])].

(** A line of [log] of type [error]. *)
Definition isErrorLog (e : Effect) : bool :=
  match e with Log _ error => true | _ => false end.

Definition NotErrorLog (e : Effect) : Prop := isErrorLog e = false.

(** * Further notions: the probe *)

(** [stat] of the path succeeds with a result that [accept] accepts. *)
Definition Accepted (fs : FileSystem) (accept : Stats -> bool) (p : string) : Prop :=
  exists st, stat fs p = Ok st /\ accept st = true.

(** A project with [turbo.json] at its root and a UI package. *)
Definition monorepo : FileSystem :=
  mkFileSystem
    (fun p =>
       if String.eqb p "/proj/turbo.json" then Ok (mkStats false)
       else if String.eqb p "/proj/packages/ui/src/ui" then Ok (mkStats true)
       else if String.eqb p "/proj/packages/ui/components/ui" then Ok (mkStats false)
       else Throw (Example.enoent p))
    (fun p => Throw (Example.enoent p))
    (fun p => Throw (Example.enoent p))
    (fun _ => None).

(** [package.json] under [base] parses to a value whose [type] is the
    string [module]. *)
Definition PackageSaysModule (H : Host) (fs : FileSystem) (base : string) : Prop :=
  exists packageJson,
    readJson H fs (path_join H base "package.json") = Ok packageJson /\
    property packageJson "type" = Ok (Some (JString "module")).

(** A value on which [?.toLowerCase?.()] throws: an object that has
    something other than [null] under the key [toLowerCase]. *)
Definition BrokenToLowerCase (value : option Json) : Prop :=
  exists members x,
    value = Some (JObject members) /\
    member members "toLowerCase" = Some x /\ x <> JNull.

(** A string that is [nodenext] or [node16] once in lower case. *)
Definition NamesNodeResolution (value : option Json) : Prop :=
  exists s,
    value = Some (JString s) /\
    (Str.toLowerCase s = "nodenext" \/ Str.toLowerCase s = "node16").

(** [tsconfig.json] under [base] parses to a value with truthy
    [compilerOptions] in which [moduleResolution] names the resolution,
    or [module] does and the call on [moduleResolution], which comes
    first, does not throw. *)
Definition TsconfigAsks (H : Host) (fs : FileSystem) (base : string) : Prop :=
  exists tsconfig options moduleResolution module,
    readJson H fs (path_join H base "tsconfig.json") = Ok tsconfig /\
    property tsconfig "compilerOptions" = Ok (Some options) /\
    truthy (Some options) = true /\
    property options "moduleResolution" = Ok moduleResolution /\
    property options "module" = Ok module /\
    (NamesNodeResolution moduleResolution \/
     (~ BrokenToLowerCase moduleResolution /\ NamesNodeResolution module)).

(** The options of a call that only names the directory. *)
Definition directoryOptions (dir : string) : PartialConfig :=
  mkPartialConfig (Some dir) None None None None None None None None None None None.

(** An ES-module project: [package.json] declares [type: module], and
    [tsconfig.json] asks for [NodeNext] resolution. *)
Definition packageText : string :=
  "{ " +++ dq +++ "type" +++ dq +++ ": " +++ dq +++ "module" +++ dq +++ " }".

Definition tsconfigText : string :=
  "{ " +++ dq +++ "compilerOptions" +++ dq +++ ": { " +++ dq +++ "moduleResolution"
  +++ dq +++ ": " +++ dq +++ "NodeNext" +++ dq +++ " } }".

Definition esmHost : Host :=
  mkHost "/proj" Example.join Example.join
    (fun text =>
       if String.eqb text packageText
       then Ok (JObject [("type", JString "module")])
       else if String.eqb text tsconfigText
       then Ok (JObject [("compilerOptions",
                          JObject [("moduleResolution", JString "NodeNext")])])
       else Throw Example.syntaxError)
    Example.parse "0.01".

Definition esmProject : FileSystem :=
  mkFileSystem
    (fun p => Throw (Example.enoent p))
    (fun p => Throw (Example.enoent p))
    (fun p =>
       if String.eqb p "/proj/package.json" then Ok packageText
       else if String.eqb p "/proj/tsconfig.json" then Ok tsconfigText
       else Throw (Example.enoent p))
    (fun _ => None).

(** A [tsconfig.json] whose [moduleResolution] is an object with a
    number under [toLowerCase], beside [module: NodeNext]. *)
Definition brokenTsconfigText : string :=
  "{ " +++ dq +++ "compilerOptions" +++ dq +++ ": { " +++ dq +++ "moduleResolution"
  +++ dq +++ ": { " +++ dq +++ "toLowerCase" +++ dq +++ ": 1 }, " +++ dq +++ "module"
  +++ dq +++ ": " +++ dq +++ "NodeNext" +++ dq +++ " } }".

Definition brokenTsconfig : Json :=
  JObject [("compilerOptions",
            JObject [("moduleResolution", JObject [("toLowerCase", JNumber 1)]);
                     ("module", JString "NodeNext")])].

(** The same project when only [tsconfig.json] is there. *)
Definition tsconfigProject : FileSystem :=
  mkFileSystem
    (fun p => Throw (Example.enoent p))
    (fun p => Throw (Example.enoent p))
    (fun p =>
       if String.eqb p "/proj/tsconfig.json" then Ok tsconfigText
       else Throw (Example.enoent p))
    (fun _ => None).

Definition brokenHost : Host :=
  mkHost "/proj" Example.join Example.join
    (fun text =>
       if String.eqb text brokenTsconfigText then Ok brokenTsconfig
       else Throw Example.syntaxError)
    Example.parse "0.01".

Definition brokenProject : FileSystem :=
  mkFileSystem
    (fun p => Throw (Example.enoent p))
    (fun p => Throw (Example.enoent p))
    (fun p =>
       if String.eqb p "/proj/tsconfig.json" then Ok brokenTsconfigText
       else Throw (Example.enoent p))
    (fun _ => None).

(** ** The earlier [index.ts]

    The version of [generateIndex] without the extension policy and the
    monorepo search: the directory is the configured one, no extension is
    recorded, and every module specifier is the component name. *)
Module Legacy.

Record LoopState : Type := mkLoopState {
  componentExports : JsMap.t (list string);
  processedCount : nat;
  typesDetectedCount : nat
}.

Section Generate.
Variable H : Host.
Variable fullConfig : Config.

(** [updateProgress] *)
Definition updateProgress (total : nat) (s : LoopState)
  : LoopState * list Effect :=
  let s' := mkLoopState (componentExports s) (S (processedCount s))
              (typesDetectedCount s) in
  (s', if verbose fullConfig then [Progress (processedCount s') total] else []).

(** The body of [for (const file of componentFiles)]. *)
Definition processFile (fs : FileSystem) (componentsDir : string) (total : nat)
  (s : LoopState) (file : string) : LoopState * list Effect :=
  let filePath := path_join H componentsDir file in
  let componentName := basename file (extname file) in
  match readSource H fs filePath file with
  | Ok sourceFile =>
      let c := classify fullConfig file (extractExports sourceFile)
                 (typesDetectedCount s) in
      let allExports := allExportsOf c in
      let s2 := mkLoopState
                  (if (0 <? List.length allExports)%nat
                   then JsMap.set (componentExports s) componentName allExports
                   else componentExports s)
                  (processedCount s) (detected c) in
      let '(s3, t) := updateProgress total s2 in
      (s3, [FsReadFile filePath] ++ notices c ++ t)
  | Throw e =>
      let '(s3, t) := updateProgress total s in
      (s3, [FsReadFile filePath;
            ConsoleWarn ("Warning: Could not process file " +++ file +++ ":") e]
           ++ t)
  end.

Fixpoint processFiles (fs : FileSystem) (componentsDir : string) (total : nat)
  (s : LoopState) (files : list string) : LoopState * list Effect :=
  match files with
  | [] => (s, [])
  | file :: rest =>
      let '(s1, t1) := processFile fs componentsDir total s file in
      let '(s2, t2) := processFiles fs componentsDir total s1 rest in
      (s2, t1 ++ t2)
  end.

(** [Array.from(componentExports.keys())], sorted or not. *)
Definition componentNamesOf (s : LoopState) : list string :=
  let componentNames := JsMap.keys (componentExports s) in
  if sortAlphabetically fullConfig then sort componentNames else componentNames.

(** The text that one turn of the last loop appends to [indexContent]. *)
Definition statementOf (s : LoopState) (componentName : string) : string :=
  let exports := orDefault (JsMap.get (componentExports s) componentName) [] in
  if (Z.of_nat (List.length exports) <=? singleLineThreshold fullConfig)%Z
  then singleLine exports ("./" +++ componentName)
  else multiLine exports ("./" +++ componentName).

(** [indexContent] after the loop over [componentNames]. *)
Definition renderIndex (s : LoopState) : string :=
  fold_left
    (fun indexContent componentName => indexContent +++ statementOf s componentName)
    (componentNamesOf s) (headerComment fullConfig).

Definition emptyLoopState : LoopState := mkLoopState JsMap.empty 0 0.

(** From the listing to the end of the [try] block. *)
Definition generateFrom (fs : FileSystem) (componentsDir outputFilePath : string)
  (files : list string) : Completion * list Effect * FileSystem :=
  let componentFiles := componentFilesOf fullConfig files in
  let found :=
    [Log ("Found " +++ Str.ofNat (List.length componentFiles) +++ " component files")
       highlight] ++
    (if verbose fullConfig
     then [Log "Component files found:" info] ++
          map (fun file => ConsoleLog ("  " +++ bullet +++ " " +++ file)) componentFiles ++
          [ConsoleLog ""]
     else []) ++
    [Log "Processing component files..." info] in
  let '(s, loop) :=
    processFiles fs componentsDir (List.length componentFiles) emptyLoopState
      componentFiles in
  let processed :=
    (if verbose fullConfig then [StdoutWrite nl] else []) ++
    [Log ("Processed " +++ Str.ofNat (List.length componentFiles) +++ " files in "
          +++ processingTime H +++ "s") success;
     Log ("Detected " +++ Str.ofNat (typesDetectedCount s)
          +++ " type exports that need the 'type' keyword") highlight;
     Log "Generating index.ts content..." info] in
  let indexContent := renderIndex s in
  if dryRun fullConfig then
    (Completed,
     found ++ loop ++ processed ++
     [Log "Dry run - index.ts would contain:" highlight;
      ConsoleLog "---------------------------------------------------";
      ConsoleLog indexContent;
      ConsoleLog "---------------------------------------------------";
      Log "No files were modified (dry run mode)" info],
     fs)
  else
    match writeFile fs outputFilePath indexContent with
    | (Ok _, fs') =>
        (Completed,
         found ++ loop ++ processed ++
         [FsWriteFile outputFilePath indexContent;
          Log ("Generated " +++ outputFilePath +++ " ("
               +++ fileSizeKB (byteLength indexContent) +++ "KB" +++ ")") success;
          Log ("File contains " +++ Str.ofNat (JsMap.size (componentExports s))
               +++ " component exports") success],
         fs')
    | (Throw e, fs') =>
        (Threw e,
         found ++ loop ++ processed ++ [FsWriteFile outputFilePath indexContent],
         fs')
    end.

(** The [try] block. *)
Definition tryBlock (fs : FileSystem) (componentsDir outputFilePath : string)
  : Completion * list Effect * FileSystem :=
  match stat fs componentsDir with
  | Throw fsError =>
      if isString (code fsError) "ENOENT"
      then (Returned,
            [FsStat componentsDir;
             Log ("Directory not found: " +++ componentsDir) error;
             Log "Please check the path and try again" warning],
            fs)
      else (Threw fsError, [FsStat componentsDir], fs)
  | Ok _ =>
      let start :=
        [FsStat componentsDir] ++ banner ++
        [Log "Starting index generation for UI components" info;
         Log ("Scanning directory: " +++ componentsDir) info;
         FsReaddir componentsDir] in
      match readdir fs componentsDir with
      | Throw e => (Threw e, start, fs)
      | Ok files =>
          let '(c, t, fs') := generateFrom fs componentsDir outputFilePath files in
          (c, start ++ t, fs')
      end
  end.

(** [generateIndex] once the configuration is merged. *)
Definition run (p : Process) : Process :=
  let fs := fileSystem p in
  let resolved := path_resolve H (cwd H) (componentsDir fullConfig) in
  let outputFilePath := path_join H resolved (outputFile fullConfig) in
  match tryBlock fs resolved outputFilePath with
  | (Threw fsError, t, fs') =>
      mkProcess fs' (trace p ++ t ++ report fullConfig fsError ++ footer) (Some 1%Z)
  | (_, t, fs') =>
      mkProcess fs' (trace p ++ t ++ footer) (exitCode p)
  end.

End Generate.

Definition generateIndex (H : Host) (config : PartialConfig) (p : Process)
  : Process :=
  run H (mergeConfig defaultConfig config) p.

End Legacy.

(** The two versions have collected the same clauses and counted alike. *)
Definition SameLoop (s : LoopState) (l : Legacy.LoopState) : Prop :=
  componentExports s = Legacy.componentExports l /\
  processedCount s = Legacy.processedCount l /\
  typesDetectedCount s = Legacy.typesDetectedCount l.

(** The names that the probes try under the working directory. *)
Definition probedNames : list string := monorepoConfigs ++ monorepoDirs ++ commonPaths.

(** The file-system calls that a run may make: [stat] on the scanned
    directory and on the probed names, the listing of the scanned
    directory, reads of [package.json] and [tsconfig.json] of the working
    directory and of the component files, and a write to the output
    file. *)
Definition Footprint (H : Host) (dir output : string) (componentFiles : list string)
  (e : Effect) : Prop :=
  match e with
  | FsStat q =>
      q = dir \/ exists c, In c probedNames /\ q = path_join H (cwd H) c
  | FsReaddir q => q = dir
  | FsReadFile q =>
      q = path_join H (cwd H) "package.json" \/
      q = path_join H (cwd H) "tsconfig.json" \/
      exists file, In file componentFiles /\ q = path_join H dir file
  | FsWriteFile q _ => q = output
  | _ => True
  end.

(** The component files of the listing of a directory, none when the
    listing fails. *)
Definition listedComponentFiles (fullConfig : Config) (fs : FileSystem) (dir : string)
  : list string :=
  match readdir fs dir with
  | Ok files => componentFilesOf fullConfig files
  | Throw _ => []
  end.

(** Two configurations that differ at most in [verbose] and [dryRun]. *)
Definition SameButMode (c c' : Config) : Prop :=
  componentsDir c = componentsDir c' /\
  outputFile c = outputFile c' /\
  sortAlphabetically c = sortAlphabetically c' /\
  singleLineThreshold c = singleLineThreshold c' /\
  typePatterns c = typePatterns c' /\
  include c = include c' /\
  exclude c = exclude c' /\
  headerComment c = headerComment c' /\
  forceExplicitExtensions c = forceExplicitExtensions c' /\
  extensionOverride c = extensionOverride c'.

(** [--verbose --dry-run] *)
Definition previewOptions : PartialConfig :=
  mkPartialConfig None None None None None None None None (Some true) (Some true)
    None None.

(** The directory of the example after a run has written [index.ts]
    into it: the listing has the new entry. *)
Definition regenerated : FileSystem :=
  mkFileSystem
    (stat Example.components)
    (fun p => if String.eqb p Example.ui
              then Ok ["card.tsx"; "index.ts"; "button.tsx"]
              else Throw (Example.enoent p))
    (fun p => if String.eqb p "/proj/src/components/ui/index.ts"
              then Ok "export { Stale } from ./stale;"
              else readFile Example.components p)
    (fun _ => None).

(** ** What the patterns of [config.ts] match

    The strings that a pattern matches as a whole.  An iteration of a
    starred pattern consumes at least one character, as in the language. *)
Fixpoint Matches (i : bool) (r : Regex.re) (s : string) : Prop :=
  match r with
  | Regex.Never => False
  | Regex.Eps => s = ""
  | Regex.Lit c => exists x, s = String x "" /\ Regex.canon i c = Regex.canon i x
  | Regex.Word => exists x, s = String x "" /\ Regex.isWordChar x = true
  | Regex.Seq a b => exists s1 s2, s = s1 +++ s2 /\ Matches i a s1 /\ Matches i b s2
  | Regex.Alt a b => Matches i a s \/ Matches i b s
  | Regex.Star a =>
      exists pieces,
        s = String.concat "" pieces /\
        Forall (fun piece => piece <> "" /\ Matches i a piece) pieces
  end.

(** A string with every character canonicalized, as the [i] flag
    compares them. *)
Fixpoint canonicalize (i : bool) (s : string) : string :=
  match s with
  | EmptyString => EmptyString
  | String c s' => String (Regex.canon i c) (canonicalize i s')
  end.

(** [name] ends with [suffix], letter case apart. *)
Definition EndsWithIgnoringCase (name suffix : string) : Prop :=
  exists stem tail,
    name = stem +++ tail /\ canonicalize true tail = canonicalize true suffix.

(** Every character is a letter, a digit or the underscore. *)
Fixpoint isWord (s : string) : bool :=
  match s with
  | EmptyString => true
  | String c s' => Regex.isWordChar c && isWord s'
  end.

(** [name] is [use], letter case apart, followed by one or more word
    characters. *)
Definition IsUseName (name : string) : Prop :=
  exists head rest,
    name = head +++ rest /\ canonicalize true head = "USE" /\
    rest <> "" /\ isWord rest = true.

(** The endings of the default type patterns. *)
Definition typeSuffixes : list string :=
  ["Api"; "Props"; "Config"; "Context"; "Provider"; "Store"; "Ref"; "Options"].

(** The calls of the file system in a trace, in order. *)
Definition isCall (e : Effect) : bool :=
  match e with
  | FsStat _ | FsReaddir _ | FsReadFile _ | FsWriteFile _ _ => true
  | _ => false
  end.

Definition callsOf (t : list Effect) : list Effect := filter isCall t.

Definition NotCall (e : Effect) : Prop := isCall e = false.

(** The progress lines of a trace: the count shown and the total. *)
Definition progressOf (t : list Effect) : list (nat * nat) :=
  flat_map (fun e => match e with
                     | Progress processedCount total => [(processedCount, total)]
                     | _ => []
                     end) t.

(** The calls of the [try] block on a directory: [stat], then the
    listing, then one read for each component file in the order of the
    listing, then the write. *)
Definition expectedCalls (H : Host) (fullConfig : Config) (useExplicit : bool)
  (fs : FileSystem) (dir output : string) : list Effect :=
  FsStat dir ::
  match stat fs dir with
  | Throw _ => []
  | Ok _ =>
      FsReaddir dir ::
      match readdir fs dir with
      | Throw _ => []
      | Ok files =>
          map (fun file => FsReadFile (path_join H dir file))
            (componentFilesOf fullConfig files) ++
          (if dryRun fullConfig then []
           else [FsWriteFile output
                   (indexContentOf H fullConfig useExplicit fs dir files)])
      end
  end.

(** ** Patterns with a [lastIndex]

    [generateIndex] with the [lastIndex] of every pattern that has the [g]
    or the [y] flag carried through the calls of [test], in the order in
    which the program makes them: the filter over the listing first, then,
    file by file, the classification of the value exports.  Two patterns
    with one address are one object.  For patterns without these flags
    nothing is read or written, and the functions below are the ones
    above. *)
Module Stateful.

(** The [lastIndex] of the object at each address. *)
Definition Store : Type := nat -> nat.

Definition setLastIndex (lastIndex : Store) (address value : nat) : Store :=
  fun a => if Nat.eqb a address then value else lastIndex a.

(** [pattern.test(s)] *)
Definition test (pattern : RegExp) (s : string) (lastIndex : Store) : bool * Store :=
  match pattern with
  | mkRegExp answer => (answer s, lastIndex)
  | mkAdvancing address execFrom =>
      match execFrom s (lastIndex address) with
      | Some endIndex => (true, setLastIndex lastIndex address endIndex)
      | None => (false, setLastIndex lastIndex address 0)
      end
  end.

(** [patterns.some(pattern => pattern.test(s))]: the patterns after the
    first that matches are not tested. *)
Fixpoint some (patterns : list RegExp) (s : string) (lastIndex : Store)
  : bool * Store :=
  match patterns with
  | [] => (false, lastIndex)
  | pattern :: rest =>
      let '(matched, lastIndex1) := test pattern s lastIndex in
      if matched then (true, lastIndex1) else some rest s lastIndex1
  end.

Definition shouldBeType (name : string) (typePatterns : list RegExp)
  (lastIndex : Store) : bool * Store :=
  some typePatterns name lastIndex.

Section Generate.
Variable H : Host.
Variable fullConfig : Config.

(** One turn of [for (const name of exports)]. *)
Definition classifyStep (file : string) (state : Classified * Store) (name : string)
  : Classified * Store :=
  let '(c, lastIndex) := state in
  let '(isTypeName, lastIndex1) :=
    shouldBeType name (typePatterns fullConfig) lastIndex in
  if isTypeName
  then (mkClassified
          (finalExports c)
          (finalTypeExports c ++ [name])
          (S (detected c))
          (notices c ++
           if verbose fullConfig
           then [Log ("Marking " +++ dq +++ name +++ dq +++ " in " +++ file
                      +++ " as a type export") highlight]
           else []),
        lastIndex1)
  else (mkClassified (finalExports c ++ [name]) (finalTypeExports c)
          (detected c) (notices c),
        lastIndex1).

Definition classify (file : string) (ex : Exports) (count : nat) (lastIndex : Store)
  : Classified * Store :=
  fold_left (classifyStep file) (exports ex)
    (mkClassified [] (typeExports ex) count [], lastIndex).

(** The body of [for (const file of componentFiles)]. *)
Definition processFile (fs : FileSystem) (componentsDir : string) (total : nat)
  (s : LoopState) (lastIndex : Store) (file : string)
  : LoopState * list Effect * Store :=
  let filePath := path_join H componentsDir file in
  let componentName := basename file (extname file) in
  let s1 := mkLoopState (componentExports s)
              (JsMap.set (fileExtensions s) componentName (extname file))
              (processedCount s) (typesDetectedCount s) in
  match readSource H fs filePath file with
  | Ok sourceFile =>
      let '(c, lastIndex1) :=
        classify file (extractExports sourceFile) (typesDetectedCount s1) lastIndex in
      let allExports := allExportsOf c in
      let s2 := mkLoopState
                  (if (0 <? List.length allExports)%nat
                   then JsMap.set (componentExports s1) componentName allExports
                   else componentExports s1)
                  (fileExtensions s1) (processedCount s1) (detected c) in
      let '(s3, t) := updateProgress fullConfig total s2 in
      (s3, [FsReadFile filePath] ++ notices c ++ t, lastIndex1)
  | Throw e =>
      let '(s3, t) := updateProgress fullConfig total s1 in
      (s3,
       [FsReadFile filePath;
        ConsoleWarn ("Warning: Could not process file " +++ file +++ ":") e] ++ t,
       lastIndex)
  end.

Fixpoint processFiles (fs : FileSystem) (componentsDir : string) (total : nat)
  (s : LoopState) (lastIndex : Store) (files : list string)
  : LoopState * list Effect * Store :=
  match files with
  | [] => (s, [], lastIndex)
  | file :: rest =>
      let '(s1, t1, lastIndex1) :=
        processFile fs componentsDir total s lastIndex file in
      let '(s2, t2, lastIndex2) :=
        processFiles fs componentsDir total s1 lastIndex1 rest in
      (s2, t1 ++ t2, lastIndex2)
  end.

(** The callback of [files.filter]: the exclude patterns are tested when
    the include pattern matches. *)
Definition isComponentFile (file : string) (lastIndex : Store) : bool * Store :=
  let '(included, lastIndex1) := test (include fullConfig) file lastIndex in
  if included
  then let '(excluded, lastIndex2) := some (exclude fullConfig) file lastIndex1 in
       (negb excluded, lastIndex2)
  else (false, lastIndex1).

(** [files.filter(...)] *)
Fixpoint componentFilesOf (files : list string) (lastIndex : Store)
  : list string * Store :=
  match files with
  | [] => ([], lastIndex)
  | file :: rest =>
      let '(keep, lastIndex1) := isComponentFile file lastIndex in
      let '(kept, lastIndex2) := componentFilesOf rest lastIndex1 in
      (if keep then file :: kept else kept, lastIndex2)
  end.

(** From the listing to the end of the [try] block. *)
Definition generateFrom (useExplicitExtensions : bool) (fs : FileSystem)
  (componentsDir outputFilePath : string) (files : list string) (lastIndex : Store)
  : Completion * list Effect * FileSystem * Store :=
  let '(componentFiles, lastIndex1) := componentFilesOf files lastIndex in
  let found :=
    [Log ("Found " +++ Str.ofNat (List.length componentFiles) +++ " component files")
       highlight] ++
    (if verbose fullConfig
     then [Log "Component files found:" info] ++
          map (fun file => ConsoleLog ("  " +++ bullet +++ " " +++ file)) componentFiles ++
          [ConsoleLog ""]
     else []) ++
    [Log "Processing component files..." info] in
  let '(s, loop, lastIndex2) :=
    processFiles fs componentsDir (List.length componentFiles) emptyLoopState
      lastIndex1 componentFiles in
  let processed :=
    (if verbose fullConfig then [StdoutWrite nl] else []) ++
    [Log ("Processed " +++ Str.ofNat (List.length componentFiles) +++ " files in "
          +++ processingTime H +++ "s") success;
     Log ("Detected " +++ Str.ofNat (typesDetectedCount s)
          +++ " type exports that need the 'type' keyword") highlight;
     Log "Generating index.ts content..." info] in
  let indexContent := renderIndex fullConfig useExplicitExtensions s in
  if dryRun fullConfig then
    (Completed,
     found ++ loop ++ processed ++
     [Log "Dry run - index.ts would contain:" highlight;
      ConsoleLog "---------------------------------------------------";
      ConsoleLog indexContent;
      ConsoleLog "---------------------------------------------------";
      Log "No files were modified (dry run mode)" info],
     fs, lastIndex2)
  else
    match writeFile fs outputFilePath indexContent with
    | (Ok _, fs') =>
        (Completed,
         found ++ loop ++ processed ++
         [FsWriteFile outputFilePath indexContent;
          Log ("Generated " +++ outputFilePath +++ " ("
               +++ fileSizeKB (byteLength indexContent) +++ "KB" +++ ")") success;
          Log ("File contains " +++ Str.ofNat (JsMap.size (componentExports s))
               +++ " component exports") success],
         fs', lastIndex2)
    | (Throw e, fs') =>
        (Threw e,
         found ++ loop ++ processed ++ [FsWriteFile outputFilePath indexContent],
         fs', lastIndex2)
    end.

(** The text generated from a listing. *)
Definition indexContentOf (useExplicitExtensions : bool) (fs : FileSystem)
  (componentsDir : string) (files : list string) (lastIndex : Store) : string :=
  let '(componentFiles, lastIndex1) := componentFilesOf files lastIndex in
  let '(s, _, _) :=
    processFiles fs componentsDir (List.length componentFiles) emptyLoopState
      lastIndex1 componentFiles in
  renderIndex fullConfig useExplicitExtensions s.

(** The [try] block. *)
Definition tryBlock (useExplicitExtensions : bool) (fs : FileSystem)
  (componentsDir outputFilePath : string) (lastIndex : Store)
  : Completion * list Effect * FileSystem * Store :=
  match stat fs componentsDir with
  | Throw fsError =>
      if isString (code fsError) "ENOENT"
      then (Returned,
            [FsStat componentsDir;
             Log ("Directory not found: " +++ componentsDir) error;
             Log "Please check the path and try again" warning],
            fs, lastIndex)
      else (Threw fsError, [FsStat componentsDir], fs, lastIndex)
  | Ok _ =>
      let start :=
        [FsStat componentsDir] ++ banner ++
        [Log "Starting index generation for UI components" info;
         Log ("Scanning directory: " +++ componentsDir) info;
         FsReaddir componentsDir] in
      match readdir fs componentsDir with
      | Throw e => (Threw e, start, fs, lastIndex)
      | Ok files =>
          let '(c, t, fs', lastIndex1) :=
            generateFrom useExplicitExtensions fs componentsDir outputFilePath files
              lastIndex in
          (c, start ++ t, fs', lastIndex1)
      end
  end.

(** [generateIndex] once the configuration is merged. *)
Definition run (p : Process) (lastIndex : Store) : Process * Store :=
  let fs := fileSystem p in
  let s := setup H fullConfig fs in
  match tryBlock (useExplicitExtensions s) fs (scannedDir s) (outputFilePath s)
          lastIndex with
  | (Threw fsError, t, fs', lastIndex1) =>
      (mkProcess fs' (trace p ++ setupTrace s ++ t ++ report fullConfig fsError ++ footer)
         (Some 1%Z),
       lastIndex1)
  | (_, t, fs', lastIndex1) =>
      (mkProcess fs' (trace p ++ setupTrace s ++ t ++ footer) (exitCode p), lastIndex1)
  end.

End Generate.

Definition generateIndex (H : Host) (config : PartialConfig) (p : Process)
  (lastIndex : Store) : Process * Store :=
  run H (mergeConfig defaultConfig config) p lastIndex.

End Stateful.

(** A pattern without the [g] and [y] flags. *)
Definition plain (pattern : RegExp) : bool :=
  match pattern with
  | mkRegExp _ => true
  | mkAdvancing _ _ => false
  end.

(** No type pattern has one of the two flags. *)
Definition PlainTypePatterns (fullConfig : Config) : Prop :=
  forallb plain (typePatterns fullConfig) = true.

(** Neither the include pattern nor an exclude pattern has one. *)
Definition PlainFilter (fullConfig : Config) : Prop :=
  plain (include fullConfig) = true /\ forallb plain (exclude fullConfig) = true.

(** [/<r>$/g], and [/<r>$/gi] with [i], for a pattern [r] of literals and
    [\w]: from [lastIndex] the search goes over the rest of the string,
    and a match ends where the string ends. *)
Definition globalSuffix (address : nat) (i : bool) (r : Regex.re) : RegExp :=
  mkAdvancing address
    (fun s lastIndex =>
       if (lastIndex <=? String.length s)%nat
          && Regex.search i true r (Str.sliceFrom lastIndex s)
       then Some (String.length s)
       else None).

(** [props.ts], with three constants whose names end in [Props]. *)
Definition propsSource : string :=
  "export const AProps = 1; export const BProps = 2; export const CProps = 3;".

Definition propsTree : Node :=
  mkNode OtherNode
    [Example.leaf (VariableStatement Example.exported [Identifier "AProps"]);
     Example.leaf (VariableStatement Example.exported [Identifier "BProps"]);
     Example.leaf (VariableStatement Example.exported [Identifier "CProps"])].

Definition propsHost : Host :=
  mkHost "/proj" Example.join Example.join (fun _ => Throw Example.syntaxError)
    (fun file text =>
       if String.eqb text propsSource then Ok propsTree else Example.parse file text)
    "0.01".

Definition propsFolder : FileSystem :=
  Example.folder Example.ui [("props.ts", Ok propsSource)].

(** [typePatterns: [/Props$/g]] and [typePatterns: [/Props$/]] *)
Definition globalPropsOptions : PartialConfig :=
  mkPartialConfig None None None None
    (Some [globalSuffix 0 false (Regex.lits "Props")])
    None None None None None None None.

Definition plainPropsOptions : PartialConfig :=
  mkPartialConfig None None None None
    (Some [Regex.suffix false (Regex.lits "Props")])
    None None None None None None None.

(** A fresh pattern: every [lastIndex] is 0. *)
Definition freshPatterns : Stateful.Store := fun _ => 0.
(** * Properties *)

(** ** Strings *)

Lemma append_assoc (a b c : string) : (a +++ b) +++ c = a +++ b +++ c.
Proof. induction a as [|x a IH]; simpl; [reflexivity | now rewrite IH]. Qed.

Lemma append_empty_r (a : string) : a +++ "" = a.
Proof. induction a as [|x a IH]; simpl; [reflexivity | now rewrite IH]. Qed.

(** Two chains of [+++] that differ in their brackets only. *)
Ltac append_normal :=
  repeat first [rewrite append_assoc | rewrite append_empty_r | progress simpl];
  reflexivity.

(** ** Map *)

Module JsMapFacts.
Import JsMap.

Section Facts.
Context {V : Type}.
Implicit Types (m : JsMap.t V) (k : string) (v : V).

Lemma get_set_same m k v : get (set m k v) k = Some v.
Proof.
  induction m as [|[k' v'] m IH]; simpl.
  - now rewrite String.eqb_refl.
  - destruct (String.eqb k' k) eqn:E; simpl; rewrite E; auto.
Qed.

Lemma get_set_other m k k' v : k <> k' -> get (set m k v) k' = get m k'.
Proof.
  intros Hne. induction m as [|[k0 v0] m IH]; simpl.
  - destruct (String.eqb k k') eqn:E; auto.
    apply String.eqb_eq in E. contradiction.
  - destruct (String.eqb k0 k) eqn:E; simpl.
    + apply String.eqb_eq in E. subst k0.
      destruct (String.eqb k k') eqn:E'; auto.
      apply String.eqb_eq in E'. contradiction.
    + now rewrite IH.
Qed.

Lemma get_In_keys m k : In k (keys m) <-> exists v, get m k = Some v.
Proof.
  induction m as [|[k0 v0] m IH]; simpl.
  - split; [tauto | intros [v Hv]; discriminate].
  - destruct (String.eqb k0 k) eqn:E.
    + apply String.eqb_eq in E. split; eauto.
    + apply String.eqb_neq in E. rewrite <- IH. tauto.
Qed.

Lemma keys_set_present m k v : In k (keys m) -> keys (set m k v) = keys m.
Proof.
  induction m as [|[k0 v0] m IH]; simpl; [tauto|].
  intros Hin. destruct (String.eqb k0 k) eqn:E; simpl; [reflexivity|].
  apply String.eqb_neq in E. f_equal. apply IH. tauto.
Qed.

Lemma keys_set_absent m k v : ~ In k (keys m) -> keys (set m k v) = keys m ++ [k].
Proof.
  induction m as [|[k0 v0] m IH]; simpl; [reflexivity|].
  intros Hnin. destruct (String.eqb k0 k) eqn:E; simpl.
  - apply String.eqb_eq in E. tauto.
  - f_equal. apply IH. tauto.
Qed.

Lemma NoDup_keys_set m k v : NoDup (keys m) -> NoDup (keys (set m k v)).
Proof.
  intros Hnd. destruct (in_dec string_dec k (keys m)) as [Hin|Hnin].
  - now rewrite keys_set_present.
  - rewrite keys_set_absent by assumption.
    apply NoDup_app; auto using NoDup_nil.
    + constructor; [tauto | constructor].
    + intros x Hx Hk. destruct Hk as [Hk | Hk]; [subst x; contradiction | destruct Hk].
Qed.

End Facts.
End JsMapFacts.

(** ** Sorting *)


Lemma ascii_compare_trans a b c :
  Ascii.compare a b = Lt -> Ascii.compare b c = Lt -> Ascii.compare a c = Lt.
Proof.
  unfold Ascii.compare. rewrite !N.compare_lt_iff. apply N.lt_trans.
Qed.

Lemma compare_trans a : forall b c,
  String.compare a b = Lt -> String.compare b c = Lt -> String.compare a c = Lt.
Proof.
  induction a as [|x a IH]; intros [|y b] [|z c]; simpl; try discriminate; auto.
  destruct (Ascii.compare x y) eqn:Exy; try discriminate.
  - apply Ascii.compare_eq_iff in Exy. subst y.
    destruct (Ascii.compare x z) eqn:Exz; auto. apply IH.
  - intros _. destruct (Ascii.compare y z) eqn:Eyz; try discriminate.
    + apply Ascii.compare_eq_iff in Eyz. subst z. now rewrite Exy.
    + intros _. now rewrite (ascii_compare_trans _ _ _ Exy Eyz).
Qed.

Lemma compare_refl a : String.compare a a = Eq.
Proof.
  induction a as [|x a IH]; simpl; auto.
  unfold Ascii.compare. now rewrite N.compare_refl.
Qed.

Lemma lt_trans a b c : lt a b -> lt b c -> lt a c.
Proof.
  unfold lt, String.ltb.
  destruct (String.compare a b) eqn:E1; try discriminate.
  destruct (String.compare b c) eqn:E2; try discriminate.
  now rewrite (compare_trans _ _ _ E1 E2).
Qed.

Lemma le_lt_or_eq a b : le a b <-> lt a b \/ a = b.
Proof.
  unfold le, lt, String.leb, String.ltb.
  destruct (String.compare a b) eqn:E.
  - apply String.compare_eq_iff in E. intuition discriminate.
  - intuition.
  - split; [discriminate|]. intros [? | ->]; [discriminate|].
    rewrite compare_refl in E. discriminate.
Qed.

Lemma le_trans a b c : le a b -> le b c -> le a c.
Proof.
  rewrite !le_lt_or_eq. intros [H1| ->] [H2| ->]; eauto using lt_trans.
Qed.

Lemma le_total a b : le a b \/ le b a.
Proof. apply String.leb_total. Qed.

Lemma insert_perm x l : Permutation (x :: l) (insert x l).
Proof.
  induction l as [|y l IH]; simpl; auto.
  destruct (String.leb x y); auto.
  rewrite perm_swap. now constructor.
Qed.

Lemma sort_perm l : Permutation l (sort l).
Proof.
  induction l as [|x l IH]; simpl; auto.
  rewrite <- insert_perm. now constructor.
Qed.

Lemma insert_sorted x l :
  StronglySorted le l -> StronglySorted le (insert x l).
Proof.
  induction 1 as [|y l Hs IH Hall]; simpl.
  - repeat constructor.
  - destruct (String.leb x y) eqn:E.
    + constructor; [now constructor|].
      constructor; [exact E|].
      eapply Forall_impl; [|exact Hall]. intros z. now apply le_trans.
    + constructor; [exact IH|].
      assert (le y x) as Hyx by (destruct (le_total x y) as [H'|H']; [unfold le in H'; congruence | exact H']).
      rewrite <- (insert_perm x l). now constructor.
Qed.

Lemma sort_sorted l : StronglySorted le (sort l).
Proof.
  induction l as [|x l IH]; simpl; [constructor | now apply insert_sorted].
Qed.

(** Sorting names that are pairwise distinct puts them in strictly
    increasing order. *)
Lemma sort_strict l : NoDup l -> StronglySorted lt (sort l).
Proof.
  intros Hnd.
  assert (NoDup (sort l)) as Hnd' by (eapply Permutation_NoDup; [apply sort_perm | exact Hnd]).
  pose proof (sort_sorted l) as Hs. clear Hnd.
  induction Hs as [|x l' Hs IH Hall]; constructor.
  - apply IH. now inversion Hnd'.
  - inversion Hnd' as [|? ? Hnin _]; subst.
    rewrite Forall_forall in *. intros y Hy.
    destruct (proj1 (le_lt_or_eq x y) (Hall y Hy)) as [? | ->]; [assumption | contradiction].
Qed.

(** ** The extractor *)



Lemma appendExports_nil_r a : appendExports a noExports = a.
Proof. destruct a. unfold appendExports. simpl. now rewrite !app_nil_r. Qed.

Lemma appendExports_assoc a b c :
  appendExports (appendExports a b) c = appendExports a (appendExports b c).
Proof. unfold appendExports. simpl. now rewrite !app_assoc. Qed.

(** A loop of pushes only appends to what was collected before. *)
Lemma fold_appends {A : Type} (f : Exports -> A -> Exports) :
  (forall acc x, f acc x = appendExports acc (f noExports x)) ->
  forall l acc, fold_left f l acc = appendExports acc (fold_left f l noExports).
Proof.
  intros Hf l. induction l as [|x l IH]; intros acc; simpl.
  - now rewrite appendExports_nil_r.
  - rewrite IH. rewrite (IH (f noExports x)). rewrite (Hf acc x).
    now rewrite appendExports_assoc.
Qed.

Lemma pushSpecifier_appends acc e :
  pushSpecifier acc e = appendExports acc (pushSpecifier noExports e).
Proof.
  unfold pushSpecifier, pushExport, pushTypeExport, appendExports.
  destruct (isTypeOnly e); simpl; now rewrite ?app_nil_r.
Qed.

Lemma pushDeclaration_appends acc d :
  pushDeclaration acc d = appendExports acc (pushDeclaration noExports d).
Proof.
  destruct d; simpl; [|now rewrite appendExports_nil_r].
  unfold pushExport, appendExports. simpl. now rewrite app_nil_r.
Qed.

Lemma visitOwn_appends k acc :
  visitOwn k acc = appendExports acc (visitOwn k noExports).
Proof.
  assert (forall x, pushExport x acc = appendExports acc (pushExport x noExports)) as Hv
    by (intros; unfold pushExport, appendExports; simpl; now rewrite app_nil_r).
  assert (forall x, pushTypeExport x acc = appendExports acc (pushTypeExport x noExports)) as Ht
    by (intros; unfold pushTypeExport, appendExports; simpl; now rewrite app_nil_r).
  destruct k as [[[els|]|]|ms ds|ms [x|]|ms [x|]|ms [x|]|[|] [x| | |]|]; simpl;
    try destruct (hasExportModifier ms);
    rewrite ?appendExports_nil_r; auto.
  - apply fold_appends, pushSpecifier_appends.
  - apply fold_appends, pushDeclaration_appends.
Qed.

Lemma visit_appends n : forall acc,
  visit n acc = appendExports acc (extractExports n).
Proof.
  induction n as [k cs IH] using Node_ind. intros acc.
  unfold extractExports. simpl.
  assert (forall a, fold_left (fun a c => visit c a) cs a
                    = appendExports a (fold_left (fun a c => visit c a) cs noExports)) as Hfold.
  { clear acc. induction IH as [|c cs Hc _ IHcs]; intros a; simpl.
    - now rewrite appendExports_nil_r.
    - rewrite IHcs. rewrite (IHcs (visit c noExports)). rewrite (Hc a).
      now rewrite appendExports_assoc. }
  fold noExports.
  rewrite Hfold. rewrite (Hfold (visitOwn k noExports)).
  rewrite (visitOwn_appends k acc). now rewrite appendExports_assoc.
Qed.

(** The exports of a tree: those of the node, then those of each child. *)
Lemma extractExports_node k cs :
  extractExports (mkNode k cs)
  = appendExports (visitOwn k noExports)
      (fold_right (fun c r => appendExports (extractExports c) r) noExports cs).
Proof.
  unfold extractExports at 1. simpl. fold noExports.
  generalize (visitOwn k noExports) as acc.
  induction cs as [|c cs IH]; intros acc; simpl.
  - now rewrite appendExports_nil_r.
  - rewrite IH. rewrite visit_appends. now rewrite appendExports_assoc.
Qed.

(** Whatever a node of the tree records is in the result. *)
Lemma extractExports_inside m n :
  Inside m n ->
  incl (exports (visitOwn (kind m) noExports)) (exports (extractExports n)) /\
  incl (typeExports (visitOwn (kind m) noExports)) (typeExports (extractExports n)).
Proof.
  induction 1 as [|k cs c Hin _ [IHv IHt]].
  - destruct m as [k cs]. rewrite extractExports_node. simpl.
    split; apply incl_appl, incl_refl.
  - rewrite extractExports_node. simpl.
    assert (incl (exports (extractExports c))
              (exports (fold_right (fun c r => appendExports (extractExports c) r) noExports cs)) /\
            incl (typeExports (extractExports c))
              (typeExports (fold_right (fun c r => appendExports (extractExports c) r) noExports cs)))
      as [Hv Ht].
    { clear IHv IHt. induction cs as [|c' cs IH]; [destruct Hin|].
      simpl. destruct Hin as [->|Hin].
      - split; apply incl_appl, incl_refl.
      - destruct (IH Hin). split; now apply incl_appr. }
    split; apply incl_appr; eapply incl_tran; eassumption.
Qed.

Lemma fold_pushDeclaration_In text ds :
  In (Identifier text) ds ->
  In text (exports (fold_left pushDeclaration ds noExports)).
Proof.
  induction ds as [|d ds IH]; simpl; [tauto|].
  rewrite (fold_appends _ pushDeclaration_appends). simpl.
  intros [->|Hin]; apply in_or_app; [left | right; auto].
  simpl. auto.
Qed.




Lemma extract_const sourceFile Foo :
  ExportsConst sourceFile Foo -> In Foo (exports (extractExports sourceFile)).
Proof.
  intros (ms & ds & cs & Hm & Hd & Hin). apply extractExports_inside in Hin as [Hv _].
  apply Hv. simpl. rewrite Hm. now apply fold_pushDeclaration_In.
Qed.

(** ** Reclassification *)

Section Classify.
Variable fullConfig : Config.

Lemma classify_fold file names : forall c,
  let r := fold_left (classifyStep fullConfig file) names c in
  finalExports r = finalExports c ++ filter (fun n => negb (isType fullConfig n)) names /\
  finalTypeExports r = finalTypeExports c ++ filter (isType fullConfig) names /\
  detected r = detected c + List.length (filter (isType fullConfig) names).
Proof.
  induction names as [|n names IH]; intros c; simpl.
  - now rewrite !app_nil_r, Nat.add_0_r.
  - destruct (IH (classifyStep fullConfig file c n)) as (Hv & Ht & Hd).
    rewrite Hv, Ht, Hd. unfold classifyStep, isType.
    destruct (shouldBeType n (typePatterns fullConfig)); simpl;
      rewrite <- ?app_assoc; simpl; repeat split; auto; lia.
Qed.

Lemma classify_spec file ex count :
  let c := classify fullConfig file ex count in
  finalExports c = filter (fun n => negb (isType fullConfig n)) (exports ex) /\
  finalTypeExports c = typeExports ex ++ filter (isType fullConfig) (exports ex) /\
  detected c = count + List.length (filter (isType fullConfig) (exports ex)).
Proof. apply (classify_fold file (exports ex) (mkClassified [] (typeExports ex) count [])). Qed.

(** The export clause does not depend on the counter or on the file name. *)
Lemma allExportsOf_classify file ex count :
  allExportsOf (classify fullConfig file ex count)
  = filter (fun n => negb (isType fullConfig n)) (exports ex)
    ++ map (fun name => "type " +++ name) (typeExports ex ++ filter (isType fullConfig) (exports ex)).
Proof.
  unfold allExportsOf. destruct (classify_spec file ex count) as (-> & -> & _).
  reflexivity.
Qed.

End Classify.

(** ** One file of the loop *)

Section ProcessFile.
Variable H : Host.
Variable fullConfig : Config.
Variable fs : FileSystem.
Variable componentsDir : string.
Variable total : nat.

(** A file that is read and parsed, with a clause that is not empty. *)
Lemma processFile_ok s file sourceFile :
  readSource H fs (path_join H componentsDir file) file = Ok sourceFile ->
  let c := classify fullConfig file (extractExports sourceFile) (typesDetectedCount s) in
  allExportsOf c <> [] ->
  let s' := fst (processFile H fullConfig fs componentsDir total s file) in
  componentExports s'
  = JsMap.set (componentExports s) (basename file (extname file)) (allExportsOf c) /\
  fileExtensions s'
  = JsMap.set (fileExtensions s) (basename file (extname file)) (extname file) /\
  processedCount s' = S (processedCount s) /\
  typesDetectedCount s' = detected c.
Proof.
  intros Hread c Hne. unfold processFile. rewrite Hread. simpl. fold c.
  destruct (allExportsOf c) eqn:E; [contradiction|]. simpl. repeat split; reflexivity.
Qed.

(** A file that is read and parsed but exports nothing. *)
Lemma processFile_empty s file sourceFile :
  readSource H fs (path_join H componentsDir file) file = Ok sourceFile ->
  let c := classify fullConfig file (extractExports sourceFile) (typesDetectedCount s) in
  allExportsOf c = [] ->
  let s' := fst (processFile H fullConfig fs componentsDir total s file) in
  componentExports s' = componentExports s /\
  fileExtensions s'
  = JsMap.set (fileExtensions s) (basename file (extname file)) (extname file) /\
  processedCount s' = S (processedCount s) /\
  typesDetectedCount s' = detected c.
Proof.
  intros Hread c Hnil. unfold processFile. rewrite Hread. simpl. fold c.
  rewrite Hnil. simpl. repeat split; reflexivity.
Qed.

(** A file whose reading or parsing throws. *)
Lemma processFile_throw s file e :
  readSource H fs (path_join H componentsDir file) file = Throw e ->
  let r := processFile H fullConfig fs componentsDir total s file in
  componentExports (fst r) = componentExports s /\
  fileExtensions (fst r)
  = JsMap.set (fileExtensions s) (basename file (extname file)) (extname file) /\
  processedCount (fst r) = S (processedCount s) /\
  typesDetectedCount (fst r) = typesDetectedCount s /\
  In (ConsoleWarn ("Warning: Could not process file " +++ file +++ ":") e) (snd r).
Proof.
  intros Hread. unfold processFile. rewrite Hread. simpl. intuition.
Qed.

End ProcessFile.



(** When every type pattern answers as with [lastIndex] 0, a file that
    is read and parsed and contains [export const Foo = ...] gets an export
    clause in which [Foo] is a plain specifier when no type pattern matches
    it, and in which [type Foo] is a specifier when one does; in that case
    the declaration adds exactly one to the count of reclassified exports,
    next to one for every other value export of the file that matches. *)
Theorem const_is_value_unless_type_pattern
  (H : Host) (fullConfig : Config) (fs : FileSystem)
  (componentsDir : string) (total : nat) (s : LoopState)
  (file : string) (sourceFile : Node) (Foo : string) :
  readSource H fs (path_join H componentsDir file) file = Ok sourceFile ->
  ExportsConst sourceFile Foo ->
  let s' := fst (processFile H fullConfig fs componentsDir total s file) in
  exists clause,
    JsMap.get (componentExports s') (basename file (extname file)) = Some clause /\
    (shouldBeType Foo (typePatterns fullConfig) = false -> In Foo clause) /\
    (shouldBeType Foo (typePatterns fullConfig) = true ->
       In ("type " +++ Foo) clause /\
       exists before after,
         exports (extractExports sourceFile) = before ++ Foo :: after /\
         typesDetectedCount s'
         = typesDetectedCount s
           + List.length (filter (isType fullConfig) before)
           + 1
           + List.length (filter (isType fullConfig) after)).
Proof.
  intros Hread Hdecl s'.
  assert (In Foo (exports (extractExports sourceFile))) as Hin by now apply extract_const.
  set (c := classify fullConfig file (extractExports sourceFile) (typesDetectedCount s)).
  assert (In Foo (allExportsOf c) \/ In ("type " +++ Foo) (allExportsOf c)) as Hsome.
  { unfold c. rewrite allExportsOf_classify.
    destruct (isType fullConfig Foo) eqn:E; [right | left]; apply in_or_app.
    - right. apply in_map with (f := fun name => "type " +++ name).
      apply in_or_app. right. apply filter_In. auto.
    - left. apply filter_In. now rewrite E. }
  assert (allExportsOf c <> []) as Hne
    by (intros E; rewrite E in Hsome; destruct Hsome as [[]|[]]).
  destruct (processFile_ok H fullConfig fs componentsDir total s file sourceFile Hread Hne)
    as (Hce & _ & _ & Hcount).
  exists (allExportsOf c). fold s' in Hce, Hcount. split; [|split].
  - rewrite Hce. apply JsMapFacts.get_set_same.
  - intros Hno. unfold c. rewrite allExportsOf_classify. apply in_or_app. left.
    apply filter_In. unfold isType. now rewrite Hno.
  - intros Hyes. split.
    + unfold c. rewrite allExportsOf_classify. apply in_or_app. right.
      apply in_map with (f := fun name => "type " +++ name).
      apply in_or_app. right. apply filter_In. auto.
    + destruct (in_split _ _ Hin) as (before & after & Hsplit).
      exists before, after. split; [exact Hsplit|].
      rewrite Hcount. fold c.
      destruct (classify_spec fullConfig file (extractExports sourceFile)
                  (typesDetectedCount s)) as (_ & _ & Hd).
      fold c in Hd. rewrite Hd, Hsplit, filter_app, length_app. simpl.
      unfold isType at 2. rewrite Hyes. simpl. lia.
Qed.

Lemma const_is_value_unless_type_pattern_witness :
  let variants := Example.folder Example.ui [("variants.ts", Ok Example.variantsSource)] in
  let cards := Example.folder Example.ui [("card.tsx", Ok Example.cardSource)] in
  let s := fst (processFile Example.host defaultConfig variants Example.ui 1
                  emptyLoopState "variants.ts") in
  let s' := fst (processFile Example.host defaultConfig cards Example.ui 1
                   emptyLoopState "card.tsx") in
  (exists clause,
     JsMap.get (componentExports s) "variants" = Some clause /\
     In "type buttonConfig" clause /\
     exists before after,
       exports (extractExports Example.variantsTree) = before ++ "buttonConfig" :: after /\
       typesDetectedCount s
       = 0 + List.length (filter (isType defaultConfig) before) + 1
         + List.length (filter (isType defaultConfig) after)) /\
  (exists clause,
     JsMap.get (componentExports s') "card" = Some clause /\ In "Card" clause).
Proof.
  intros variants cards s s'. split.
  - destruct (const_is_value_unless_type_pattern Example.host defaultConfig variants
                Example.ui 1 emptyLoopState "variants.ts" Example.variantsTree
                "buttonConfig" eq_refl) as (clause & Hget & _ & Hyes).
    + exists Example.exported, [Identifier "buttonConfig"], [].
      split; [reflexivity|]. split; [simpl; auto|].
      eapply Inside_child; [|apply Inside_here]. simpl. auto.
    + exists clause. split; [exact Hget|]. exact (Hyes eq_refl).
  - destruct (const_is_value_unless_type_pattern Example.host defaultConfig cards
                Example.ui 1 emptyLoopState "card.tsx" Example.cardTree
                "Card" eq_refl) as (clause & Hget & Hno & _).
    + exists Example.exported, [Identifier "Card"], [].
      split; [reflexivity|]. split; [simpl; auto|].
      eapply Inside_child; [|apply Inside_here]. simpl. auto.
    + exists clause. split; [exact Hget|]. exact (Hno eq_refl).
Defined.

(** ** Lines of the statements *)

Lemma NoNewline_app a b : NoNewline a -> NoNewline b -> NoNewline (a +++ b).
Proof.
  unfold NoNewline. induction a as [|x a IH]; simpl; auto.
  intros Ha Hb. apply orb_false_iff in Ha as [Hx Ha].
  rewrite Hx. simpl. auto.
Qed.

Lemma NoNewline_concat sep l :
  NoNewline sep -> (forall e, In e l -> NoNewline e) -> NoNewline (String.concat sep l).
Proof.
  intros Hsep. induction l as [|e l IH]; intros Hl; [reflexivity|].
  simpl. destruct l as [|e' l].
  - apply Hl. simpl. auto.
  - apply NoNewline_app; [apply Hl; simpl; auto|].
    apply NoNewline_app; [exact Hsep|]. apply IH. intros x Hx. apply Hl. simpl. auto.
Qed.

(** A text without newline, then a newline: one line, and the lines of
    the rest. *)
Lemma lines_break a rest :
  NoNewline a -> Str.lines (a +++ String "010" rest) = a :: Str.lines rest.
Proof.
  unfold NoNewline. induction a as [|x a IH]; simpl; [reflexivity|].
  intros Ha. apply orb_false_iff in Ha as [Hx Ha].
  rewrite Hx. now rewrite IH.
Qed.

Lemma lines_line a rest :
  NoNewline a -> Str.lines (a +++ nl +++ rest) = a :: Str.lines rest.
Proof. apply lines_break. Qed.

Lemma lines_nameLines exports rest :
  (forall e, In e exports -> NoNewline e) ->
  Str.lines ("  " +++ String.concat ("," +++ nl +++ "  ") exports +++ nl +++ rest)
  = nameLines exports ++ Str.lines rest.
Proof.
  induction exports as [|e exports IH]; intros Hall.
  - apply (lines_line "  " rest). reflexivity.
  - destruct exports as [|e' exports].
    + change (String.concat ("," +++ nl +++ "  ") [e]) with e.
      rewrite <- append_assoc. rewrite lines_line; [reflexivity|].
      apply NoNewline_app; [reflexivity | apply Hall; simpl; auto].
    + change (String.concat ("," +++ nl +++ "  ") (e :: e' :: exports))
        with (e +++ ("," +++ nl +++ "  ") +++ String.concat ("," +++ nl +++ "  ") (e' :: exports)).
      change (nameLines (e :: e' :: exports))
        with (("  " +++ e +++ ",") :: nameLines (e' :: exports)).
      rewrite <- app_comm_cons.
      rewrite <- IH by (intros x Hx; apply Hall; simpl; simpl in Hx; tauto).
      replace ("  " +++ (e +++ ("," +++ nl +++ "  ")
                 +++ String.concat ("," +++ nl +++ "  ") (e' :: exports)) +++ nl +++ rest)
        with (("  " +++ e +++ ",") +++ nl +++
              ("  " +++ String.concat ("," +++ nl +++ "  ") (e' :: exports) +++ nl +++ rest)).
      * rewrite lines_line; [reflexivity|].
        apply NoNewline_app; [reflexivity|].
        apply NoNewline_app; [apply Hall; simpl; auto | reflexivity].
      * append_normal.
Qed.

Lemma lines_singleLine exports specifier :
  (forall e, In e exports -> NoNewline e) -> NoNewline specifier ->
  Str.lines (singleLine exports specifier)
  = ["export { " +++ String.concat ", " exports +++ " } from " +++ dq +++ specifier
     +++ dq +++ ";"; ""].
Proof.
  intros Hall Hspec. unfold singleLine.
  replace ("export { " +++ String.concat ", " exports +++ " } from " +++ dq
           +++ specifier +++ dq +++ ";" +++ nl)
    with (("export { " +++ String.concat ", " exports +++ " } from " +++ dq
           +++ specifier +++ dq +++ ";") +++ nl +++ "")
    by append_normal.
  rewrite lines_line; [reflexivity|].
  repeat (apply NoNewline_app; try reflexivity; try assumption).
  now apply NoNewline_concat.
Qed.

Lemma lines_multiLine exports specifier :
  (forall e, In e exports -> NoNewline e) -> NoNewline specifier ->
  Str.lines (multiLine exports specifier)
  = "export {" :: nameLines exports
    ++ ["} from " +++ dq +++ specifier +++ dq +++ ";"; ""].
Proof.
  intros Hall Hspec. unfold multiLine.
  rewrite (lines_line "export {") by reflexivity. f_equal.
  rewrite lines_nameLines by assumption. f_equal.
  replace ("} from " +++ dq +++ specifier +++ dq +++ ";" +++ nl)
    with (("} from " +++ dq +++ specifier +++ dq +++ ";") +++ nl +++ "")
    by append_normal.
  rewrite lines_line; [reflexivity|].
  repeat (apply NoNewline_app; try reflexivity; try assumption).
Qed.

(** C8. The statement of a component whose clause has at most
    [singleLineThreshold] names is one line,
    [export { N1, N2 } from "./<module>";]; with one name more, or more,
    it is [export {], one line for each name, and the closing line. *)
Theorem threshold_decides_layout
  (fullConfig : Config) (useExplicit : bool) (s : LoopState)
  (componentName : string) (exports : list string) :
  JsMap.get (componentExports s) componentName = Some exports ->
  (forall e, In e exports -> NoNewline e) ->
  NoNewline (specifierOf componentName (extensionOf fullConfig useExplicit s componentName)) ->
  let specifier :=
    specifierOf componentName (extensionOf fullConfig useExplicit s componentName) in
  let statement := statementOf fullConfig useExplicit s componentName in
  ((Z.of_nat (List.length exports) <= singleLineThreshold fullConfig)%Z ->
   Str.lines statement
   = ["export { " +++ String.concat ", " exports +++ " } from " +++ dq +++ specifier
      +++ dq +++ ";"; ""]) /\
  ((singleLineThreshold fullConfig + 1 <= Z.of_nat (List.length exports))%Z ->
   Str.lines statement
   = "export {" :: nameLines exports
     ++ ["} from " +++ dq +++ specifier +++ dq +++ ";"; ""] /\
   List.length (nameLines exports) = Nat.max 1 (List.length exports)).
Proof.
  intros Hget Hall Hspec specifier statement.
  unfold statement, statementOf. rewrite Hget. simpl orDefault. fold specifier.
  split; intros Hlen.
  - apply Z.leb_le in Hlen. rewrite Hlen. now apply lines_singleLine.
  - assert ((Z.of_nat (List.length exports) <=? singleLineThreshold fullConfig)%Z = false)
      as Hgt by (apply Z.leb_gt; lia).
    rewrite Hgt. split; [now apply lines_multiLine|].
    clear. induction exports as [|e [|e' exports] IH]; try reflexivity.
    change (nameLines (e :: e' :: exports))
      with (("  " +++ e +++ ",") :: nameLines (e' :: exports)).
    simpl List.length in *. rewrite IH. reflexivity.
Qed.

Lemma threshold_decides_layout_witness :
  let fs := Example.folder Example.ui
              [("icons.ts", Ok Example.iconsSource); ("card.tsx", Ok Example.cardSource)] in
  let s := fst (scan Example.host defaultConfig fs Example.ui ["icons.ts"; "card.tsx"]) in
  Str.lines (statementOf defaultConfig false s "card")
  = ["export { Card } from " +++ dq +++ "./card" +++ dq +++ ";"; ""] /\
  Str.lines (statementOf defaultConfig false s "icons")
  = ["export {"; "  A,"; "  B,"; "  C,"; "  D";
     "} from " +++ dq +++ "./icons" +++ dq +++ ";"; ""].
Proof.
  intros fs s. split.
  - destruct (threshold_decides_layout defaultConfig false s "card" ["Card"] eq_refl)
      as (Hsingle & _).
    + intros e He. simpl in He. destruct He as [<-|[]]. reflexivity.
    + reflexivity.
    + apply Hsingle. simpl. lia.
  - destruct (threshold_decides_layout defaultConfig false s "icons" ["A"; "B"; "C"; "D"]
                eq_refl) as (_ & Hmulti).
    + intros e He. simpl in He.
      destruct He as [<-|[<-|[<-|[<-|[]]]]]; reflexivity.
    + reflexivity.
    + apply Hmulti. simpl. lia.
Defined.

(** ** A loop of [set] over a list *)

Lemma filter_filter {A : Type} (p q : A -> bool) l :
  filter p (filter q l) = filter (fun x => q x && p x) l.
Proof.
  induction l as [|x l IH]; simpl; auto.
  destruct (q x); simpl; [destruct (p x)|]; now rewrite IH.
Qed.

Lemma lastWith_cons {A : Type} (p : A -> bool) x l :
  lastWith p (x :: l)
  = match lastWith p l with
    | Some a => Some a
    | None => if p x then Some x else None
    end.
Proof.
  unfold lastWith. simpl. generalize (rev l) as r.
  induction r as [|y r IH]; simpl; [reflexivity|].
  destruct (p y); auto.
Qed.

Lemma mem_In k l : mem k l = true <-> In k l.
Proof.
  unfold mem. rewrite existsb_exists. split.
  - intros (x & Hx & E). apply String.eqb_eq in E. now subst.
  - intros Hin. exists k. split; [assumption | apply String.eqb_refl].
Qed.

Section SetLoop.
Context {A V : Type}.
Variable key : A -> string.
Variable value : A -> option V.

(** The value under a key is the one of the last element that set it. *)
Lemma setLoop_get k l : forall m,
  JsMap.get (fold_left (setStep key value) l m) k
  = match lastWith (fun a => String.eqb (key a) k && isSome (value a)) l with
    | Some a => value a
    | None => JsMap.get m k
    end.
Proof.
  induction l as [|x l IH]; intros m; [reflexivity|].
  simpl fold_left. rewrite IH, lastWith_cons.
  destruct (lastWith _ l); [reflexivity|].
  unfold setStep. destruct (value x) as [v|] eqn:Ev; simpl.
  - destruct (String.eqb (key x) k) eqn:E; simpl.
    + apply String.eqb_eq in E. subst k. rewrite Ev. apply JsMapFacts.get_set_same.
    + apply String.eqb_neq in E. now apply JsMapFacts.get_set_other.
  - now rewrite andb_false_r.
Qed.

(** The keys are in the order in which they were first set. *)
Lemma setLoop_keys l : forall m,
  JsMap.keys (fold_left (setStep key value) l m)
  = JsMap.keys m
    ++ filter (fun k => negb (mem k (JsMap.keys m)))
         (firstOccurrences (map key (filter (fun a => isSome (value a)) l))).
Proof.
  induction l as [|x l IH]; intros m; simpl.
  - now rewrite app_nil_r.
  - rewrite IH. unfold setStep. destruct (value x) as [v|] eqn:Ev; simpl; [|reflexivity].
    set (rest := firstOccurrences (map key (filter (fun a => isSome (value a)) l))).
    destruct (mem (key x) (JsMap.keys m)) eqn:Em; simpl.
    + rewrite JsMapFacts.keys_set_present by now apply mem_In.
      f_equal. rewrite filter_filter. apply filter_ext. intros y.
      destruct (String.eqb y (key x)) eqn:E; simpl; [|reflexivity].
      apply String.eqb_eq in E. subst y. now rewrite Em.
    + rewrite JsMapFacts.keys_set_absent
        by (intros Hin; apply mem_In in Hin; congruence).
      rewrite <- app_assoc. simpl. do 2 f_equal.
      rewrite filter_filter. apply filter_ext. intros y.
      unfold mem. rewrite existsb_app. simpl. rewrite orb_false_r.
      rewrite negb_orb. apply andb_comm.
Qed.

Lemma setLoop_NoDup l m : NoDup (JsMap.keys m) -> NoDup (JsMap.keys (fold_left (setStep key value) l m)).
Proof.
  revert m. induction l as [|x l IH]; intros m Hm; simpl; [assumption|].
  apply IH. unfold setStep. destruct (value x); [|assumption].
  now apply JsMapFacts.NoDup_keys_set.
Qed.

End SetLoop.

Lemma filter_all {A : Type} (l : list A) : filter (fun _ => true) l = l.
Proof. induction l as [|x l IH]; simpl; congruence. Qed.

(** ** The loop over the component files *)

Section Loop.
Variable H : Host.
Variable fullConfig : Config.
Variable fs : FileSystem.
Variable componentsDir : string.

Lemma processFile_state total s file :
  let s' := fst (processFile H fullConfig fs componentsDir total s file) in
  componentExports s'
  = stepExports H fullConfig fs componentsDir (componentExports s) file /\
  fileExtensions s' = stepExtensions (fileExtensions s) file /\
  processedCount s' = S (processedCount s) /\
  typesDetectedCount s'
  = typesDetectedCount s + reclassifiedIn H fullConfig fs componentsDir file.
Proof.
  unfold processFile, stepExports, stepExtensions, clauseOf, reclassifiedIn, componentNameOf.
  destruct (readSource H fs (path_join H componentsDir file) file) as [sourceFile|e];
    simpl.
  - rewrite !allExportsOf_classify.
    destruct (classify_spec fullConfig file (extractExports sourceFile)
                (typesDetectedCount s)) as (_ & _ & ->).
    destruct (0 <? _)%nat; repeat split; reflexivity.
  - repeat split. lia.
Qed.

Lemma processFiles_cons total s file rest :
  fst (processFiles H fullConfig fs componentsDir total s (file :: rest))
  = fst (processFiles H fullConfig fs componentsDir total
           (fst (processFile H fullConfig fs componentsDir total s file)) rest).
Proof.
  simpl. destruct (processFile H fullConfig fs componentsDir total s file) as [s1 t1].
  simpl. destruct (processFiles H fullConfig fs componentsDir total s1 rest). reflexivity.
Qed.

Lemma processFiles_trace_cons total s file rest :
  snd (processFiles H fullConfig fs componentsDir total s (file :: rest))
  = snd (processFile H fullConfig fs componentsDir total s file)
    ++ snd (processFiles H fullConfig fs componentsDir total
              (fst (processFile H fullConfig fs componentsDir total s file)) rest).
Proof.
  simpl. destruct (processFile H fullConfig fs componentsDir total s file) as [s1 t1].
  simpl. destruct (processFiles H fullConfig fs componentsDir total s1 rest). reflexivity.
Qed.

(** The state after the loop, as four independent loops over the files. *)
Lemma processFiles_state total files : forall s,
  let s' := fst (processFiles H fullConfig fs componentsDir total s files) in
  componentExports s'
  = fold_left (stepExports H fullConfig fs componentsDir) files (componentExports s) /\
  fileExtensions s' = fold_left stepExtensions files (fileExtensions s) /\
  processedCount s' = processedCount s + List.length files /\
  typesDetectedCount s'
  = typesDetectedCount s
    + list_sum (map (reclassifiedIn H fullConfig fs componentsDir) files).
Proof.
  induction files as [|file rest IH]; intros s.
  - simpl. repeat split; lia.
  - cbv zeta. rewrite processFiles_cons.
    destruct (IH (fst (processFile H fullConfig fs componentsDir total s file)))
      as (Hce & Hfe & Hpc & Htc).
    destruct (processFile_state total s file) as (Hce1 & Hfe1 & Hpc1 & Htc1).
    rewrite Hce, Hfe, Hpc, Htc, Hce1, Hfe1, Hpc1, Htc1. simpl.
    repeat split; lia.
Qed.

End Loop.

(** ** The rendered text *)

Lemma fold_append_concat (f : string -> string) names : forall start,
  fold_left (fun text name => text +++ f name) names start
  = start +++ String.concat "" (map f names).
Proof.
  induction names as [|n names IH]; intros start; simpl.
  - now rewrite append_empty_r.
  - rewrite IH. destruct names as [|n' names]; simpl.
    + now rewrite append_empty_r.
    + now rewrite append_assoc.
Qed.

Lemma renderIndex_concat fullConfig useExplicit s :
  renderIndex fullConfig useExplicit s
  = headerComment fullConfig
    +++ String.concat "" (map (statementOf fullConfig useExplicit s)
                            (componentNamesOf fullConfig s)).
Proof. apply fold_append_concat. Qed.

Lemma firstOccurrences_NoDup l : NoDup l -> firstOccurrences l = l.
Proof.
  induction 1 as [|x l Hnin _ IH]; simpl; [reflexivity|].
  rewrite IH. f_equal. rewrite <- (filter_all l) at 2. apply filter_ext_in.
  intros y Hy. destruct (String.eqb y x) eqn:E; [|reflexivity].
  apply String.eqb_eq in E. subst. contradiction.
Qed.

(** When the files that give a clause have distinct base names, the
    order of first occurrence is the order of the files. *)
Lemma enumeratedNames_distinct H fullConfig fs componentsDir files :
  NoDup (map componentNameOf (contributingFiles H fullConfig fs componentsDir files)) ->
  enumeratedNames H fullConfig fs componentsDir files
  = map componentNameOf (contributingFiles H fullConfig fs componentsDir files).
Proof. apply firstOccurrences_NoDup. Qed.

Section Scan.
Variable H : Host.
Variable fullConfig : Config.
Variable fs : FileSystem.
Variable componentsDir : string.
Variable files : list string.

Lemma scan_state :
  let s := fst (scan H fullConfig fs componentsDir files) in
  componentExports s
  = fold_left (stepExports H fullConfig fs componentsDir)
      (componentFilesOf fullConfig files) JsMap.empty /\
  fileExtensions s
  = fold_left stepExtensions (componentFilesOf fullConfig files) JsMap.empty /\
  processedCount s = List.length (componentFilesOf fullConfig files) /\
  typesDetectedCount s
  = list_sum (map (reclassifiedIn H fullConfig fs componentsDir)
                (componentFilesOf fullConfig files)).
Proof.
  unfold scan.
  apply (processFiles_state H fullConfig fs componentsDir
           (List.length (componentFilesOf fullConfig files))
           (componentFilesOf fullConfig files) emptyLoopState).
Qed.

Lemma scan_keys :
  JsMap.keys (componentExports (fst (scan H fullConfig fs componentsDir files)))
  = enumeratedNames H fullConfig fs componentsDir files.
Proof.
  destruct scan_state as (-> & _).
  change (stepExports H fullConfig fs componentsDir)
    with (setStep componentNameOf (clauseOf H fullConfig fs componentsDir)).
  rewrite setLoop_keys. simpl. apply filter_all.
Qed.

Lemma scan_keys_NoDup :
  NoDup (JsMap.keys (componentExports (fst (scan H fullConfig fs componentsDir files)))).
Proof.
  destruct scan_state as (-> & _).
  change (stepExports H fullConfig fs componentsDir)
    with (setStep componentNameOf (clauseOf H fullConfig fs componentsDir)).
  apply setLoop_NoDup. constructor.
Qed.

End Scan.

(** C9. The generated text is the header followed by one statement for
    each component name, in the order of the names.  With
    [sortAlphabetically] the names are in strictly increasing
    lexicographic order; without it they are in the order in which the
    listing enumerates the files that give a clause (a base name that
    comes again keeps its first place). *)
Theorem statements_follow_the_names
  (H : Host) (fullConfig : Config) (useExplicit : bool) (fs : FileSystem)
  (componentsDir : string) (files : list string) :
  let s := fst (scan H fullConfig fs componentsDir files) in
  let names := componentNamesOf fullConfig s in
  indexContentOf H fullConfig useExplicit fs componentsDir files
  = headerComment fullConfig
    +++ String.concat "" (map (statementOf fullConfig useExplicit s) names) /\
  (sortAlphabetically fullConfig = true ->
   StronglySorted lt names /\
   Permutation (enumeratedNames H fullConfig fs componentsDir files) names) /\
  (sortAlphabetically fullConfig = false ->
   names = enumeratedNames H fullConfig fs componentsDir files).
Proof.
  intros s names. split; [apply renderIndex_concat|].
  unfold names, componentNamesOf. unfold s. rewrite scan_keys.
  split; intros ->.
  - split; [|apply sort_perm].
    apply sort_strict. rewrite <- scan_keys. apply scan_keys_NoDup.
  - reflexivity.
Qed.

Lemma statements_follow_the_names_witness :
  let files := ["card.tsx"; "button.tsx"] in
  let unsorted := mergeConfig defaultConfig Example.noSortOptions in
  let s := fst (scan Example.host defaultConfig Example.components Example.ui files) in
  let s' := fst (scan Example.host unsorted Example.components Example.ui files) in
  (StronglySorted lt (componentNamesOf defaultConfig s) /\
   Permutation ["card"; "button"] (componentNamesOf defaultConfig s)) /\
  componentNamesOf unsorted s' = ["card"; "button"].
Proof.
  intros files unsorted s s'. split.
  - destruct (statements_follow_the_names Example.host defaultConfig false
                Example.components Example.ui files) as (_ & Hsorted & _).
    exact (Hsorted eq_refl).
  - destruct (statements_follow_the_names Example.host unsorted false
                Example.components Example.ui files) as (_ & _ & Hlisted).
    exact (Hlisted eq_refl).
Defined.

(** The clause under a name comes from the last file that set it, the
    extension from the last file with that base name. *)
Lemma scan_clause H fullConfig fs componentsDir files name :
  JsMap.get (componentExports (fst (scan H fullConfig fs componentsDir files))) name
  = match lastWith
            (fun file => String.eqb (componentNameOf file) name
                         && isSome (clauseOf H fullConfig fs componentsDir file))
            (componentFilesOf fullConfig files) with
    | Some file => clauseOf H fullConfig fs componentsDir file
    | None => None
    end.
Proof.
  destruct (scan_state H fullConfig fs componentsDir files) as (-> & _).
  change (stepExports H fullConfig fs componentsDir)
    with (setStep componentNameOf (clauseOf H fullConfig fs componentsDir)).
  now rewrite setLoop_get.
Qed.

Lemma scan_extension H fullConfig fs componentsDir files name :
  JsMap.get (fileExtensions (fst (scan H fullConfig fs componentsDir files))) name
  = option_map extname
      (lastWith (fun file => String.eqb (componentNameOf file) name)
         (componentFilesOf fullConfig files)).
Proof.
  destruct (scan_state H fullConfig fs componentsDir files) as (_ & -> & _).
  change stepExtensions
    with (setStep componentNameOf (fun file => Some (extname file))).
  rewrite setLoop_get.
  replace (lastWith (fun a => String.eqb (componentNameOf a) name && isSome (Some (extname a)))
             (componentFilesOf fullConfig files))
    with (lastWith (fun file => String.eqb (componentNameOf file) name)
            (componentFilesOf fullConfig files)).
  - now destruct (lastWith _ (componentFilesOf fullConfig files)).
  - unfold lastWith. generalize (rev (componentFilesOf fullConfig files)) as l.
    induction l as [|a l IH]; simpl; [reflexivity|].
    rewrite andb_true_r. now rewrite IH.
Qed.

(** C10, as amended.  Whatever the listing, no component name has more
    than one statement.  The export list under a name is the clause of the
    last component file with that base name that gave a clause: a later
    file with the same base name that cannot be read or parsed, or that
    exports nothing, leaves the earlier list in place.  The extension
    recorded under the name is the one of the last component file with
    that base name. *)
Theorem colliding_files_share_one_statement
  (H : Host) (fullConfig : Config) (fs : FileSystem)
  (componentsDir : string) (files : list string) (name : string) :
  let s := fst (scan H fullConfig fs componentsDir files) in
  let componentFiles := componentFilesOf fullConfig files in
  NoDup (componentNamesOf fullConfig s) /\
  JsMap.get (componentExports s) name
  = match lastWith
            (fun file => String.eqb (componentNameOf file) name
                         && isSome (clauseOf H fullConfig fs componentsDir file))
            componentFiles with
    | Some file => clauseOf H fullConfig fs componentsDir file
    | None => None
    end /\
  JsMap.get (fileExtensions s) name
  = option_map extname
      (lastWith (fun file => String.eqb (componentNameOf file) name) componentFiles).
Proof.
  intros s componentFiles. split; [|split].
  - unfold componentNamesOf.
    destruct (sortAlphabetically fullConfig).
    + eapply Permutation_NoDup; [apply sort_perm | apply scan_keys_NoDup].
    + apply scan_keys_NoDup.
  - apply scan_clause.
  - apply scan_extension.
Qed.

(** C10, as it was stated, fails: [button.tsx] comes last and exports
    nothing, and the list of [button.ts] stays. *)
Lemma last_file_without_exports_keeps_earlier_clause : ~ LastFileDecidesClause.
Proof.
  intros claim.
  specialize (claim Example.host defaultConfig
                (Example.folder Example.ui
                   [("button.ts", Ok Example.cardSource);
                    ("button.tsx", Ok Example.helperSource)])
                Example.ui ["button.ts"; "button.tsx"] "button" "button.tsx" eq_refl).
  vm_compute in claim. discriminate.
Qed.

(** ** The filter of the listing *)

Lemma search_suffix i r suffix : forall stem,
  Regex.matchHere i true r suffix = true ->
  Regex.search i true r (stem +++ suffix) = true.
Proof.
  intros stem Hm. induction stem as [|c stem IH]; simpl.
  - destruct suffix; simpl; simpl in Hm; rewrite Hm; reflexivity.
  - rewrite IH. apply orb_true_r.
Qed.

Lemma suffix_test i r file suffix :
  EndsWith file suffix ->
  Regex.matchHere i true r suffix = true ->
  test (Regex.suffix i r) file = true.
Proof.
  intros [stem ->] Hm. unfold Regex.suffix, Regex.compile, Regex.exec. simpl.
  now apply search_suffix.
Qed.

Lemma default_exclude_matches file :
  ExcludedByDefault file ->
  existsb (fun pattern => test pattern file) Defaults.exclude = true.
Proof.
  unfold Defaults.exclude. cbn [existsb].
  intros [E|[E|[E|[E|[E|E]]]]].
  - rewrite (suffix_test _ _ _ _ E) by reflexivity. reflexivity.
  - rewrite (suffix_test false (Regex.Seq (Regex.lits ".test.ts") (Regex.Opt (Regex.Lit "x")))
               _ _ E) by reflexivity.
    now rewrite !orb_true_r.
  - rewrite (suffix_test false (Regex.Seq (Regex.lits ".test.ts") (Regex.Opt (Regex.Lit "x")))
               _ _ E) by reflexivity.
    now rewrite !orb_true_r.
  - rewrite (suffix_test false (Regex.Seq (Regex.lits ".stories.ts") (Regex.Opt (Regex.Lit "x")))
               _ _ E) by reflexivity.
    now rewrite !orb_true_r.
  - rewrite (suffix_test false (Regex.Seq (Regex.lits ".stories.ts") (Regex.Opt (Regex.Lit "x")))
               _ _ E) by reflexivity.
    now rewrite !orb_true_r.
  - rewrite (suffix_test false (Regex.lits "index.ts") _ _ E) by reflexivity.
    now rewrite !orb_true_r.
Qed.

(** A listing without component files gives the header alone. *)
Lemma no_component_file_header_only H fullConfig useExplicit fs componentsDir files :
  componentFilesOf fullConfig files = [] ->
  indexContentOf H fullConfig useExplicit fs componentsDir files
  = headerComment fullConfig.
Proof.
  intros Hnone. unfold indexContentOf, scan. rewrite Hnone. simpl.
  unfold renderIndex, componentNamesOf. simpl.
  now destruct (sortAlphabetically fullConfig).
Qed.

(** C2, as amended.  With the exclude patterns of [config.ts], a listing
    in which every name ends in [.d.ts], [.test.ts], [.test.tsx],
    [.stories.ts], [.stories.tsx] or [index.ts] gives the header comment
    and nothing else, whatever the other fields of the configuration are.
    The configured output file name plays no part in the filter. *)
Theorem excluded_files_header_only
  (H : Host) (fullConfig : Config) (useExplicit : bool) (fs : FileSystem)
  (componentsDir : string) (files : list string) :
  exclude fullConfig = Defaults.exclude ->
  (forall file, In file files -> ExcludedByDefault file) ->
  indexContentOf H fullConfig useExplicit fs componentsDir files
  = headerComment fullConfig.
Proof.
  intros Hexclude Hall. apply no_component_file_header_only.
  unfold componentFilesOf. induction files as [|file files IH]; [reflexivity|].
  simpl. unfold isComponentFile at 1. rewrite Hexclude.
  rewrite default_exclude_matches by (apply Hall; simpl; auto).
  rewrite andb_false_r. apply IH. intros f Hf. apply Hall. simpl. auto.
Qed.

Lemma excluded_files_header_only_witness :
  indexContentOf Example.host (mergeConfig defaultConfig (outputTo "exports.ts")) false
    (Example.folder Example.ui
       [("index.ts", Ok Example.barrelSource);
        ("button.test.tsx", Ok Example.buttonSource);
        ("button.stories.ts", Ok Example.buttonSource);
        ("globals.d.ts", Ok Example.cardSource)])
    Example.ui ["index.ts"; "button.test.tsx"; "button.stories.ts"; "globals.d.ts"]
  = Defaults.headerComment.
Proof.
  apply (excluded_files_header_only Example.host
           (mergeConfig defaultConfig (outputTo "exports.ts")) false).
  - reflexivity.
  - intros file Hin. simpl in Hin. unfold ExcludedByDefault, EndsWith.
    destruct Hin as [<-|[<-|[<-|[<-|[]]]]].
    + do 5 right. now exists "".
    + do 2 right. left. now exists "button".
    + do 3 right. left. now exists "button".
    + left. now exists "globals".
Defined.

(** C2, as it was stated, fails: with [--output exports.ts] the file
    [exports.ts] of an earlier run is scanned like any component. *)
Lemma renamed_output_file_is_scanned : ~ OutputFileIsExcluded.
Proof.
  intros claim.
  specialize (claim Example.host false
                (Example.folder Example.ui [("exports.ts", Ok Example.barrelSource)])
                Example.ui ["exports.ts"] "exports.ts").
  simpl in claim.
  assert (forall file, "exports.ts" = file \/ False ->
            EndsWith file ".d.ts" \/ EndsWith file ".test.ts" \/ EndsWith file ".test.tsx" \/
            EndsWith file ".stories.ts" \/ EndsWith file ".stories.tsx" \/
            file = "exports.ts") as Hall
    by (intros file [<-|[]]; do 5 right; reflexivity).
  specialize (claim Hall). vm_compute in claim. discriminate.
Qed.

(** ** The trace of a run *)

(** Solves [Forall NotWrite t] and [Forall NotRead t] for a trace that is
    built from literal effects, [++] and the known parts. *)
Ltac quiet :=
  repeat first
    [ assumption
    | apply Forall_nil
    | apply Forall_cons; [first [reflexivity | exact I]|]
    | apply Forall_app; split
    | match goal with
      | |- Forall _ (if ?b then _ else _) => destruct b
      | |- Forall _ (map _ _) => apply Forall_map, Forall_forall; intros; reflexivity
      end ].

(** Finds an effect in a trace that is built with [::] and [++]. *)
Ltac in_list :=
  match goal with
  | Hin : In ?x ?l |- In ?x ?l => exact Hin
  | |- In ?x (?x :: _) => apply in_eq
  | |- In _ (_ :: _) => apply in_cons; in_list
  | |- In _ (_ ++ _) => apply in_or_app; ((left; in_list) || (right; in_list))
  end.

Section Traces.
Variable H : Host.
Variable fullConfig : Config.
Variable fs : FileSystem.

Lemma firstStat_Probe accept base candidates :
  Forall Probe (snd (firstStat H fs accept base candidates)).
Proof.
  induction candidates as [|c rest IH]; simpl; [constructor|].
  destruct (stat fs (path_join H base c)) as [st|e].
  - destruct (accept st); [quiet|].
    destruct (firstStat H fs accept base rest). simpl in *. quiet.
  - destruct (firstStat H fs accept base rest). simpl in *. quiet.
Qed.

Lemma detectMonorepo_Probe base :
  Forall Probe (snd (detectMonorepo H fs base)).
Proof.
  unfold detectMonorepo.
  pose proof (firstStat_Probe (fun _ => true) base monorepoConfigs) as H1.
  pose proof (firstStat_Probe isDirectory base monorepoDirs) as H2.
  destruct (firstStat H fs (fun _ => true) base monorepoConfigs) as [[?|] t1];
    destruct (firstStat H fs isDirectory base monorepoDirs) as [[?|] t2];
    simpl in *; quiet.
Qed.

Lemma shouldUseExplicitExtensions_Probe base :
  Forall Probe (snd (shouldUseExplicitExtensions H fs base)).
Proof.
  unfold shouldUseExplicitExtensions. destruct (packageIsModule H fs base); simpl; quiet.
Qed.

(** Before the [try] block the run only probes and logs. *)
Lemma setup_Probe : Forall Probe (setupTrace (setup H fullConfig fs)).
Proof.
  unfold setup.
  pose proof (detectMonorepo_Probe (cwd H)) as H1.
  pose proof (shouldUseExplicitExtensions_Probe (cwd H)) as H2.
  pose proof (firstStat_Probe isDirectory (cwd H) commonPaths) as H3.
  unfold findUIComponentsInMonorepo.
  destruct (detectMonorepo H fs (cwd H)) as [isMonorepo t1].
  destruct (shouldUseExplicitExtensions H fs (cwd H)) as [detected t2].
  destruct (firstStat H fs isDirectory (cwd H) commonPaths) as [[found|] t4].
  - destruct (forceExplicitExtensions fullConfig), detected, isMonorepo;
      simpl in *; quiet.
  - destruct (forceExplicitExtensions fullConfig), detected, isMonorepo;
      simpl in *; quiet.
Qed.

Lemma setup_NotWrite : Forall NotWrite (setupTrace (setup H fullConfig fs)).
Proof.
  eapply Forall_impl; [|apply setup_Probe].
  intros [] Hp; try reflexivity; destruct Hp.
Qed.

Lemma processFile_NotWrite componentsDir total s file :
  Forall NotWrite (snd (processFile H fullConfig fs componentsDir total s file)).
Proof.
  unfold processFile.
  destruct (readSource H fs (path_join H componentsDir file) file) as [sourceFile|e];
    simpl.
  - constructor; [reflexivity|]. apply Forall_app. split; [|quiet].
    unfold classify.
    set (c0 := mkClassified [] (typeExports (extractExports sourceFile))
                 (typesDetectedCount s) []).
    assert (Forall NotWrite (notices c0)) as Hc0 by constructor.
    generalize dependent c0. generalize (exports (extractExports sourceFile)) as names.
    induction names as [|n names IH]; intros c0 Hc0; simpl; [assumption|].
    apply IH. unfold classifyStep.
    destruct (shouldBeType n (typePatterns fullConfig)); simpl; quiet.
  - quiet.
Qed.

Lemma processFiles_NotWrite componentsDir total files : forall s,
  Forall NotWrite (snd (processFiles H fullConfig fs componentsDir total s files)).
Proof.
  induction files as [|file rest IH]; intros s; [constructor|].
  rewrite processFiles_trace_cons. apply Forall_app. split.
  - apply processFile_NotWrite.
  - apply IH.
Qed.

(** Every file of the loop is read, whatever happens to the files
    before it. *)
Lemma processFile_reads componentsDir total s file :
  In (FsReadFile (path_join H componentsDir file))
    (snd (processFile H fullConfig fs componentsDir total s file)).
Proof.
  unfold processFile.
  destruct (readSource H fs (path_join H componentsDir file) file); simpl; auto.
Qed.

Lemma processFiles_reads componentsDir total files : forall s file,
  In file files ->
  In (FsReadFile (path_join H componentsDir file))
    (snd (processFiles H fullConfig fs componentsDir total s files)).
Proof.
  induction files as [|f rest IH]; intros s file Hin; [destruct Hin|].
  rewrite processFiles_trace_cons. apply in_or_app.
  destruct Hin as [->|Hin]; [left; apply processFile_reads | right; now apply IH].
Qed.

Lemma report_quiet e :
  Forall NotWrite (report fullConfig e) /\ Forall NotRead (report fullConfig e).
Proof.
  unfold report. destruct (code e) as [c|]; split;
    repeat match goal with
           | |- context [if String.eqb ?a ?b then _ else _] => destruct (String.eqb a b)
           end; quiet.
Qed.

End Traces.

(** ** The output stage *)

Section Output.
Variable H : Host.
Variable fullConfig : Config.

(** The effects of [generateFrom], split at the write. *)
Lemma generateFrom_dryRun useExplicit fs componentsDir output files :
  dryRun fullConfig = true ->
  exists t,
    generateFrom H fullConfig useExplicit fs componentsDir output files
    = (Completed, t, fs) /\
    Forall NotWrite t /\
    In (ConsoleLog (indexContentOf H fullConfig useExplicit fs componentsDir files)) t.
Proof.
  intros Hdry. unfold generateFrom, indexContentOf.
  pose proof (processFiles_NotWrite H fullConfig fs componentsDir
                (List.length (componentFilesOf fullConfig files))
                (componentFilesOf fullConfig files) emptyLoopState) as Hloop.
  fold (scan H fullConfig fs componentsDir files) in Hloop.
  destruct (scan H fullConfig fs componentsDir files) as [s loop]. simpl in Hloop.
  rewrite Hdry. eexists. split; [reflexivity|]. split.
  - quiet.
  - simpl fst. do 3 (apply in_or_app; right). simpl. auto.
Qed.

Lemma generateFrom_write useExplicit fs componentsDir output files :
  dryRun fullConfig = false ->
  let text := indexContentOf H fullConfig useExplicit fs componentsDir files in
  exists before after completion,
    generateFrom H fullConfig useExplicit fs componentsDir output files
    = (completion, before ++ FsWriteFile output text :: after,
       snd (writeFile fs output text)) /\
    Forall NotWrite before /\
    Forall NotWrite after /\ Forall NotRead after /\
    (forall file, In file (componentFilesOf fullConfig files) ->
       In (FsReadFile (path_join H componentsDir file)) before) /\
    completion = match writeRefused fs output with
                 | Some e => Threw e
                 | None => Completed
                 end.
Proof.
  intros Hwet text. unfold generateFrom. unfold text, indexContentOf.
  pose proof (processFiles_NotWrite H fullConfig fs componentsDir
                (List.length (componentFilesOf fullConfig files))
                (componentFilesOf fullConfig files) emptyLoopState) as Hloop.
  pose proof (processFiles_reads H fullConfig fs componentsDir
                (List.length (componentFilesOf fullConfig files))
                (componentFilesOf fullConfig files) emptyLoopState) as Hreads.
  fold (scan H fullConfig fs componentsDir files) in Hloop, Hreads.
  destruct (scan H fullConfig fs componentsDir files) as [s loop].
  simpl in Hloop, Hreads. simpl fst. rewrite Hwet.
  unfold writeFile. destruct (writeRefused fs output) as [e|].
  - match goal with
    | |- exists b a c, (_, ?f ++ ?l ++ ?p ++ _, _) = _ /\ _ =>
        exists (f ++ l ++ p), [], (Threw e)
    end.
    split; [now rewrite <- !app_assoc|].
    split; [quiet|]. split; [quiet|]. split; [quiet|]. split; [|reflexivity].
    intros file Hin. specialize (Hreads file Hin). rewrite !in_app_iff. auto 10.
  - match goal with
    | |- exists b a c, (_, ?f ++ ?l ++ ?p ++ _ :: ?rest, _) = _ /\ _ =>
        exists (f ++ l ++ p), rest, Completed
    end.
    split; [now rewrite <- !app_assoc|].
    split; [quiet|]. split; [quiet|]. split; [quiet|]. split; [|reflexivity].
    intros file Hin. specialize (Hreads file Hin). rewrite !in_app_iff. auto 10.
Qed.

End Output.

(** ** The whole run *)

Section Run.
Variable H : Host.
Variable fullConfig : Config.

Lemma isString_true o s : o = Some s -> isString o s = true.
Proof. intros ->. apply String.eqb_refl. Qed.

Lemma isString_false o s : o <> Some s -> isString o s = false.
Proof.
  destruct o as [x|]; simpl; [|reflexivity]. intros Hne.
  destruct (String.eqb x s) eqn:E; [|reflexivity].
  apply String.eqb_eq in E. subst. contradiction.
Qed.

Lemma tryBlock_missing useExplicit fs dir output e :
  stat fs dir = Throw e -> code e = Some "ENOENT" ->
  tryBlock H fullConfig useExplicit fs dir output
  = (Returned,
     [FsStat dir; Log ("Directory not found: " +++ dir) error;
      Log "Please check the path and try again" warning],
     fs).
Proof.
  intros Hstat Hcode. unfold tryBlock. rewrite Hstat.
  now rewrite (isString_true _ _ Hcode).
Qed.

Lemma tryBlock_listed useExplicit fs dir output st files :
  stat fs dir = Ok st -> readdir fs dir = Ok files ->
  tryBlock H fullConfig useExplicit fs dir output
  = (let '(c, t, fs') := generateFrom H fullConfig useExplicit fs dir output files in
     (c,
      ([FsStat dir] ++ banner ++
       [Log "Starting index generation for UI components" info;
        Log ("Scanning directory: " +++ dir) info;
        FsReaddir dir]) ++ t,
      fs')).
Proof. intros Hstat Hdir. unfold tryBlock. now rewrite Hstat, Hdir. Qed.

(** A dry run leaves the file system alone on every path of the [try]
    block. *)
Lemma tryBlock_dryRun useExplicit fs dir output :
  dryRun fullConfig = true ->
  exists c t,
    tryBlock H fullConfig useExplicit fs dir output = (c, t, fs) /\
    Forall NotWrite t.
Proof.
  intros Hdry. unfold tryBlock.
  destruct (stat fs dir) as [st|e].
  - destruct (readdir fs dir) as [files|e].
    + destruct (generateFrom_dryRun H fullConfig useExplicit fs dir output files Hdry)
        as (t & -> & Ht & _).
      eexists _, _. split; [reflexivity|]. quiet.
    + eexists _, _. split; [reflexivity|]. unfold banner. quiet.
  - destruct (isString (code e) "ENOENT"); eexists _, _; (split; [reflexivity|]); quiet.
Qed.

Lemma footer_quiet : Forall NotWrite footer /\ Forall NotRead footer.
Proof. unfold footer. split; quiet. Qed.

Lemma run_trace p c t fs' :
  tryBlock H fullConfig (useExplicitExtensions (setup H fullConfig (fileSystem p)))
    (fileSystem p) (scannedDir (setup H fullConfig (fileSystem p)))
    (outputFilePath (setup H fullConfig (fileSystem p))) = (c, t, fs') ->
  run H fullConfig p
  = mkProcess fs'
      (trace p ++ setupTrace (setup H fullConfig (fileSystem p)) ++ t
       ++ match c with Threw e => report fullConfig e ++ footer | _ => footer end)
      (match c with Threw _ => Some 1%Z | _ => exitCode p end).
Proof. intros Htry. unfold run. rewrite Htry. now destruct c. Qed.

End Run.

Lemma filter_NotWrite t : Forall NotWrite t -> filter isWrite t = [].
Proof.
  induction 1 as [|e t He _ IH]; [reflexivity|].
  simpl. unfold NotWrite in He. now rewrite He.
Qed.

(** No run writes more than once, whatever fails. *)
Lemma a_run_writes_at_most_once (H : Host) (fullConfig : Config) (p : Process) :
  exists new,
    trace (run H fullConfig p) = trace p ++ new /\
    List.length (filter isWrite new) <= 1.
Proof.
  set (fs := fileSystem p). set (st := setup H fullConfig fs).
  pose proof (setup_NotWrite H fullConfig fs) as Hsetup. fold st in Hsetup.
  pose proof footer_quiet as [Hfooter _].
  assert (forall c t fs',
            tryBlock H fullConfig (useExplicitExtensions st) fs (scannedDir st)
              (outputFilePath st) = (c, t, fs') ->
            List.length (filter isWrite t) <= 1 ->
            exists new,
              trace (run H fullConfig p) = trace p ++ new /\
              List.length (filter isWrite new) <= 1) as Hrun.
  { intros c t fs' Htry Ht. rewrite (run_trace H fullConfig p c t fs' Htry).
    eexists. split; [reflexivity|]. fold fs. fold st.
    rewrite !filter_app, !length_app, (filter_NotWrite _ Hsetup).
    destruct c as [| |e]; rewrite ?filter_app, ?length_app, (filter_NotWrite _ Hfooter);
      try rewrite (filter_NotWrite _ (proj1 (report_quiet fullConfig e)));
      simpl; lia. }
  destruct (dryRun fullConfig) eqn:Hdry.
  - destruct (tryBlock_dryRun H fullConfig (useExplicitExtensions st) fs
                (scannedDir st) (outputFilePath st) Hdry) as (c & t & Htry & Ht).
    apply (Hrun c t fs Htry). rewrite (filter_NotWrite _ Ht). simpl. lia.
  - destruct (stat fs (scannedDir st)) as [st0|e] eqn:Hstat.
    + destruct (readdir fs (scannedDir st)) as [files|e] eqn:Hdir.
      * destruct (generateFrom_write H fullConfig (useExplicitExtensions st) fs
                    (scannedDir st) (outputFilePath st) files Hdry)
          as (before & after & c & Hgen & Hb & Ha & _).
        pose proof (tryBlock_listed H fullConfig (useExplicitExtensions st) fs
                      (scannedDir st) (outputFilePath st) st0 files Hstat Hdir) as Htry.
        rewrite Hgen in Htry. apply (Hrun _ _ _ Htry).
        rewrite !filter_app, !length_app. simpl.
        rewrite (filter_NotWrite _ Hb), (filter_NotWrite _ Ha). simpl. lia.
      * eapply Hrun; [unfold tryBlock; rewrite Hstat, Hdir; reflexivity|]. simpl. lia.
    + destruct (isString (code e) "ENOENT") eqn:Hcode;
        (eapply Hrun; [unfold tryBlock; rewrite Hstat, Hcode; reflexivity|]);
        simpl; lia.
Qed.

(** C4. A dry run never writes: the file system after the run is the
    one before it, no effect of the run is a write, and when the
    directory is listed the generated text is printed.  A run that is not
    a dry run and gets the listing of the directory performs one write,
    of the generated text to [componentsDir/outputFile]: every component
    file is read before it and nothing is read or written after it, and
    unless the system refuses the write the file then holds that text,
    whatever it held before, while no other file changes. *)
Theorem dry_run_writes_nothing_else_one_write
  (H : Host) (fullConfig : Config) (p : Process) :
  let fs := fileSystem p in
  let st := setup H fullConfig fs in
  let r := run H fullConfig p in
  outputFilePath st = path_join H (scannedDir st) (outputFile fullConfig) /\
  (dryRun fullConfig = true ->
   fileSystem r = fs /\
   (exists new, trace r = trace p ++ new /\ Forall NotWrite new) /\
   (forall st0 files,
      stat fs (scannedDir st) = Ok st0 -> readdir fs (scannedDir st) = Ok files ->
      In (ConsoleLog (indexContentOf H fullConfig (useExplicitExtensions st) fs
                        (scannedDir st) files))
        (trace r))) /\
  (dryRun fullConfig = false ->
   forall st0 files,
     stat fs (scannedDir st) = Ok st0 -> readdir fs (scannedDir st) = Ok files ->
     let text := indexContentOf H fullConfig (useExplicitExtensions st) fs
                   (scannedDir st) files in
     (exists before after,
        trace r = trace p ++ before ++ FsWriteFile (outputFilePath st) text :: after /\
        Forall NotWrite before /\
        Forall NotWrite after /\ Forall NotRead after /\
        (forall file, In file (componentFilesOf fullConfig files) ->
           In (FsReadFile (path_join H (scannedDir st) file)) before)) /\
     (writeRefused fs (outputFilePath st) = None ->
      readFile (fileSystem r) (outputFilePath st) = Ok text /\
      forall q, q <> outputFilePath st -> readFile (fileSystem r) q = readFile fs q)).
Proof.
  intros fs st r. split; [|split].
  - unfold st, setup.
    destruct (detectMonorepo H fs (cwd H)) as [isMonorepo t1].
    destruct (if forceExplicitExtensions fullConfig then (true, [])
              else shouldUseExplicitExtensions H fs (cwd H)) as [use t2].
    destruct isMonorepo; [|reflexivity].
    now destruct (findUIComponentsInMonorepo H fs (cwd H)) as [[?|] ?].
  - intros Hdry. split; [|split].
    + destruct (tryBlock_dryRun H fullConfig (useExplicitExtensions st) fs
                  (scannedDir st) (outputFilePath st) Hdry) as (c & t & Htry & Ht).
      unfold r. now rewrite (run_trace H fullConfig p c t fs Htry).
    + destruct (tryBlock_dryRun H fullConfig (useExplicitExtensions st) fs
                  (scannedDir st) (outputFilePath st) Hdry) as (c & t & Htry & Ht).
      unfold r. rewrite (run_trace H fullConfig p c t fs Htry). simpl.
      eexists. split; [reflexivity|].
      pose proof (setup_NotWrite H fullConfig fs).
      pose proof (footer_quiet) as [? _].
      destruct c as [| |e]; try (pose proof (report_quiet fullConfig e) as [? _]);
        fold st; quiet.
    + intros st0 files Hstat Hdir.
      destruct (generateFrom_dryRun H fullConfig (useExplicitExtensions st) fs
                  (scannedDir st) (outputFilePath st) files Hdry) as (t' & Hgen & _ & Hin).
      pose proof (tryBlock_listed H fullConfig (useExplicitExtensions st) fs
                    (scannedDir st) (outputFilePath st) st0 files Hstat Hdir) as Htry.
      rewrite Hgen in Htry. unfold r. rewrite (run_trace H fullConfig p _ _ _ Htry).
      cbn [trace]. in_list.
  - intros Hwet st0 files Hstat Hdir text.
    destruct (generateFrom_write H fullConfig (useExplicitExtensions st) fs
                (scannedDir st) (outputFilePath st) files Hwet)
      as (before & after & c & Hgen & Hb & Ha & Har & Hreads & Hc).
    fold text in Hgen.
    pose proof (tryBlock_listed H fullConfig (useExplicitExtensions st) fs
                  (scannedDir st) (outputFilePath st) st0 files Hstat Hdir) as Htry.
    rewrite Hgen in Htry. unfold r. rewrite (run_trace H fullConfig p _ _ _ Htry).
    simpl trace. simpl fileSystem. split.
    + exists (setupTrace st
              ++ ([FsStat (scannedDir st)] ++ banner ++
                  [Log "Starting index generation for UI components" info;
                   Log ("Scanning directory: " +++ scannedDir st) info;
                   FsReaddir (scannedDir st)]) ++ before),
             (after ++ match c with
                       | Threw e => report fullConfig e ++ footer
                       | _ => footer
                       end).
      pose proof (setup_NotWrite H fullConfig fs) as Hsetup. fold st in Hsetup.
      pose proof footer_quiet as [Hfw Hfr].
      split; [|split; [|split; [|split]]].
      * fold st. rewrite <- !app_assoc. simpl. reflexivity.
      * unfold banner. quiet.
      * destruct c as [| |e]; try (pose proof (report_quiet fullConfig e) as [? _]); quiet.
      * destruct c as [| |e]; try (pose proof (report_quiet fullConfig e) as [_ ?]); quiet.
      * intros file Hin. specialize (Hreads file Hin). rewrite !in_app_iff. auto.
    + intros Hfree. unfold writeFile. rewrite Hfree. simpl.
      rewrite String.eqb_refl. split; [reflexivity|].
      intros q Hq. apply String.eqb_neq in Hq. now rewrite Hq.
Qed.

Lemma dry_run_writes_nothing_else_one_write_witness :
  let dry := mergeConfig defaultConfig Example.dryRunOptions in
  let p := Example.fresh Example.components in
  let output := "/proj/src/components/ui/index.ts" in
  let text :=
    Defaults.headerComment
    +++ "export { Button, type ButtonProps } from " +++ dq +++ "./button" +++ dq
    +++ ";" +++ nl
    +++ "export { Card } from " +++ dq +++ "./card" +++ dq +++ ";" +++ nl in
  fileSystem (run Example.host dry p) = Example.components /\
  In (ConsoleLog text) (trace (run Example.host dry p)) /\
  readFile (fileSystem (run Example.host defaultConfig p)) output = Ok text.
Proof.
  intros dry p output text.
  destruct (dry_run_writes_nothing_else_one_write Example.host dry p)
    as (_ & Hdry & _).
  destruct (Hdry eq_refl) as (Hfs & _ & Hprinted).
  destruct (dry_run_writes_nothing_else_one_write Example.host defaultConfig p)
    as (_ & _ & Hwet).
  destruct (Hwet eq_refl (mkStats true) ["card.tsx"; "button.tsx"] eq_refl eq_refl)
    as (_ & Hwritten).
  split; [exact Hfs|]. split.
  - exact (Hprinted (mkStats true) ["card.tsx"; "button.tsx"] eq_refl eq_refl).
  - exact (proj1 (Hwritten eq_refl)).
Defined.

(** C5. When [stat] of the directory throws ENOENT the run reports
    that the directory was not found and returns: [process.exitCode] is
    what it was, so a fresh process ends with status 0, and nothing is
    listed or written.  When [stat] throws another error, or the listing
    or the write throws any error, the [catch] block reports it with a
    message of type [error] and sets the exit code to 1. *)
Theorem missing_directory_returns_other_failures_exit_1
  (H : Host) (fullConfig : Config) (p : Process) :
  let fs := fileSystem p in
  let st := setup H fullConfig fs in
  let r := run H fullConfig p in
  (forall e,
     stat fs (scannedDir st) = Throw e -> code e = Some "ENOENT" ->
     exitCode r = exitCode p /\
     (exitCode p = None -> exitStatus r = 0%Z) /\
     fileSystem r = fs /\
     In (Log ("Directory not found: " +++ scannedDir st) error) (trace r) /\
     exists new,
       trace r = trace p ++ new /\ Forall NotWrite new /\
       ~ In (FsReaddir (scannedDir st)) new) /\
  (forall e,
     Aborts fullConfig fs (scannedDir st) (outputFilePath st) e ->
     exitCode r = Some 1%Z /\ exitStatus r = 1%Z /\
     incl (report fullConfig e) (trace r) /\
     (exists text, In (Log text error) (report fullConfig e)) /\
     (code e = Some "EACCES" ->
      In (Log ("Permission denied: Cannot access " +++ shownPath e) error) (trace r)) /\
     (code e = Some "ENAMETOOLONG" ->
      In (Log ("Path too long: " +++ shownPath e) error) (trace r)) /\
     (code e = None ->
      In (Log ("Unexpected error: " +++ message e) error) (trace r))).
Proof.
  intros fs st r. split.
  - intros e Hstat Hcode.
    pose proof (tryBlock_missing H fullConfig (useExplicitExtensions st) fs
                  (scannedDir st) (outputFilePath st) e Hstat Hcode) as Htry.
    unfold r, exitStatus. rewrite (run_trace H fullConfig p _ _ _ Htry).
    cbn [exitCode trace fileSystem].
    split; [reflexivity|]. split; [now intros ->|]. split; [reflexivity|]. split.
    + in_list.
    + eexists. split; [reflexivity|]. split.
      * pose proof (setup_NotWrite H fullConfig fs). fold st.
        pose proof footer_quiet as [? _]. quiet.
      * rewrite in_app_iff. intros [Hin|Hin].
        -- pose proof (setup_Probe H fullConfig fs) as Hprobe. fold st in Hprobe.
           rewrite Forall_forall in Hprobe. exact (Hprobe _ Hin).
        -- simpl in Hin.
           repeat (destruct Hin as [Hin|Hin]; [discriminate|]). destruct Hin.
  - intros e Habort.
    assert (exists t fs',
              tryBlock H fullConfig (useExplicitExtensions st) fs (scannedDir st)
                (outputFilePath st) = (Threw e, t, fs')) as (t & fs' & Htry).
    { destruct Habort as [[Hstat Hcode]|[(st0 & Hstat & Hdir)|(st0 & files & Hstat & Hdir & Hwet & Hrefused)]].
      - unfold tryBlock. rewrite Hstat, (isString_false _ _ Hcode). eauto.
      - unfold tryBlock. rewrite Hstat, Hdir. eauto.
      - rewrite (tryBlock_listed H fullConfig _ fs _ _ st0 files Hstat Hdir).
        destruct (generateFrom_write H fullConfig (useExplicitExtensions st) fs
                    (scannedDir st) (outputFilePath st) files Hwet)
          as (before & after & c & -> & _ & _ & _ & _ & ->).
        rewrite Hrefused. eauto. }
    unfold r, exitStatus. rewrite (run_trace H fullConfig p _ _ _ Htry).
    cbn [exitCode trace fileSystem orDefault].
    assert (incl (report fullConfig e)
              (trace p ++ setupTrace (setup H fullConfig (fileSystem p)) ++ t
               ++ report fullConfig e ++ footer)) as Hincl
      by (intros x Hx; in_list).
    split; [reflexivity|]. split; [reflexivity|]. split; [exact Hincl|].
    split; [|split; [|split]].
    + unfold report. destruct (code e) as [c|]; [|simpl; eauto].
      destruct (String.eqb c ""); [simpl; eauto|].
      destruct (String.eqb c "EACCES"); [simpl; eauto|].
      destruct (String.eqb c "ENAMETOOLONG"); simpl; eauto.
    + intros Hcode. apply Hincl. unfold report. rewrite Hcode. simpl. auto.
    + intros Hcode. apply Hincl. unfold report. rewrite Hcode. simpl. auto.
    + intros Hcode. apply Hincl. unfold report. rewrite Hcode. simpl. auto.
Qed.

Lemma missing_directory_returns_other_failures_exit_1_witness :
  let missing :=
    mergeConfig defaultConfig
      (mkPartialConfig (Some "nowhere") None None None None None None None None None
         None None) in
  exitStatus (run Example.host missing (Example.fresh Example.components)) = 0%Z /\
  fileSystem (run Example.host missing (Example.fresh Example.components))
  = Example.components /\
  exitStatus (run Example.host defaultConfig (Example.fresh Example.readOnly)) = 1%Z /\
  In (Log ("Permission denied: Cannot access " +++ "/proj/src/components/ui/index.ts") error)
    (trace (run Example.host defaultConfig (Example.fresh Example.readOnly))).
Proof.
  intros missing.
  destruct (missing_directory_returns_other_failures_exit_1 Example.host missing
              (Example.fresh Example.components)) as (Hmissing & _).
  destruct (Hmissing (Example.enoent "/proj/nowhere") eq_refl eq_refl)
    as (_ & Hstatus & Hfs & _).
  destruct (missing_directory_returns_other_failures_exit_1 Example.host defaultConfig
              (Example.fresh Example.readOnly)) as (_ & Habort).
  assert (Aborts defaultConfig Example.readOnly Example.ui
            "/proj/src/components/ui/index.ts"
            (Example.eacces "/proj/src/components/ui/index.ts")) as Hrefused.
  { right. right. exists (mkStats true), ["card.tsx"; "button.tsx"].
    repeat split; reflexivity. }
  destruct (Habort _ Hrefused) as (_ & Hexit & _ & _ & Hmessage & _).
  split; [exact (Hstatus eq_refl)|]. split; [exact Hfs|]. split; [exact Hexit|].
  exact (Hmessage eq_refl).
Defined.

(** ** The extension policy *)

Lemma setup_useExplicitExtensions H fullConfig fs :
  useExplicitExtensions (setup H fullConfig fs)
  = forceExplicitExtensions fullConfig || fst (shouldUseExplicitExtensions H fs (cwd H)).
Proof.
  unfold setup.
  destruct (detectMonorepo H fs (cwd H)) as [isMonorepo t1].
  destruct (forceExplicitExtensions fullConfig);
    destruct (shouldUseExplicitExtensions H fs (cwd H)) as [detected t2];
    destruct isMonorepo; simpl;
    try destruct (findUIComponentsInMonorepo H fs (cwd H)) as [[?|] ?]; reflexivity.
Qed.

(** Where the override is consulted it decides the extension of every
    specifier. *)
Lemma override_under_explicit_extensions fullConfig s componentName :
  extensionOverride fullConfig <> "" ->
  extensionOf fullConfig true s componentName
  = if Str.startsWith (extensionOverride fullConfig) "."
    then extensionOverride fullConfig
    else "." +++ extensionOverride fullConfig.
Proof.
  intros Hne. unfold extensionOf.
  apply String.eqb_neq in Hne. now rewrite Hne.
Qed.

(** It is consulted only under [useExplicitExtensions]. *)
Lemma no_extension_without_explicit_extensions fullConfig s componentName :
  extensionOf fullConfig false s componentName = "".
Proof. reflexivity. Qed.

(** Without [--force-extensions] and without detection, no statement gets
    an extension, whatever the override is. *)
Lemma override_unused_when_nothing_asks_for_extensions H fullConfig fs s componentName :
  forceExplicitExtensions fullConfig = false ->
  fst (shouldUseExplicitExtensions H fs (cwd H)) = false ->
  extensionOf fullConfig (useExplicitExtensions (setup H fullConfig fs)) s componentName
  = "".
Proof.
  intros Hforce Hdetect. now rewrite setup_useExplicitExtensions, Hforce, Hdetect.
Qed.

(** C1 fails on the code.  In a project that is not detected as ESM,
    [--ext .jsx] without [--force-extensions] leaves
    [useExplicitExtensions] false, the override is not consulted, and the
    specifiers of the written file have no extension. *)
Theorem override_is_ignored_without_explicit_extensions :
  let fullConfig := mergeConfig defaultConfig Example.jsxOptions in
  let r := generateIndex Example.host Example.jsxOptions
             (Example.fresh Example.components) in
  extensionOverride fullConfig = ".jsx" /\
  useExplicitExtensions (setup Example.host fullConfig Example.components) = false /\
  readFile (fileSystem r) "/proj/src/components/ui/index.ts"
  = Ok (Defaults.headerComment
        +++ "export { Button, type ButtonProps } from " +++ dq +++ "./button" +++ dq
        +++ ";" +++ nl
        +++ "export { Card } from " +++ dq +++ "./card" +++ dq +++ ";" +++ nl).
Proof. repeat split; reflexivity. Qed.

(** ** Files that cannot be read or parsed *)

Lemma NoDup_map_inj {A B : Type} (k : A -> B) l x y :
  NoDup (map k l) -> In x l -> In y l -> k x = k y -> x = y.
Proof.
  induction l as [|a l IH]; simpl; [tauto|].
  intros Hnd Hx Hy E. inversion Hnd as [|? ? Hnin Hnd']; subst.
  destruct Hx as [->|Hx], Hy as [->|Hy]; auto.
  - exfalso. apply Hnin. rewrite E. now apply in_map.
  - exfalso. apply Hnin. rewrite <- E. now apply in_map.
Qed.

Lemma NoDup_map_filter {A B : Type} (k : A -> B) (p : A -> bool) l :
  NoDup (map k l) -> NoDup (map k (filter p l)).
Proof.
  induction l as [|a l IH]; simpl; [auto|].
  intros Hnd. inversion Hnd as [|? ? Hnin Hnd']; subst.
  destruct (p a); simpl; [|auto]. constructor; [|auto].
  intros Hin. apply Hnin. apply in_map_iff in Hin as (x & E & Hx).
  apply filter_In in Hx as [Hx _]. rewrite <- E. now apply in_map.
Qed.

Lemma lastWith_Some {A : Type} (p : A -> bool) l x :
  lastWith p l = Some x -> In x l /\ p x = true.
Proof.
  unfold lastWith. intros Hf. apply find_some in Hf as [Hin Hp].
  split; [now apply in_rev | exact Hp].
Qed.

(** With distinct keys, the last element with a key is the only one. *)
Lemma lastWith_unique {A : Type} (k : A -> string) (p : A -> bool) l f :
  NoDup (map k l) -> In f l -> p f = true ->
  (forall x, p x = true -> k x = k f) ->
  lastWith p l = Some f.
Proof.
  intros Hnd Hin Hp Hkey. destruct (lastWith p l) as [y|] eqn:E.
  - apply lastWith_Some in E as [Hy Hpy].
    f_equal. apply (NoDup_map_inj k l); auto.
  - unfold lastWith in E. apply in_rev in Hin.
    pose proof (find_none _ _ E f Hin) as Hnone. congruence.
Qed.

Section Failures.
Variable H : Host.
Variable fullConfig : Config.
Variable fs : FileSystem.
Variable componentsDir : string.

Lemma clauseOf_readSucceeds file clause :
  clauseOf H fullConfig fs componentsDir file = Some clause ->
  readSucceeds H fs componentsDir file = true.
Proof.
  unfold clauseOf, readSucceeds.
  now destruct (readSource H fs (path_join H componentsDir file) file).
Qed.

Lemma componentFilesOf_filter (p : string -> bool) files :
  componentFilesOf fullConfig (filter p files)
  = filter p (componentFilesOf fullConfig files).
Proof.
  unfold componentFilesOf. rewrite !filter_filter. apply filter_ext.
  intros file. apply andb_comm.
Qed.

Lemma stepExports_skips_failures l : forall m,
  fold_left (stepExports H fullConfig fs componentsDir)
    (filter (readSucceeds H fs componentsDir) l) m
  = fold_left (stepExports H fullConfig fs componentsDir) l m.
Proof.
  induction l as [|file l IH]; intros m; [reflexivity|]. simpl.
  destruct (readSucceeds H fs componentsDir file) eqn:E; simpl; [apply IH|].
  rewrite IH. f_equal. unfold stepExports.
  destruct (clauseOf H fullConfig fs componentsDir file) as [clause|] eqn:Ec;
    [|reflexivity].
  apply clauseOf_readSucceeds in Ec. congruence.
Qed.

Lemma reclassified_skips_failures l :
  list_sum (map (reclassifiedIn H fullConfig fs componentsDir)
              (filter (readSucceeds H fs componentsDir) l))
  = list_sum (map (reclassifiedIn H fullConfig fs componentsDir) l).
Proof.
  induction l as [|file l IH]; [reflexivity|]. simpl.
  destruct (readSucceeds H fs componentsDir file) eqn:E; simpl; [now rewrite IH|].
  rewrite IH. unfold reclassifiedIn. unfold readSucceeds in E.
  destruct (readSource H fs (path_join H componentsDir file) file);
    [discriminate | reflexivity].
Qed.

(** The files that fail contribute no export and no reclassification:
    the export clauses and the count are those of the listing without
    them. *)
Lemma failed_files_contribute_nothing files :
  let s := fst (scan H fullConfig fs componentsDir files) in
  let s' := fst (scan H fullConfig fs componentsDir
                   (filter (readSucceeds H fs componentsDir) files)) in
  componentExports s = componentExports s' /\
  typesDetectedCount s = typesDetectedCount s'.
Proof.
  intros s s'.
  destruct (scan_state H fullConfig fs componentsDir files) as (Hce & _ & _ & Htc).
  destruct (scan_state H fullConfig fs componentsDir
              (filter (readSucceeds H fs componentsDir) files)) as (Hce' & _ & _ & Htc').
  fold s in Hce, Htc. fold s' in Hce', Htc'.
  rewrite Hce, Hce', Htc, Htc', componentFilesOf_filter.
  now rewrite stepExports_skips_failures, reclassified_skips_failures.
Qed.

(** Every failing file is reported and every component file is read,
    whatever came before it. *)
Lemma failed_file_is_reported_and_loop_goes_on files file e :
  In file (componentFilesOf fullConfig files) ->
  readSource H fs (path_join H componentsDir file) file = Throw e ->
  let t := snd (scan H fullConfig fs componentsDir files) in
  In (ConsoleWarn ("Warning: Could not process file " +++ file +++ ":") e) t /\
  forall other, In other (componentFilesOf fullConfig files) ->
    In (FsReadFile (path_join H componentsDir other)) t.
Proof.
  intros Hin Hthrow t. split.
  - unfold t, scan.
    generalize (List.length (componentFilesOf fullConfig files)) as total.
    generalize emptyLoopState as s.
    induction (componentFilesOf fullConfig files) as [|f l IH]; intros s total;
      [destruct Hin|].
    rewrite processFiles_trace_cons. apply in_or_app.
    destruct Hin as [->|Hin]; [left | right; now apply IH].
    now destruct (processFile_throw H fullConfig fs componentsDir total s file e Hthrow)
      as (_ & _ & _ & _ & Hw).
  - intros other Hother. now apply processFiles_reads.
Qed.

Lemma statementOf_ext useExplicit s s' componentName :
  JsMap.get (componentExports s) componentName
  = JsMap.get (componentExports s') componentName ->
  JsMap.get (fileExtensions s) componentName
  = JsMap.get (fileExtensions s') componentName ->
  statementOf fullConfig useExplicit s componentName
  = statementOf fullConfig useExplicit s' componentName.
Proof.
  intros Hce Hfe. unfold statementOf, extensionOf. now rewrite Hce, Hfe.
Qed.

(** When no two component files share a base name, the generated text is
    the one of the listing without the failing files. *)
Lemma failed_files_leave_text_when_names_distinct useExplicit files :
  NoDup (map componentNameOf (componentFilesOf fullConfig files)) ->
  indexContentOf H fullConfig useExplicit fs componentsDir files
  = indexContentOf H fullConfig useExplicit fs componentsDir
      (filter (readSucceeds H fs componentsDir) files).
Proof.
  intros Hnd. unfold indexContentOf. rewrite !renderIndex_concat.
  destruct (failed_files_contribute_nothing files) as (Hce & _).
  set (s := fst (scan H fullConfig fs componentsDir files)) in *.
  set (s' := fst (scan H fullConfig fs componentsDir
                    (filter (readSucceeds H fs componentsDir) files))) in *.
  assert (componentNamesOf fullConfig s = componentNamesOf fullConfig s') as Hnames
    by (unfold componentNamesOf; now rewrite Hce).
  rewrite <- Hnames. do 2 f_equal. apply map_ext_in. intros name Hname.
  apply statementOf_ext; [now rewrite Hce|].
  assert (In name (JsMap.keys (componentExports s))) as Hkey.
  { unfold componentNamesOf in Hname. destruct (sortAlphabetically fullConfig); auto.
    eapply Permutation_in; [apply Permutation_sym, sort_perm | exact Hname]. }
  apply JsMapFacts.get_In_keys in Hkey as [clause Hget].
  pose proof (scan_clause H fullConfig fs componentsDir files name) as Hclause.
  pose proof (scan_extension H fullConfig fs componentsDir files name) as Hext.
  pose proof (scan_extension H fullConfig fs componentsDir
                (filter (readSucceeds H fs componentsDir) files) name) as Hext'.
  fold s in Hclause, Hext. fold s' in Hext'.
  rewrite Hget in Hclause.
  destruct (lastWith _ (componentFilesOf fullConfig files)) as [f|] eqn:Ef in Hclause;
    [|discriminate].
  apply lastWith_Some in Ef as [Hin Hp]. apply andb_true_iff in Hp as [Hn _].
  apply String.eqb_eq in Hn.
  assert (forall x, String.eqb (componentNameOf x) name = true ->
                    componentNameOf x = componentNameOf f) as Hsame
    by (intros x Hx; apply String.eqb_eq in Hx; congruence).
  assert (String.eqb (componentNameOf f) name = true) as Hpf
    by (apply String.eqb_eq; exact Hn).
  rewrite Hext, Hext', componentFilesOf_filter.
  rewrite (lastWith_unique componentNameOf _ _ f Hnd Hin Hpf Hsame).
  rewrite (lastWith_unique componentNameOf _ _ f
             (NoDup_map_filter _ _ _ Hnd)); auto.
  apply filter_In. split; [exact Hin|].
  symmetry in Hclause. now apply clauseOf_readSucceeds in Hclause.
Qed.

End Failures.

(** C3 fails on the code.  [button.tsx] cannot be read: it is reported,
    it contributes no export, and [button.ts] before it is exported; but
    its extension was recorded before the [try], under the base name it
    shares with [button.ts], and with [--force-extensions] the statement
    of [button.ts] names [./button.tsx].  The directory without the
    failing file gives [./button.ts]. *)
Theorem failed_file_leaves_its_extension :
  let output := "/proj/src/components/ui/index.ts" in
  let r := generateIndex Example.host Example.forceOptions
             (Example.fresh Example.brokenTwin) in
  let r' := generateIndex Example.host Example.forceOptions
              (Example.fresh Example.withoutTwin) in
  filter (readSucceeds Example.host Example.brokenTwin Example.ui)
    ["button.ts"; "button.tsx"] = ["button.ts"] /\
  In (ConsoleWarn ("Warning: Could not process file " +++ "button.tsx" +++ ":")
        (Example.eacces "/proj/src/components/ui/button.tsx")) (trace r) /\
  readFile (fileSystem r) output
  = Ok (Defaults.headerComment
        +++ "export { Card } from " +++ dq +++ "./button.tsx" +++ dq +++ ";" +++ nl) /\
  readFile (fileSystem r') output
  = Ok (Defaults.headerComment
        +++ "export { Card } from " +++ dq +++ "./button.ts" +++ dq +++ ";" +++ nl) /\
  readFile (fileSystem r) output <> readFile (fileSystem r') output.
Proof.
  repeat split; try reflexivity.
  - vm_compute. auto 40.
  - vm_compute. discriminate.
Qed.

(** * Further properties *)

(** Finds an effect in a trace built with [::], [++] and [if]. *)
Ltac in_trace :=
  match goal with
  | Hin : In ?x ?l |- In ?x ?l => exact Hin
  | |- In _ (_ :: _) => first [apply in_eq | apply in_cons; in_trace]
  | |- In _ (_ ++ _) => apply in_or_app; ((left; in_trace) || (right; in_trace))
  end.

(** ** The extractor: what is recorded, and in which order *)

Lemma fold_pushSpecifier_exports x elements :
  In x (exports (fold_left pushSpecifier elements noExports))
  <-> exists element,
        In element elements /\ isTypeOnly element = false /\ name element = x.
Proof.
  induction elements as [|e elements IH]; simpl.
  - split; [intros [] | intros (e & [] & _)].
  - rewrite (fold_appends _ pushSpecifier_appends). simpl. rewrite in_app_iff, IH.
    unfold pushSpecifier. split.
    + intros [Hin|(e' & Hin & Hrest)]; [|exists e'; tauto].
      destruct (isTypeOnly e) eqn:E; simpl in Hin; [destruct Hin|].
      destruct Hin as [<-|[]]. exists e. auto.
    + intros (e' & [->|Hin] & Hty & Hname); [left | right; exists e'; auto].
      rewrite Hty. simpl. auto.
Qed.

Lemma fold_pushSpecifier_typeExports x elements :
  In x (typeExports (fold_left pushSpecifier elements noExports))
  <-> exists element,
        In element elements /\ isTypeOnly element = true /\ name element = x.
Proof.
  induction elements as [|e elements IH]; simpl.
  - split; [intros [] | intros (e & [] & _)].
  - rewrite (fold_appends _ pushSpecifier_appends). simpl. rewrite in_app_iff, IH.
    unfold pushSpecifier. split.
    + intros [Hin|(e' & Hin & Hrest)]; [|exists e'; tauto].
      destruct (isTypeOnly e) eqn:E; simpl in Hin; [|destruct Hin].
      destruct Hin as [<-|[]]. exists e. auto.
    + intros (e' & [->|Hin] & Hty & Hname); [left | right; exists e'; auto].
      rewrite Hty. simpl. auto.
Qed.

Lemma fold_pushDeclaration_exports x declarations :
  In x (exports (fold_left pushDeclaration declarations noExports))
  <-> In (Identifier x) declarations.
Proof.
  induction declarations as [|d ds IH]; simpl; [tauto|].
  rewrite (fold_appends _ pushDeclaration_appends). simpl. rewrite in_app_iff, IH.
  destruct d as [text|]; simpl; split.
  - intros [[<-|[]]|Hin]; auto.
  - intros [E|Hin]; [inversion E; auto | auto].
  - intros [[]|Hin]; auto.
  - intros [E|Hin]; [discriminate | auto].
Qed.

Lemma fold_pushDeclaration_typeExports declarations :
  typeExports (fold_left pushDeclaration declarations noExports) = [].
Proof.
  induction declarations as [|d ds IH]; simpl; [reflexivity|].
  rewrite (fold_appends _ pushDeclaration_appends). simpl. rewrite IH.
  now destruct d.
Qed.

Lemma visitOwn_value k x :
  In x (exports (visitOwn k noExports)) <-> RecordsValue k x.
Proof.
  destruct k as [clause|ms ds|ms n|ms n|ms n|eq e|]; simpl.
  - destruct clause as [[els|]|]; simpl; try tauto.
    apply fold_pushSpecifier_exports.
  - destruct (hasExportModifier ms); simpl.
    + rewrite fold_pushDeclaration_exports. tauto.
    + split; [intros [] | intros [E _]; discriminate].
  - destruct n; [destruct (hasExportModifier ms)|]; simpl; tauto.
  - destruct n; [destruct (hasExportModifier ms)|]; simpl; tauto.
  - destruct n as [t|]; [|simpl; tauto].
    destruct (hasExportModifier ms); simpl.
    + split; [intros [<-|[]]; auto | intros [_ ->]; auto].
    + split; [intros [] | intros [E _]; discriminate].
  - destruct eq; [simpl; tauto|].
    destruct e as [t| | |]; simpl; try tauto;
      (split; [intros [<-|[]]; reflexivity | intros ->; auto]).
  - tauto.
Qed.

Lemma visitOwn_type k x :
  In x (typeExports (visitOwn k noExports)) <-> RecordsType k x.
Proof.
  destruct k as [clause|ms ds|ms n|ms n|ms n|eq e|]; simpl.
  - destruct clause as [[els|]|]; simpl; try tauto.
    apply fold_pushSpecifier_typeExports.
  - destruct (hasExportModifier ms); simpl; [|tauto].
    rewrite fold_pushDeclaration_typeExports. simpl. tauto.
  - destruct n as [t|]; [|simpl; tauto].
    destruct (hasExportModifier ms); simpl.
    + split; [intros [<-|[]]; auto | intros [_ ->]; auto].
    + split; [intros [] | intros [E _]; discriminate].
  - destruct n as [t|]; [|simpl; tauto].
    destruct (hasExportModifier ms); simpl.
    + split; [intros [<-|[]]; auto | intros [_ ->]; auto].
    + split; [intros [] | intros [E _]; discriminate].
  - destruct n; [destruct (hasExportModifier ms)|]; simpl; tauto.
  - destruct eq; [simpl; tauto|]. destruct e; simpl; tauto.
  - tauto.
Qed.

(** The exports of the children of a node, one after the other. *)
Lemma children_exports cs :
  exports (fold_right (fun c r => appendExports (extractExports c) r) noExports cs)
  = List.concat (map (fun c => exports (extractExports c)) cs) /\
  typeExports (fold_right (fun c r => appendExports (extractExports c) r) noExports cs)
  = List.concat (map (fun c => typeExports (extractExports c)) cs).
Proof.
  induction cs as [|c cs [IHv IHt]]; simpl; [auto|].
  now rewrite IHv, IHt.
Qed.

(** X1. The names are collected in the order of the file: what the
    node itself records, then what each child gives, from the first child
    to the last; nothing is merged, so a name recorded twice is there
    twice. *)
Theorem extractExports_in_file_order (k : NodeKind) (cs : list Node) :
  exports (extractExports (mkNode k cs))
  = exports (visitOwn k noExports)
    ++ List.concat (map (fun c => exports (extractExports c)) cs) /\
  typeExports (extractExports (mkNode k cs))
  = typeExports (visitOwn k noExports)
    ++ List.concat (map (fun c => typeExports (extractExports c)) cs) /\
  forall x,
    count_occ string_dec (exports (extractExports (mkNode k cs))) x
    = count_occ string_dec (exports (visitOwn k noExports)) x
      + list_sum (map (fun c => count_occ string_dec (exports (extractExports c)) x) cs).
Proof.
  rewrite extractExports_node. simpl.
  destruct (children_exports cs) as [-> ->].
  split; [reflexivity|]. split; [reflexivity|].
  intros x. rewrite count_occ_app. f_equal.
  induction cs as [|c cs IH]; simpl; [reflexivity|].
  now rewrite count_occ_app, IH.
Qed.

(** X2. A name is among the value exports of a file exactly when some
    node of its tree records it as one: a specifier of [export { ... }]
    that is not type-only (under its exported name), an identifier
    declared by an exported variable statement, an exported named
    function, the identifier of [export default], or [default] for a
    default export of a function or arrow expression.  It is among the type
    exports exactly when some node is a type-only specifier of that name,
    or an exported type alias or interface of that name. *)
Theorem extractExports_records_exactly (sourceFile : Node) (x : string) :
  (In x (exports (extractExports sourceFile))
   <-> exists m, Inside m sourceFile /\ RecordsValue (kind m) x) /\
  (In x (typeExports (extractExports sourceFile))
   <-> exists m, Inside m sourceFile /\ RecordsType (kind m) x).
Proof.
  split; split.
  - induction sourceFile as [k cs IH] using Node_ind.
    rewrite extractExports_node. simpl. destruct (children_exports cs) as [-> _].
    rewrite in_app_iff. intros [Hown|Hchild].
    + exists (mkNode k cs). split; [constructor | now apply visitOwn_value].
    + apply in_concat in Hchild as (l & Hl & Hx).
      apply in_map_iff in Hl as (c & <- & Hc).
      rewrite Forall_forall in IH. destruct (IH c Hc Hx) as (m & Hm & Hr).
      exists m. split; [now apply Inside_child with c | exact Hr].
  - intros (m & Hm & Hr). apply extractExports_inside in Hm as [Hv _].
    apply Hv. now apply visitOwn_value.
  - induction sourceFile as [k cs IH] using Node_ind.
    rewrite extractExports_node. simpl. destruct (children_exports cs) as [_ ->].
    rewrite in_app_iff. intros [Hown|Hchild].
    + exists (mkNode k cs). split; [constructor | now apply visitOwn_type].
    + apply in_concat in Hchild as (l & Hl & Hx).
      apply in_map_iff in Hl as (c & <- & Hc).
      rewrite Forall_forall in IH. destruct (IH c Hc Hx) as (m & Hm & Hr).
      exists m. split; [now apply Inside_child with c | exact Hr].
  - intros (m & Hm & Hr). apply extractExports_inside in Hm as [_ Ht].
    apply Ht. now apply visitOwn_type.
Qed.

Lemma appendExports_noExports_l a : appendExports noExports a = a.
Proof. now destruct a. Qed.

Lemma unrecognized_records_nothing k :
  unrecognized k = true -> visitOwn k noExports = noExports.
Proof.
  destruct k as [clause|ms ds|ms n|ms n|ms n|eq e|]; simpl.
  - destruct clause as [[[|el els]|]|]; simpl; auto; discriminate.
  - now destruct (hasExportModifier ms).
  - destruct n; now destruct (hasExportModifier ms).
  - destruct n; now destruct (hasExportModifier ms).
  - destruct n; [|reflexivity]. now destruct (hasExportModifier ms).
  - destruct eq; [reflexivity|]. destruct e; auto; discriminate.
  - reflexivity.
Qed.

(** X3. A file in which every node is of a kind the extractor does
    not recognise (classes, [export * from], [export =], a default export
    of some other expression, an exported function without a name,
    declarations without [export]) gives no export at all. *)
Theorem unrecognized_constructs_give_nothing (sourceFile : Node) :
  (forall m, Inside m sourceFile -> unrecognized (kind m) = true) ->
  extractExports sourceFile = noExports.
Proof.
  induction sourceFile as [k cs IH] using Node_ind. intros Hall.
  rewrite extractExports_node.
  rewrite (unrecognized_records_nothing k) by (apply (Hall (mkNode k cs)); constructor).
  rewrite appendExports_noExports_l.
  assert (forall c, In c cs -> extractExports c = noExports) as Hchildren.
  { rewrite Forall_forall in IH. intros c Hc. apply (IH c Hc).
    intros m Hm. apply Hall. now apply Inside_child with c. }
  clear IH Hall. induction cs as [|c cs IHcs]; [reflexivity|]. simpl.
  rewrite (Hchildren c) by (simpl; auto).
  rewrite IHcs; [reflexivity|]. intros c' Hc'. apply Hchildren. simpl. auto.
Qed.

Lemma unrecognized_constructs_give_nothing_witness :
  extractExports silentTree = noExports.
Proof.
  apply (unrecognized_constructs_give_nothing silentTree).
  intros m Hm. inversion Hm as [|k cs c Hin Hc]; subst; [reflexivity|].
  simpl in Hin.
  destruct Hin as [<-|[<-|[<-|[<-|[]]]]];
    (inversion Hc as [|? ? ? Hin' ?]; subst; [reflexivity | destruct Hin']).
Defined.

(** ** The loop: clauses, skipped files, warnings, counts *)

Lemma filter_partition_length {A : Type} (p : A -> bool) l :
  List.length (filter p l) + List.length (filter (fun x => negb (p x)) l) = List.length l.
Proof.
  induction l as [|x l IH]; simpl; [reflexivity|].
  destruct (p x); simpl; lia.
Qed.

(** The clause that the loop body stores, when every pattern answers as
    with [lastIndex] 0: the value exports that no type pattern matches,
    then the declared type exports and the reclassified value exports,
    each behind [type]. *)
Lemma clause_layout_of_the_loop
  (H : Host) (fullConfig : Config) (fs : FileSystem)
  (componentsDir : string) (total : nat) (s : LoopState)
  (file : string) (sourceFile : Node) :
  readSource H fs (path_join H componentsDir file) file = Ok sourceFile ->
  let ex := extractExports sourceFile in
  let clause := clauseLayout fullConfig ex in
  let s' := fst (processFile H fullConfig fs componentsDir total s file) in
  List.length clause = List.length (exports ex) + List.length (typeExports ex) /\
  (clause <> [] ->
   JsMap.get (componentExports s') (componentNameOf file) = Some clause) /\
  (clause = [] -> componentExports s' = componentExports s).
Proof.
  intros Hread ex clause s'.
  assert (allExportsOf (classify fullConfig file ex (typesDetectedCount s)) = clause)
    as Hclause by apply allExportsOf_classify.
  split; [|split].
  - unfold clause, clauseLayout. rewrite length_app, length_map, length_app.
    pose proof (filter_partition_length (isType fullConfig) (exports ex)). lia.
  - intros Hne.
    destruct (processFile_ok H fullConfig fs componentsDir total s file sourceFile Hread)
      as (Hce & _).
    + fold ex. now rewrite Hclause.
    + fold s' in Hce. rewrite Hce. fold ex. rewrite Hclause.
      apply JsMapFacts.get_set_same.
  - intros Hnil.
    destruct (processFile_empty H fullConfig fs componentsDir total s file sourceFile Hread)
      as (Hce & _).
    + fold ex. now rewrite Hclause.
    + exact Hce.
Qed.

Lemma classify_notices_logs fullConfig file names : forall c,
  Forall IsLog (notices c) ->
  Forall IsLog (notices (fold_left (classifyStep fullConfig file) names c)).
Proof.
  induction names as [|n names IH]; intros c Hc; simpl; [assumption|].
  apply IH. unfold classifyStep.
  destruct (shouldBeType n (typePatterns fullConfig)); simpl; [|assumption].
  apply Forall_app. split; [assumption|].
  destruct (verbose fullConfig); repeat constructor.
Qed.

Lemma processFile_warns H fullConfig fs componentsDir total s file text e :
  In (ConsoleWarn text e) (snd (processFile H fullConfig fs componentsDir total s file))
  <-> readSource H fs (path_join H componentsDir file) file = Throw e /\
      text = "Warning: Could not process file " +++ file +++ ":".
Proof.
  unfold processFile.
  destruct (readSource H fs (path_join H componentsDir file) file) as [sourceFile|e'];
    simpl.
  - split; [|intros [E _]; discriminate].
    intros [E|Hin]; [discriminate|]. apply in_app_or in Hin as [Hin|Hin].
    + pose proof (classify_notices_logs fullConfig file
                    (exports (extractExports sourceFile))
                    (mkClassified [] (typeExports (extractExports sourceFile))
                       (typesDetectedCount s) []) (Forall_nil _)) as Hlogs.
      rewrite Forall_forall in Hlogs. destruct (Hlogs _ Hin).
    + destruct (verbose fullConfig); simpl in Hin; [destruct Hin as [E|[]]|destruct Hin].
      discriminate.
  - split.
    + intros [E|[E|Hin]]; [discriminate | inversion E; auto |].
      destruct (verbose fullConfig); simpl in Hin; [destruct Hin as [E|[]]|destruct Hin].
      discriminate.
    + intros [E ->]. inversion E. auto.
Qed.

(** X5. The loop warns about a file exactly when reading or parsing
    that component file throws, with the error that was thrown and the
    name of the file; files that are read and parsed, with or without
    exports, are never reported. *)
Theorem warnings_are_the_failed_files
  (H : Host) (fullConfig : Config) (fs : FileSystem)
  (componentsDir : string) (files : list string) (text : string) (e : FileSystemError) :
  In (ConsoleWarn text e) (snd (scan H fullConfig fs componentsDir files))
  <-> exists file,
        In file (componentFilesOf fullConfig files) /\
        readSource H fs (path_join H componentsDir file) file = Throw e /\
        text = "Warning: Could not process file " +++ file +++ ":".
Proof.
  unfold scan.
  generalize (List.length (componentFilesOf fullConfig files)) as total.
  generalize emptyLoopState as s.
  induction (componentFilesOf fullConfig files) as [|f l IH]; intros s total.
  - simpl. split; [intros [] | intros (file & [] & _)].
  - rewrite processFiles_trace_cons, in_app_iff, processFile_warns, IH. split.
    + intros [[Hthrow ->]|(file & Hin & Hrest)].
      * exists f. simpl. auto.
      * exists file. simpl. tauto.
    + intros (file & [->|Hin] & Hthrow & ->); [left; auto | right; exists file; auto].
Qed.

Lemma clauseOf_layout H fullConfig fs componentsDir file clause :
  clauseOf H fullConfig fs componentsDir file = Some clause ->
  clause <> [] /\
  exists sourceFile,
    readSource H fs (path_join H componentsDir file) file = Ok sourceFile /\
    clause = clauseLayout fullConfig (extractExports sourceFile).
Proof.
  unfold clauseOf.
  destruct (readSource H fs (path_join H componentsDir file) file) as [sourceFile|e];
    [|discriminate].
  rewrite allExportsOf_classify. fold (clauseLayout fullConfig (extractExports sourceFile)).
  destruct (clauseLayout fullConfig (extractExports sourceFile)) as [|x l] eqn:E; simpl;
    [discriminate|].
  intros Hsome. inversion Hsome; subst. split; [discriminate|]. eauto.
Qed.

(** X6. Whatever the listing, every export list that reaches the
    rendering is non-empty and is the clause of a component file of the
    listing that was read and parsed and whose base name is the component
    name: no statement without names, and no statement for a file that is
    filtered out, unreadable or absent. *)
Theorem statements_come_from_parsed_component_files
  (H : Host) (fullConfig : Config) (fs : FileSystem)
  (componentsDir : string) (files : list string)
  (componentName : string) (clause : list string) :
  JsMap.get (componentExports (fst (scan H fullConfig fs componentsDir files)))
    componentName = Some clause ->
  clause <> [] /\
  exists file sourceFile,
    In file files /\ isComponentFile fullConfig file = true /\
    componentNameOf file = componentName /\
    readSource H fs (path_join H componentsDir file) file = Ok sourceFile /\
    clause = clauseLayout fullConfig (extractExports sourceFile).
Proof.
  rewrite scan_clause.
  destruct (lastWith _ (componentFilesOf fullConfig files)) as [file|] eqn:E;
    [|discriminate].
  intros Hclause. apply lastWith_Some in E as [Hin Hp].
  apply andb_true_iff in Hp as [Hname _]. apply String.eqb_eq in Hname.
  apply filter_In in Hin as [Hin Hcomp].
  destruct (clauseOf_layout _ _ _ _ _ _ Hclause) as (Hne & sourceFile & Hread & ->).
  split; [exact Hne|]. exists file, sourceFile. auto.
Qed.

Lemma statements_come_from_parsed_component_files_witness :
  exists file sourceFile,
    In file ["card.tsx"; "button.tsx"] /\ isComponentFile defaultConfig file = true /\
    componentNameOf file = "button" /\
    readSource Example.host Example.components
      (path_join Example.host Example.ui file) file = Ok sourceFile /\
    ["Button"; "type ButtonProps"] = clauseLayout defaultConfig (extractExports sourceFile).
Proof.
  exact (proj2 (statements_come_from_parsed_component_files Example.host defaultConfig
                  Example.components Example.ui ["card.tsx"; "button.tsx"]
                  "button" ["Button"; "type ButtonProps"] eq_refl)).
Defined.

(** The two numbers of the summary, when every pattern answers as with
    [lastIndex] 0. *)
Lemma summary_of_the_loop
  (H : Host) (fullConfig : Config) (useExplicit : bool) (fs : FileSystem)
  (componentsDir output : string) (files : list string) :
  let t := snd (fst (generateFrom H fullConfig useExplicit fs componentsDir output files)) in
  let componentFiles := componentFilesOf fullConfig files in
  processedCount (fst (scan H fullConfig fs componentsDir files))
  = List.length componentFiles /\
  In (Log ("Found " +++ Str.ofNat (List.length componentFiles) +++ " component files")
        highlight) t /\
  In (Log ("Detected "
           +++ Str.ofNat
                 (list_sum (map (reclassifiedIn H fullConfig fs componentsDir)
                              componentFiles))
           +++ " type exports that need the 'type' keyword") highlight) t.
Proof.
  intros t componentFiles.
  destruct (scan_state H fullConfig fs componentsDir files) as (_ & _ & Hpc & Htc).
  split; [exact Hpc|].
  unfold t, generateFrom. fold componentFiles.
  destruct (scan H fullConfig fs componentsDir files) as [s loop]. simpl in Htc.
  fold componentFiles in Htc. rewrite <- Htc.
  destruct (dryRun fullConfig); [|destruct (writeFile fs output _) as [[?|?] ?]];
    cbn [fst snd]; split; in_trace.
Qed.

(** ** Runs that reach the end *)

Section NoErrorLog.
Variable H : Host.
Variable fullConfig : Config.
Variable fs : FileSystem.

Lemma firstStat_NotErrorLog accept base candidates :
  Forall NotErrorLog (snd (firstStat H fs accept base candidates)).
Proof.
  induction candidates as [|c rest IH]; simpl; [constructor|].
  destruct (stat fs (path_join H base c)) as [st|e].
  - destruct (accept st); [quiet|].
    destruct (firstStat H fs accept base rest). simpl in *. quiet.
  - destruct (firstStat H fs accept base rest). simpl in *. quiet.
Qed.

Lemma setup_NotErrorLog : Forall NotErrorLog (setupTrace (setup H fullConfig fs)).
Proof.
  unfold setup, detectMonorepo, findUIComponentsInMonorepo, shouldUseExplicitExtensions.
  pose proof (firstStat_NotErrorLog (fun _ => true) (cwd H) monorepoConfigs) as H1.
  pose proof (firstStat_NotErrorLog isDirectory (cwd H) monorepoDirs) as H2.
  pose proof (firstStat_NotErrorLog isDirectory (cwd H) commonPaths) as H3.
  destruct (firstStat H fs (fun _ => true) (cwd H) monorepoConfigs) as [[?|] t1];
    destruct (firstStat H fs isDirectory (cwd H) monorepoDirs) as [[?|] t2];
    destruct (firstStat H fs isDirectory (cwd H) commonPaths) as [[?|] t3];
    destruct (forceExplicitExtensions fullConfig);
    destruct (packageIsModule H fs (cwd H));
    try destruct (tsconfigAsksForExtensions H fs (cwd H));
    simpl in *; quiet.
Qed.

Lemma classify_NotErrorLog file names : forall c,
  Forall NotErrorLog (notices c) ->
  Forall NotErrorLog (notices (fold_left (classifyStep fullConfig file) names c)).
Proof.
  induction names as [|n names IH]; intros c Hc; simpl; [assumption|].
  apply IH. unfold classifyStep.
  destruct (shouldBeType n (typePatterns fullConfig)); simpl; quiet.
Qed.

Lemma processFiles_NotErrorLog componentsDir total files : forall s,
  Forall NotErrorLog (snd (processFiles H fullConfig fs componentsDir total s files)).
Proof.
  induction files as [|file rest IH]; intros s; [constructor|].
  rewrite processFiles_trace_cons. apply Forall_app. split; [|apply IH].
  unfold processFile.
  destruct (readSource H fs (path_join H componentsDir file) file) as [sourceFile|e];
    simpl; [|quiet].
  constructor; [reflexivity|]. apply Forall_app. split; [|quiet].
  apply classify_NotErrorLog. constructor.
Qed.

(** The [try] block of a run that gets the listing and either is a dry
    run or is allowed to write. *)
Lemma tryBlock_completes useExplicit componentsDir output st files :
  stat fs componentsDir = Ok st -> readdir fs componentsDir = Ok files ->
  dryRun fullConfig = true \/ writeRefused fs output = None ->
  exists t fs',
    tryBlock H fullConfig useExplicit fs componentsDir output = (Completed, t, fs') /\
    Forall NotErrorLog t.
Proof.
  intros Hstat Hdir Hmode.
  rewrite (tryBlock_listed H fullConfig useExplicit fs componentsDir output st files Hstat Hdir).
  unfold generateFrom.
  pose proof (processFiles_NotErrorLog componentsDir
                (List.length (componentFilesOf fullConfig files))
                (componentFilesOf fullConfig files) emptyLoopState) as Hloop.
  fold (scan H fullConfig fs componentsDir files) in Hloop.
  destruct (scan H fullConfig fs componentsDir files) as [s loop]. simpl in Hloop.
  destruct (dryRun fullConfig) eqn:Hdry.
  - eexists _, _. split; [reflexivity|]. unfold banner. quiet.
  - destruct Hmode as [E|Hfree]; [discriminate|].
    unfold writeFile. rewrite Hfree.
    eexists _, _. split; [reflexivity|]. unfold banner. quiet.
Qed.

End NoErrorLog.

(** X8. A run that gets the listing of the directory, and is a dry run
    or is allowed to write, ends normally whatever happens to the single
    files: [process.exitCode] is what it was before, even when every
    component file fails to be read, and no line of type [error] is
    logged. *)
Theorem completed_run_keeps_exit_code
  (H : Host) (fullConfig : Config) (p : Process) (st0 : Stats) (files : list string) :
  let fs := fileSystem p in
  let st := setup H fullConfig fs in
  stat fs (scannedDir st) = Ok st0 ->
  readdir fs (scannedDir st) = Ok files ->
  dryRun fullConfig = true \/ writeRefused fs (outputFilePath st) = None ->
  let r := run H fullConfig p in
  exitCode r = exitCode p /\
  exists new, trace r = trace p ++ new /\ Forall NotErrorLog new.
Proof.
  intros fs st Hstat Hdir Hmode r.
  destruct (tryBlock_completes H fullConfig fs (useExplicitExtensions st)
              (scannedDir st) (outputFilePath st) st0 files Hstat Hdir Hmode)
    as (t & fs' & Htry & Ht).
  unfold r. rewrite (run_trace H fullConfig p _ _ _ Htry). cbn [exitCode trace].
  split; [reflexivity|]. eexists. split; [reflexivity|].
  pose proof (setup_NotErrorLog H fullConfig fs) as Hsetup. fold st.
  unfold footer. quiet.
Qed.

Lemma completed_run_keeps_exit_code_witness :
  let r := run Example.host (mergeConfig defaultConfig Example.forceOptions)
             (Example.fresh Example.brokenTwin) in
  exitCode r = None /\
  exists new, trace r = [] ++ new /\ Forall NotErrorLog new.
Proof.
  exact (completed_run_keeps_exit_code Example.host
           (mergeConfig defaultConfig Example.forceOptions)
           (Example.fresh Example.brokenTwin) (mkStats true)
           ["button.ts"; "button.tsx"] eq_refl eq_refl (or_intror eq_refl)).
Defined.

(** ** The probe *)

Section ProbeFacts.
Variable H : Host.
Variable fs : FileSystem.

Lemma Accepted_dec accept p : Accepted fs accept p \/ ~ Accepted fs accept p.
Proof.
  unfold Accepted. destruct (stat fs p) as [st|e].
  - destruct (accept st) eqn:E; [left; eauto|].
    right. intros (st' & E' & Ha). inversion E'; subst. congruence.
  - right. intros (st' & E' & _). discriminate.
Qed.

Lemma firstStat_None accept base candidates :
  fst (firstStat H fs accept base candidates) = None
  <-> forall c, In c candidates -> ~ Accepted fs accept (path_join H base c).
Proof.
  induction candidates as [|c rest IH]; simpl.
  - split; [intros _ c [] | reflexivity].
  - unfold Accepted in *. destruct (stat fs (path_join H base c)) as [st|e] eqn:Es.
    + destruct (accept st) eqn:Ea; simpl.
      * split; [discriminate|]. intros Hall. exfalso.
        apply (Hall c (or_introl eq_refl)). rewrite Es. eauto.
      * destruct (firstStat H fs accept base rest) as [r t]. simpl in *.
        rewrite IH. split.
        -- intros Hall c' [<-|Hin]; [|auto].
           rewrite Es. intros (st' & E' & Ha'). inversion E'; subst. congruence.
        -- intros Hall c' Hin. apply Hall. auto.
    + destruct (firstStat H fs accept base rest) as [r t]. simpl in *.
      rewrite IH. split.
      * intros Hall c' [<-|Hin]; [|auto].
        rewrite Es. intros (st' & E' & _). discriminate.
      * intros Hall c' Hin. apply Hall. auto.
Qed.

Lemma firstStat_Some accept base candidates full :
  fst (firstStat H fs accept base candidates) = Some full
  <-> exists before c after,
        candidates = before ++ c :: after /\
        full = path_join H base c /\
        Accepted fs accept full /\
        forall b, In b before -> ~ Accepted fs accept (path_join H base b).
Proof.
  induction candidates as [|c rest IH]; simpl.
  - split; [discriminate|]. intros (before & c & after & E & _).
    destruct before; discriminate.
  - assert (forall b before, (forall x, In x (b :: before) ->
                ~ Accepted fs accept (path_join H base x)) ->
              ~ Accepted fs accept (path_join H base b)) as Hhead
      by (intros b before Hall; apply Hall; simpl; auto).
    destruct (stat fs (path_join H base c)) as [st|e] eqn:Es.
    + destruct (accept st) eqn:Ea; simpl.
      * split.
        -- intros E. inversion E; subst. exists [], c, rest.
           split; [reflexivity|]. split; [reflexivity|].
           split; [exists st; auto | intros b []].
        -- intros ([|b before] & c' & after & E & -> & Hacc & Hrej);
             inversion E; subst; [reflexivity|].
           exfalso. apply (Hhead _ _ Hrej). exists st. auto.
      * destruct (firstStat H fs accept base rest) as [r t]. simpl in *.
        rewrite IH. split.
        -- intros (before & c' & after & -> & -> & Hacc & Hrej).
           exists (c :: before), c', after. repeat split; auto.
           intros b [<-|Hin]; [|auto].
           intros (st' & E' & Ha'). rewrite Es in E'. inversion E'; subst. congruence.
        -- intros ([|b before] & c' & after & E & -> & Hacc & Hrej); inversion E; subst.
           ++ destruct Hacc as (st' & E' & Ha'). rewrite Es in E'.
              inversion E'; subst. congruence.
           ++ exists before, c', after. repeat split; auto.
              intros x Hx. apply Hrej. simpl. auto.
    + destruct (firstStat H fs accept base rest) as [r t]. simpl in *.
      rewrite IH. split.
      * intros (before & c' & after & -> & -> & Hacc & Hrej).
        exists (c :: before), c', after. repeat split; auto.
        intros b [<-|Hin]; [|auto].
        intros (st' & E' & _). rewrite Es in E'. discriminate.
      * intros ([|b before] & c' & after & E & -> & Hacc & Hrej); inversion E; subst.
        -- destruct Hacc as (st' & E' & _). rewrite Es in E'. discriminate.
        -- exists before, c', after. repeat split; auto.
           intros x Hx. apply Hrej. simpl. auto.
Qed.

Lemma firstStat_found accept base candidates :
  (exists full, fst (firstStat H fs accept base candidates) = Some full)
  <-> exists c, In c candidates /\ Accepted fs accept (path_join H base c).
Proof.
  split.
  - intros (full & E). apply firstStat_Some in E as (before & c & after & -> & -> & Hacc & _).
    exists c. split; [apply in_elt | exact Hacc].
  - intros (c & Hin & Hacc).
    destruct (fst (firstStat H fs accept base candidates)) as [full|] eqn:E; [eauto|].
    exfalso. exact (proj1 (firstStat_None accept base candidates) E c Hin Hacc).
Qed.

End ProbeFacts.

(** X9. A project counts as a monorepo exactly when [stat] succeeds on
    one of [lerna.json], [pnpm-workspace.yaml], [turbo.json], [nx.json],
    [rush.json] under the working directory, whatever kind of entry it is,
    or when one of [packages], [apps], [libs], [modules] there is a
    directory; an entry of that name that is not a directory does not
    count. *)
Theorem detectMonorepo_iff (H : Host) (fs : FileSystem) (base : string) :
  fst (detectMonorepo H fs base) = true
  <-> (exists c, In c monorepoConfigs /\ exists st, stat fs (path_join H base c) = Ok st) \/
      (exists d, In d monorepoDirs /\
                 stat fs (path_join H base d) = Ok (mkStats true)).
Proof.
  assert (forall p, Accepted fs (fun _ => true) p <-> exists st, stat fs p = Ok st) as Hany
    by (intros p; unfold Accepted; split; intros (st & E); eauto; destruct E; eauto).
  assert (forall p, Accepted fs isDirectory p <-> stat fs p = Ok (mkStats true)) as Hdir.
  { intros p. unfold Accepted. split.
    - intros ([d] & E & Hd). simpl in Hd. now subst.
    - intros E. eauto. }
  pose proof (firstStat_found H fs (fun _ => true) base monorepoConfigs) as Hc.
  pose proof (firstStat_found H fs isDirectory base monorepoDirs) as Hd.
  unfold detectMonorepo.
  destruct (firstStat H fs (fun _ => true) base monorepoConfigs) as [[full|] t1];
    simpl in Hc.
  - split; [|reflexivity]. intros _. left.
    destruct (proj1 Hc (ex_intro _ full eq_refl)) as (c & Hin & Hacc).
    exists c. split; [exact Hin | now apply Hany].
  - destruct (firstStat H fs isDirectory base monorepoDirs) as [[full|] t2];
      simpl in Hd; simpl.
    + split; [|reflexivity]. intros _. right.
      destruct (proj1 Hd (ex_intro _ full eq_refl)) as (d & Hin & Hacc).
      exists d. split; [exact Hin | now apply Hdir].
    + split; [discriminate|]. intros [(c & Hin & Hst)|(d & Hin & Hst)]; exfalso.
      * destruct (proj2 Hc) as (full & E); [|discriminate].
        exists c. split; [exact Hin | now apply Hany].
      * destruct (proj2 Hd) as (full & E); [|discriminate].
        exists d. split; [exact Hin | now apply Hdir].
Qed.

(** X10. The UI directory of a monorepo is the first of the ten
    conventional paths, in the order of the list, that is a directory: a
    path is returned exactly when it is the join of the working directory
    with a listed path that is a directory while none of the paths listed
    before it is; a path that exists but is not a directory is passed
    over. *)
Theorem findUIComponentsInMonorepo_first_directory
  (H : Host) (fs : FileSystem) (base full : string) :
  fst (findUIComponentsInMonorepo H fs base) = Some full
  <-> exists before c after,
        commonPaths = before ++ c :: after /\
        full = path_join H base c /\
        stat fs full = Ok (mkStats true) /\
        forall b, In b before -> stat fs (path_join H base b) <> Ok (mkStats true).
Proof.
  assert (forall p, Accepted fs isDirectory p <-> stat fs p = Ok (mkStats true)) as Hdir.
  { intros p. unfold Accepted. split.
    - intros ([d] & E & Hd). simpl in Hd. now subst.
    - intros E. eauto. }
  unfold findUIComponentsInMonorepo. rewrite firstStat_Some. split.
  - intros (before & c & after & E & -> & Hacc & Hrej).
    exists before, c, after. repeat split; auto; [now apply Hdir|].
    intros b Hb Hst. apply (Hrej b Hb). now apply Hdir.
  - intros (before & c & after & E & -> & Hst & Hrej).
    exists before, c, after. repeat split; auto; [now apply Hdir|].
    intros b Hb Hacc. apply (Hrej b Hb). now apply Hdir.
Qed.

(** X11. In a project detected as a monorepo in which one of the
    conventional UI directories exists, that directory is scanned and
    receives the output file, whatever [componentsDir] the caller
    configured; in every other case the configured directory, resolved
    against the working directory, is scanned. *)
Theorem monorepo_directory_replaces_configured_one
  (H : Host) (fullConfig : Config) (fs : FileSystem) :
  let st := setup H fullConfig fs in
  (forall full,
     fst (detectMonorepo H fs (cwd H)) = true ->
     fst (findUIComponentsInMonorepo H fs (cwd H)) = Some full ->
     scannedDir st = full /\
     outputFilePath st = path_join H full (outputFile fullConfig)) /\
  (fst (detectMonorepo H fs (cwd H)) = false \/
   fst (findUIComponentsInMonorepo H fs (cwd H)) = None ->
   scannedDir st = path_resolve H (cwd H) (componentsDir fullConfig)).
Proof.
  intros st. unfold st, setup.
  destruct (detectMonorepo H fs (cwd H)) as [isMonorepo t1].
  destruct (if forceExplicitExtensions fullConfig then (true, [])
            else shouldUseExplicitExtensions H fs (cwd H)) as [use t2].
  destruct (findUIComponentsInMonorepo H fs (cwd H)) as [[found|] t4]; simpl.
  - split.
    + intros full -> E. inversion E; subst. auto.
    + intros [->|E]; [reflexivity | discriminate].
  - split.
    + intros full _ E. discriminate.
    + intros _. now destruct isMonorepo.
  Qed.

Lemma monorepo_directory_replaces_configured_one_witness :
  scannedDir (setup Example.host
                (mergeConfig defaultConfig (directoryOptions "app/widgets")) monorepo)
  = "/proj/packages/ui/src/ui" /\
  scannedDir (setup Example.host
                (mergeConfig defaultConfig (directoryOptions "app/widgets"))
                Example.components)
  = "/proj/app/widgets".
Proof.
  split.
  - apply (proj1 (monorepo_directory_replaces_configured_one Example.host
                    (mergeConfig defaultConfig (directoryOptions "app/widgets")) monorepo)
             "/proj/packages/ui/src/ui"); reflexivity.
  - apply (proj2 (monorepo_directory_replaces_configured_one Example.host
                    (mergeConfig defaultConfig (directoryOptions "app/widgets"))
                    Example.components)).
    left. reflexivity.
Defined.

Lemma firstStat_NotRead H fs accept base candidates :
  Forall NotRead (snd (firstStat H fs accept base candidates)).
Proof.
  induction candidates as [|c rest IH]; simpl; [constructor|].
  destruct (stat fs (path_join H base c)) as [st|e].
  - destruct (accept st); [quiet|].
    destruct (firstStat H fs accept base rest). simpl in *. quiet.
  - destruct (firstStat H fs accept base rest). simpl in *. quiet.
Qed.

(** X12. With [forceExplicitExtensions] the project is not probed for
    its module settings: extensions are written, and before the [try]
    block no file is read, neither [package.json] nor [tsconfig.json]. *)
Theorem forced_extensions_skip_the_probe
  (H : Host) (fullConfig : Config) (fs : FileSystem) :
  forceExplicitExtensions fullConfig = true ->
  useExplicitExtensions (setup H fullConfig fs) = true /\
  Forall NotRead (setupTrace (setup H fullConfig fs)).
Proof.
  intros Hforce. split; [now rewrite setup_useExplicitExtensions, Hforce|].
  unfold setup, detectMonorepo, findUIComponentsInMonorepo. rewrite Hforce.
  pose proof (firstStat_NotRead H fs (fun _ => true) (cwd H) monorepoConfigs) as H1.
  pose proof (firstStat_NotRead H fs isDirectory (cwd H) monorepoDirs) as H2.
  pose proof (firstStat_NotRead H fs isDirectory (cwd H) commonPaths) as H3.
  destruct (firstStat H fs (fun _ => true) (cwd H) monorepoConfigs) as [[?|] t1];
    destruct (firstStat H fs isDirectory (cwd H) monorepoDirs) as [[?|] t2];
    destruct (firstStat H fs isDirectory (cwd H) commonPaths) as [[?|] t3];
    simpl in *; quiet.
Qed.

Lemma forced_extensions_skip_the_probe_witness :
  useExplicitExtensions
    (setup Example.host (mergeConfig defaultConfig Example.forceOptions)
       Example.components) = true /\
  Forall NotRead
    (setupTrace (setup Example.host (mergeConfig defaultConfig Example.forceOptions)
                   Example.components)).
Proof.
  exact (forced_extensions_skip_the_probe Example.host
           (mergeConfig defaultConfig Example.forceOptions) Example.components eq_refl).
Defined.

Lemma isString_iff o s : isString o s = true <-> o = Some s.
Proof.
  destruct o as [x|]; simpl; [|split; discriminate].
  rewrite String.eqb_eq. split; [now intros -> | now intros [= ->]].
Qed.

Lemma lowered_cases v :
  (BrokenToLowerCase v /\ exists e, lowered v = Throw e) \/
  (~ BrokenToLowerCase v /\
   exists lower,
     lowered v = Ok lower /\
     forall literal,
       isString lower literal = true
       <-> exists s, v = Some (JString s) /\ Str.toLowerCase s = literal).
Proof.
  assert (forall lower : option string, lower = None ->
            forall literal w,
              (forall s, w <> Some (JString s)) ->
              isString lower literal = true
              <-> exists s : string, w = Some (JString s) /\ Str.toLowerCase s = literal)
    as Hnone.
  { intros lower -> literal w Hw. split; [discriminate|].
    intros (s & E & _). now apply Hw in E. }
  destruct v as [[| | |s|items|members]|]; simpl;
    try (right; split;
         [intros (members' & x & E & _); discriminate
         | eexists; split; [reflexivity|];
           intros literal; apply Hnone; [reflexivity | discriminate]]).
  - right. split; [intros (members' & x & E & _); discriminate|].
    eexists. split; [reflexivity|]. intros literal. rewrite isString_iff. split.
    + intros [= <-]. eauto.
    + intros (s' & [= <-] & <-). reflexivity.
  - destruct (member members "toLowerCase") as [x|] eqn:E.
    + destruct x;
        try (left; split;
             [exists members; eexists; split; [reflexivity|]; split;
                [exact E | discriminate]
             | eauto]).
      right. split.
      * intros (members' & x & [= <-] & E' & Hx). congruence.
      * eexists. split; [reflexivity|].
        intros literal. apply Hnone; [reflexivity | discriminate].
    + right. split.
      * intros (members' & x & [= <-] & E' & Hx). congruence.
      * eexists. split; [reflexivity|].
        intros literal. apply Hnone; [reflexivity | discriminate].
Qed.

Lemma NamesNodeResolution_not_broken v :
  NamesNodeResolution v -> ~ BrokenToLowerCase v.
Proof. intros (s & -> & _) (members & x & E & _). discriminate. Qed.

(** What the condition on the options asks of a value, when the call on
    it does not throw. *)
Lemma lowerIs_names options key v :
  property options key = Ok v ->
  ~ BrokenToLowerCase v ->
  exists a b,
    lowerIs options key "nodenext" = Ok a /\
    lowerIs options key "node16" = Ok b /\
    (a || b = true <-> NamesNodeResolution v).
Proof.
  intros Hp Hsound. unfold lowerIs. rewrite Hp.
  destruct (lowered_cases v) as [[Hbroken _]|(_ & lower & -> & Hl)]; [contradiction|].
  eexists _, _. split; [reflexivity|]. split; [reflexivity|].
  rewrite orb_true_iff, !Hl. unfold NamesNodeResolution. split.
  - intros [(s & E & L)|(s & E & L)]; eauto.
  - intros (s & E & [L|L]); eauto.
Qed.

Lemma lowerIs_broken options key v literal :
  property options key = Ok v ->
  BrokenToLowerCase v ->
  exists e, lowerIs options key literal = Throw e.
Proof.
  intros Hp Hbroken. unfold lowerIs. rewrite Hp.
  destruct (lowered_cases v) as [(_ & e & ->)|[Hsound _]]; [eauto | contradiction].
Qed.

Lemma optionsAskForExtensions_iff options moduleResolution module :
  property options "moduleResolution" = Ok moduleResolution ->
  property options "module" = Ok module ->
  optionsAskForExtensions options = Ok true
  <-> NamesNodeResolution moduleResolution \/
      (~ BrokenToLowerCase moduleResolution /\ NamesNodeResolution module).
Proof.
  intros Hmr Hmd. unfold optionsAskForExtensions.
  destruct (lowered_cases moduleResolution) as [[Hb _]|[Hs _]].
  - destruct (lowerIs_broken options _ _ "nodenext" Hmr Hb) as (e & ->). simpl.
    split; [discriminate|].
    intros [Hn|[Hs _]]; [now apply NamesNodeResolution_not_broken in Hn | contradiction].
  - destruct (lowerIs_names options _ _ Hmr Hs) as (a & b & -> & -> & Hab).
    destruct (a || b) eqn:E.
    + assert (orElse (Ok a) (orElse (Ok b)
                (orElse (lowerIs options "module" "nodenext")
                   (lowerIs options "module" "node16"))) = Ok true) as ->
        by (destruct a; [reflexivity | destruct b; [reflexivity | discriminate]]).
      split; [intros _; left; now apply Hab | reflexivity].
    + apply orb_false_iff in E as [-> ->]. simpl.
      assert (~ NamesNodeResolution moduleResolution) as Hno
        by (intros Hn; apply Hab in Hn; discriminate).
      destruct (lowered_cases module) as [[Hb' _]|[Hs' _]].
      * destruct (lowerIs_broken options _ _ "nodenext" Hmd Hb') as (e & ->). simpl.
        split; [discriminate|].
        intros [Hn|[_ Hn]]; [contradiction|].
        now apply NamesNodeResolution_not_broken in Hn.
      * destruct (lowerIs_names options _ _ Hmd Hs') as (a' & b' & -> & -> & Hab').
        assert (orElse (Ok a') (Ok b') = Ok (a' || b')) as ->
          by (destruct a'; reflexivity).
        split.
        -- intros [= E]. right. split; [exact Hs | now apply Hab'].
        -- intros [Hn|[_ Hn]]; [contradiction|]. apply Hab' in Hn. now rewrite Hn.
Qed.

(** X13. Explicit extensions are detected exactly when [package.json]
    parses to a value whose [type] is the string [module], or
    [tsconfig.json] parses to a value with truthy [compilerOptions] in
    which [moduleResolution] is, in any letter case, the string [nodenext]
    or [node16], or [module] is such a string and [moduleResolution] is not
    an object with a member [toLowerCase] other than [null], on which the
    call would throw before [module] is looked at.  A file that is missing
    or does not parse counts as a file that says nothing.  When
    [package.json] decides, [tsconfig.json] is not read. *)
Theorem explicit_extensions_detected_iff (H : Host) (fs : FileSystem) (base : string) :
  (fst (shouldUseExplicitExtensions H fs base) = true
   <-> PackageSaysModule H fs base \/ TsconfigAsks H fs base) /\
  (PackageSaysModule H fs base ->
   snd (shouldUseExplicitExtensions H fs base)
   = [FsReadFile (path_join H base "package.json")]).
Proof.
  assert (packageIsModule H fs base = true <-> PackageSaysModule H fs base) as Hpackage.
  { unfold packageIsModule, PackageSaysModule.
    destruct (readJson H fs (path_join H base "package.json")) as [pj|e].
    - destruct (property pj "type") as [[[| | |s| |]|]|e] eqn:Ep;
        try (split; [discriminate | intros (pj' & [= <-] & E); congruence]).
      rewrite String.eqb_eq. split.
      + intros ->. eauto.
      + intros (pj' & [= <-] & E). congruence.
    - split; [discriminate | intros (pj' & E & _); discriminate]. }
  assert (tsconfigAsksForExtensions H fs base = true <-> TsconfigAsks H fs base) as Htsconfig.
  { unfold tsconfigAsksForExtensions, TsconfigAsks.
    destruct (readJson H fs (path_join H base "tsconfig.json")) as [ts|e];
      [|split; [discriminate | intros (? & ? & ? & ? & E & _); discriminate]].
    destruct (property ts "compilerOptions") as [[options|]|e] eqn:Eo;
      try (split; [discriminate | intros (? & ? & ? & ? & [= <-] & E & _); congruence]).
    destruct (truthy (Some options)) eqn:Et.
    - assert (forall key, exists v, property options key = Ok v) as Hprop
        by (intros key; destruct options; simpl in *; try discriminate; eauto).
      destruct (Hprop "moduleResolution") as (mr & Emr).
      destruct (Hprop "module") as (md & Emd).
      pose proof (optionsAskForExtensions_iff options mr md Emr Emd) as Hask.
      split.
      + intros Hyes. exists ts, options, mr, md. repeat split; auto.
        apply Hask. destruct (optionsAskForExtensions options) as [[|]|e];
          [reflexivity | discriminate | discriminate].
      + intros (ts' & options' & mr' & md' & [= <-] & E0 & _ & E1 & E2 & Hnames).
        rewrite Eo in E0. injection E0 as <-.
        rewrite Emr in E1. injection E1 as <-.
        rewrite Emd in E2. injection E2 as <-.
        apply Hask in Hnames. now rewrite Hnames.
    - split; [discriminate|].
      intros (ts' & options' & mr' & md' & [= <-] & E0 & Ht & _).
      rewrite Eo in E0. injection E0 as <-. congruence. }
  unfold shouldUseExplicitExtensions. split.
  - destruct (packageIsModule H fs base) eqn:Ep; simpl.
    + split; [intros _; left; now apply Hpackage | reflexivity].
    + rewrite Htsconfig. split; [auto|]. intros [Hp|Ht]; [|exact Ht].
      apply Hpackage in Hp. discriminate.
  - intros Hp. apply Hpackage in Hp. now rewrite Hp.
Qed.

Lemma explicit_extensions_detected_iff_witness :
  snd (shouldUseExplicitExtensions esmHost esmProject "/proj")
  = [FsReadFile "/proj/package.json"] /\
  fst (shouldUseExplicitExtensions esmHost tsconfigProject "/proj") = true /\
  fst (shouldUseExplicitExtensions brokenHost brokenProject "/proj") <> true.
Proof.
  split; [|split].
  - apply (proj2 (explicit_extensions_detected_iff esmHost esmProject "/proj")).
    exists (JObject [("type", JString "module")]). split; reflexivity.
  - apply (proj1 (explicit_extensions_detected_iff esmHost tsconfigProject "/proj")).
    right.
    exists (JObject [("compilerOptions",
                      JObject [("moduleResolution", JString "NodeNext")])]),
           (JObject [("moduleResolution", JString "NodeNext")]),
           (Some (JString "NodeNext")), None.
    repeat split; auto. left. exists "NodeNext". auto.
  - intros Hyes.
    apply (proj1 (explicit_extensions_detected_iff brokenHost brokenProject "/proj"))
      in Hyes.
    destruct Hyes as [(packageJson & E & _)|(ts & options & mr & md & E & Eo & _ & Emr & Emd & Hn)].
    + discriminate.
    + injection E as <-. injection Eo as <-. injection Emr as <-. injection Emd as <-.
      destruct Hn as [(s & E & _)|[Hsound _]]; [discriminate|].
      apply Hsound. exists [("toLowerCase", JNumber 1)], (JNumber 1).
      repeat split; discriminate.
Defined.

(** ** The earlier version *)

Section LegacyFacts.
Variable H : Host.
Variable fullConfig : Config.
Variable fs : FileSystem.
Variable componentsDir : string.

Lemma processFile_SameLoop total s l file :
  SameLoop s l ->
  SameLoop (fst (processFile H fullConfig fs componentsDir total s file))
           (fst (Legacy.processFile H fullConfig fs componentsDir total l file)) /\
  snd (processFile H fullConfig fs componentsDir total s file)
  = snd (Legacy.processFile H fullConfig fs componentsDir total l file).
Proof.
  intros (He & Hp & Ht). unfold processFile, Legacy.processFile, SameLoop.
  destruct (readSource H fs (path_join H componentsDir file) file) as [sourceFile|e];
    simpl; rewrite <- ?He, <- ?Hp, <- ?Ht; auto.
Qed.

Lemma processFiles_SameLoop total files : forall s l,
  SameLoop s l ->
  SameLoop (fst (processFiles H fullConfig fs componentsDir total s files))
           (fst (Legacy.processFiles H fullConfig fs componentsDir total l files)) /\
  snd (processFiles H fullConfig fs componentsDir total s files)
  = snd (Legacy.processFiles H fullConfig fs componentsDir total l files).
Proof.
  induction files as [|file rest IH]; intros s l Hs; simpl; [auto|].
  destruct (processFile_SameLoop total s l file Hs) as (H1 & H2).
  destruct (processFile H fullConfig fs componentsDir total s file) as [s1 t1].
  destruct (Legacy.processFile H fullConfig fs componentsDir total l file) as [l1 u1].
  simpl in H1, H2. destruct (IH s1 l1 H1) as (H3 & H4).
  destruct (processFiles H fullConfig fs componentsDir total s1 rest) as [s2 t2].
  destruct (Legacy.processFiles H fullConfig fs componentsDir total l1 rest) as [l2 u2].
  simpl in *. subst. auto.
Qed.

Lemma renderIndex_SameLoop s l :
  SameLoop s l ->
  renderIndex fullConfig false s = Legacy.renderIndex fullConfig l.
Proof.
  intros (He & _). unfold renderIndex, Legacy.renderIndex, componentNamesOf,
    Legacy.componentNamesOf. rewrite <- He.
  generalize (headerComment fullConfig) as indexContent.
  generalize (if sortAlphabetically fullConfig
              then sort (JsMap.keys (componentExports s))
              else JsMap.keys (componentExports s)) as names.
  induction names as [|name names IH]; intros indexContent; simpl; [reflexivity|].
  rewrite IH. do 2 f_equal.
  unfold statementOf, Legacy.statementOf, extensionOf, specifierOf. rewrite <- He.
  now rewrite append_empty_r.
Qed.

Lemma generateFrom_legacy outputFilePath files :
  generateFrom H fullConfig false fs componentsDir outputFilePath files
  = Legacy.generateFrom H fullConfig fs componentsDir outputFilePath files.
Proof.
  unfold generateFrom, Legacy.generateFrom, scan.
  assert (SameLoop emptyLoopState Legacy.emptyLoopState) as H0
    by (repeat split).
  destruct (processFiles_SameLoop (List.length (componentFilesOf fullConfig files))
              (componentFilesOf fullConfig files) _ _ H0) as (Hs & Ht).
  destruct (processFiles H fullConfig fs componentsDir
              (List.length (componentFilesOf fullConfig files)) emptyLoopState
              (componentFilesOf fullConfig files)) as [s t].
  destruct (Legacy.processFiles H fullConfig fs componentsDir
              (List.length (componentFilesOf fullConfig files)) Legacy.emptyLoopState
              (componentFilesOf fullConfig files)) as [l u].
  simpl in Hs, Ht. subst u.
  rewrite (renderIndex_SameLoop s l Hs).
  destruct Hs as (He & _ & Hd). rewrite He, Hd. reflexivity.
Qed.

Lemma tryBlock_legacy outputFilePath :
  tryBlock H fullConfig false fs componentsDir outputFilePath
  = Legacy.tryBlock H fullConfig fs componentsDir outputFilePath.
Proof.
  unfold tryBlock, Legacy.tryBlock.
  destruct (stat fs componentsDir); [|reflexivity].
  destruct (readdir fs componentsDir); [|reflexivity].
  now rewrite generateFrom_legacy.
Qed.

End LegacyFacts.

(** X14. In a project where no explicit extensions are asked for and the
    monorepo search does not move the directory, the current
    [generateIndex] does what the earlier version without these features
    does: the same file system afterwards, the same exit code, and the
    same console output and file-system calls, preceded only by the calls
    and lines of the probes. *)
Theorem current_version_extends_the_earlier_one
  (H : Host) (fullConfig : Config) (p : Process) :
  let st := setup H fullConfig (fileSystem p) in
  useExplicitExtensions st = false ->
  scannedDir st = path_resolve H (cwd H) (componentsDir fullConfig) ->
  let r := run H fullConfig p in
  let l := Legacy.run H fullConfig p in
  fileSystem r = fileSystem l /\
  exitCode r = exitCode l /\
  exists t, trace l = trace p ++ t /\ trace r = trace p ++ setupTrace st ++ t.
Proof.
  intros st Hext Hdir r l. unfold r, l, run, Legacy.run. fold st.
  assert (outputFilePath st = path_join H (scannedDir st) (outputFile fullConfig)) as ->.
  { unfold st, setup.
    destruct (detectMonorepo H (fileSystem p) (cwd H)) as [isMonorepo' t1'].
    destruct (if forceExplicitExtensions fullConfig then (true, [])
              else shouldUseExplicitExtensions H (fileSystem p) (cwd H)) as [use t2].
    destruct isMonorepo'; [|reflexivity].
    now destruct (findUIComponentsInMonorepo H (fileSystem p) (cwd H)) as [[found|] t4]. }
  rewrite Hext, Hdir, tryBlock_legacy.
  destruct (Legacy.tryBlock H fullConfig (fileSystem p)
              (path_resolve H (cwd H) (componentsDir fullConfig))
              (path_join H (path_resolve H (cwd H) (componentsDir fullConfig))
                 (outputFile fullConfig))) as [[[| |e] t] fs']; simpl;
    repeat split; eexists; split; reflexivity.
Qed.

Lemma current_version_extends_the_earlier_one_witness :
  fileSystem (run Example.host defaultConfig (Example.fresh Example.components))
  = fileSystem (Legacy.run Example.host defaultConfig (Example.fresh Example.components)) /\
  exitCode (run Example.host defaultConfig (Example.fresh Example.components))
  = exitCode (Legacy.run Example.host defaultConfig (Example.fresh Example.components)) /\
  exists t,
    trace (Legacy.run Example.host defaultConfig (Example.fresh Example.components))
    = trace (Example.fresh Example.components) ++ t /\
    trace (run Example.host defaultConfig (Example.fresh Example.components))
    = trace (Example.fresh Example.components)
      ++ setupTrace (setup Example.host defaultConfig (fileSystem (Example.fresh Example.components))) ++ t.
Proof.
  apply (current_version_extends_the_earlier_one Example.host defaultConfig
           (Example.fresh Example.components));
    reflexivity.
Defined.

(** ** The footprint of a run *)

Section FootprintFacts.
Variable H : Host.
Variable fullConfig : Config.
Variable fs : FileSystem.
Variable dir output : string.
Variable componentFiles : list string.

Lemma IsLog_Footprint t :
  Forall IsLog t -> Forall (Footprint H dir output componentFiles) t.
Proof.
  apply Forall_impl. intros [] He; try destruct He; exact I.
Qed.

Lemma firstStat_Footprint accept candidates :
  incl candidates probedNames ->
  Forall (Footprint H dir output componentFiles)
    (snd (firstStat H fs accept (cwd H) candidates)).
Proof.
  induction candidates as [|c rest IH]; intros Hincl; simpl; [constructor|].
  assert (Footprint H dir output componentFiles (FsStat (path_join H (cwd H) c))) as Hc.
  { right. exists c. split; [apply Hincl; left; reflexivity | reflexivity]. }
  assert (incl rest probedNames) as Hrest by (intros x Hx; apply Hincl; now right).
  specialize (IH Hrest).
  destruct (stat fs (path_join H (cwd H) c)) as [st|e].
  - destruct (accept st); [constructor; [exact Hc | constructor]|].
    destruct (firstStat H fs accept (cwd H) rest). simpl in *. now constructor.
  - destruct (firstStat H fs accept (cwd H) rest). simpl in *. now constructor.
Qed.

Lemma setup_Footprint :
  Forall (Footprint H dir output componentFiles) (setupTrace (setup H fullConfig fs)).
Proof.
  unfold setup, detectMonorepo, findUIComponentsInMonorepo, shouldUseExplicitExtensions.
  assert (incl monorepoConfigs probedNames) as I1
    by (intros x Hx; apply in_or_app; now left).
  assert (incl monorepoDirs probedNames) as I2
    by (intros x Hx; apply in_or_app; right; apply in_or_app; now left).
  assert (incl commonPaths probedNames) as I3
    by (intros x Hx; apply in_or_app; right; apply in_or_app; now right).
  pose proof (firstStat_Footprint (fun _ => true) monorepoConfigs I1) as H1.
  pose proof (firstStat_Footprint isDirectory monorepoDirs I2) as H2.
  pose proof (firstStat_Footprint isDirectory commonPaths I3) as H3.
  assert (Footprint H dir output componentFiles
            (FsReadFile (path_join H (cwd H) "package.json"))) as Hp by (now left).
  assert (Footprint H dir output componentFiles
            (FsReadFile (path_join H (cwd H) "tsconfig.json"))) as Ht
    by (right; now left).
  destruct (firstStat H fs (fun _ => true) (cwd H) monorepoConfigs) as [[?|] t1];
    destruct (firstStat H fs isDirectory (cwd H) monorepoDirs) as [[?|] t2];
    destruct (firstStat H fs isDirectory (cwd H) commonPaths) as [[?|] t3];
    destruct (forceExplicitExtensions fullConfig);
    destruct (packageIsModule H fs (cwd H));
    try destruct (tsconfigAsksForExtensions H fs (cwd H));
    simpl in *;
    repeat first
      [ assumption
      | apply Forall_nil
      | apply Forall_app; split
      | apply Forall_cons; [first [assumption | exact I]|]
      | match goal with
        | |- Forall _ (if ?b then _ else _) => destruct b
        end ].
Qed.

Lemma processFile_Footprint total s file :
  In file componentFiles ->
  Forall (Footprint H dir output componentFiles)
    (snd (processFile H fullConfig fs dir total s file)).
Proof.
  intros Hin.
  assert (Footprint H dir output componentFiles (FsReadFile (path_join H dir file)))
    as Hread by (right; right; exists file; auto).
  unfold processFile.
  destruct (readSource H fs (path_join H dir file) file) as [sourceFile|e]; simpl.
  - constructor; [exact Hread|]. apply Forall_app. split.
    + apply IsLog_Footprint. unfold classify. apply classify_notices_logs. constructor.
    + destruct (verbose fullConfig); repeat constructor.
  - constructor; [exact Hread|]. constructor; [exact I|].
    destruct (verbose fullConfig); repeat constructor.
Qed.

Lemma processFiles_Footprint total files : forall s,
  incl files componentFiles ->
  Forall (Footprint H dir output componentFiles)
    (snd (processFiles H fullConfig fs dir total s files)).
Proof.
  induction files as [|file rest IH]; intros s Hincl; [constructor|].
  rewrite processFiles_trace_cons. apply Forall_app. split.
  - apply processFile_Footprint. apply Hincl. now left.
  - apply IH. intros x Hx. apply Hincl. now right.
Qed.

End FootprintFacts.

Lemma generateFrom_Footprint H fullConfig useExplicit fs dir output files :
  Forall (Footprint H dir output (componentFilesOf fullConfig files))
    (snd (fst (generateFrom H fullConfig useExplicit fs dir output files))).
Proof.
  unfold generateFrom, scan.
  pose proof (processFiles_Footprint H fullConfig fs dir output
                (componentFilesOf fullConfig files)
                (List.length (componentFilesOf fullConfig files))
                (componentFilesOf fullConfig files) emptyLoopState
                (incl_refl _)) as Hloop.
  destruct (processFiles H fullConfig fs dir
              (List.length (componentFilesOf fullConfig files)) emptyLoopState
              (componentFilesOf fullConfig files)) as [s loop].
  simpl in Hloop.
  destruct (dryRun fullConfig); [|unfold writeFile; destruct (writeRefused fs output)];
    simpl;
    repeat first
      [ assumption
      | apply Forall_nil
      | apply Forall_app; split
      | apply Forall_cons; [first [reflexivity | exact I]|]
      | match goal with
        | |- Forall _ (if ?b then _ else _) => destruct b
        | |- Forall _ (map _ _) => apply Forall_map, Forall_forall; intros; exact I
        end ].
Qed.

(** Whatever a run of the [try] block does, the files other than the
    output file read as before, and [stat] and [readdir] answer as
    before. *)
Lemma tryBlock_frame H fullConfig useExplicit fs dir output :
  let fs' := snd (tryBlock H fullConfig useExplicit fs dir output) in
  stat fs' = stat fs /\ readdir fs' = readdir fs /\
  forall q, q <> output -> readFile fs' q = readFile fs q.
Proof.
  unfold tryBlock.
  destruct (stat fs dir) as [st|e];
    [|destruct (isString (code e) "ENOENT"); simpl; auto].
  destruct (readdir fs dir) as [files|e]; [|simpl; auto].
  unfold generateFrom.
  destruct (scan H fullConfig fs dir files) as [s loop].
  destruct (dryRun fullConfig); [simpl; auto|].
  unfold writeFile. destruct (writeRefused fs output); simpl; [auto|].
  repeat split; auto. intros q Hq.
  destruct (String.eqb q output) eqn:E; [|reflexivity].
  apply String.eqb_eq in E. contradiction.
Qed.

Lemma tryBlock_Footprint H fullConfig useExplicit fs dir output :
  Forall (Footprint H dir output (listedComponentFiles fullConfig fs dir))
    (snd (fst (tryBlock H fullConfig useExplicit fs dir output))).
Proof.
  unfold tryBlock, listedComponentFiles.
  destruct (stat fs dir) as [st|e].
  - destruct (readdir fs dir) as [files|e].
    + pose proof (generateFrom_Footprint H fullConfig useExplicit fs dir output files)
        as Hg.
      destruct (generateFrom H fullConfig useExplicit fs dir output files)
        as [[c t] fs']. simpl in *.
      constructor; [now left|]. repeat (constructor; [first [reflexivity | exact I]|]).
      exact Hg.
    + simpl. constructor; [now left|].
      repeat (constructor; [first [reflexivity | exact I]|]). constructor.
  - destruct (isString (code e) "ENOENT"); simpl;
      (constructor; [now left|]); repeat constructor.
Qed.

(** X15. A run leaves the rest of the file system alone.  Its calls are:
    [stat] on the scanned directory and on the names that the probes try
    under the working directory; the listing of the scanned directory;
    reads of [package.json] and [tsconfig.json] of the working directory
    and of the component files of the listing; a write to the output
    file.  Afterwards every file but the output file reads as before. *)
Theorem a_run_touches_only_its_own_files
  (H : Host) (fullConfig : Config) (p : Process) :
  let fs := fileSystem p in
  let st := setup H fullConfig fs in
  let r := run H fullConfig p in
  (exists new,
     trace r = trace p ++ new /\
     Forall (Footprint H (scannedDir st) (outputFilePath st)
               (listedComponentFiles fullConfig fs (scannedDir st))) new) /\
  (forall q, q <> outputFilePath st -> readFile (fileSystem r) q = readFile fs q).
Proof.
  intros fs st r. unfold r, run. fold fs. fold st.
  pose proof (tryBlock_Footprint H fullConfig (useExplicitExtensions st) fs
                (scannedDir st) (outputFilePath st)) as Htry.
  pose proof (tryBlock_frame H fullConfig (useExplicitExtensions st) fs
                (scannedDir st) (outputFilePath st)) as (_ & _ & Hframe).
  pose proof (setup_Footprint H fullConfig fs (scannedDir st) (outputFilePath st)
                (listedComponentFiles fullConfig fs (scannedDir st))) as Hsetup.
  fold st in Hsetup.
  assert (Forall (Footprint H (scannedDir st) (outputFilePath st)
                    (listedComponentFiles fullConfig fs (scannedDir st))) footer)
    as Hfooter by (unfold footer; repeat constructor).
  assert (forall e, Forall (Footprint H (scannedDir st) (outputFilePath st)
                              (listedComponentFiles fullConfig fs (scannedDir st)))
                      (report fullConfig e)) as Hreport.
  { intros e. unfold report. destruct (code e) as [c|];
      repeat match goal with
             | |- context [if String.eqb ?a ?b then _ else _] => destruct (String.eqb a b)
             end;
      destruct (verbose fullConfig); repeat constructor. }
  destruct (tryBlock H fullConfig (useExplicitExtensions st) fs (scannedDir st)
              (outputFilePath st)) as [[[| |e] t] fs']; cbn [fst snd] in *;
    cbn [trace fileSystem];
    (split; [eexists; split; [reflexivity|] | exact Hframe]);
    repeat first [apply Hreport | apply Forall_app; split]; auto.
Qed.

(** X16. Every run ends with the three lines of the footer, the line
    [Generation complete!] among them, also when the directory is missing
    and when the run fails; it keeps what was logged before it, and it
    leaves the exit code as it was or sets it to 1. *)
Theorem every_run_ends_with_the_footer
  (H : Host) (fullConfig : Config) (p : Process) :
  let r := run H fullConfig p in
  (exists t, trace r = trace p ++ t ++ footer) /\
  In (Log "Generation complete!" success) (trace r) /\
  (exitCode r = exitCode p \/ exitCode r = Some 1%Z).
Proof.
  intros r. unfold r, run.
  destruct (tryBlock H fullConfig
              (useExplicitExtensions (setup H fullConfig (fileSystem p)))
              (fileSystem p) (scannedDir (setup H fullConfig (fileSystem p)))
              (outputFilePath (setup H fullConfig (fileSystem p))))
    as [[[| |e] t] fs']; cbn [trace exitCode];
    (split; [|split; [|auto]]).
  - exists (setupTrace (setup H fullConfig (fileSystem p)) ++ t).
    now rewrite <- !app_assoc.
  - do 3 (apply in_or_app; right). unfold footer. in_trace.
  - exists (setupTrace (setup H fullConfig (fileSystem p)) ++ t).
    now rewrite <- !app_assoc.
  - do 3 (apply in_or_app; right). unfold footer. in_trace.
  - exists (setupTrace (setup H fullConfig (fileSystem p)) ++ t ++ report fullConfig e).
    now rewrite <- !app_assoc.
  - do 4 (apply in_or_app; right). unfold footer. in_trace.
Qed.

(** ** What the generated text depends on *)

Lemma fold_left_ext_in {A B : Type} (f g : A -> B -> A) l :
  (forall a b, In b l -> f a b = g a b) ->
  forall a, fold_left f l a = fold_left g l a.
Proof.
  induction l as [|b l IH]; intros Hfg a; simpl; [reflexivity|].
  rewrite Hfg by (now left). apply IH. intros a' b' Hin. apply Hfg. now right.
Qed.

Lemma readSource_frame H fs fs' p file :
  readFile fs p = readFile fs' p -> readSource H fs p file = readSource H fs' p file.
Proof. unfold readSource. now intros ->. Qed.

Lemma clauseOf_frame H c c' fs fs' dir file :
  typePatterns c = typePatterns c' ->
  readFile fs (path_join H dir file) = readFile fs' (path_join H dir file) ->
  clauseOf H c fs dir file = clauseOf H c' fs' dir file /\
  reclassifiedIn H c fs dir file = reclassifiedIn H c' fs' dir file.
Proof.
  intros Hpatterns Hread. unfold clauseOf, reclassifiedIn.
  rewrite (readSource_frame H fs fs' _ file Hread).
  destruct (readSource H fs' (path_join H dir file) file) as [sourceFile|e]; [|auto].
  rewrite !allExportsOf_classify. unfold isType. now rewrite Hpatterns.
Qed.

Lemma componentFilesOf_frame c c' files :
  include c = include c' -> exclude c = exclude c' ->
  componentFilesOf c files = componentFilesOf c' files.
Proof.
  intros Hi He. unfold componentFilesOf. apply filter_ext. intros file.
  unfold isComponentFile. now rewrite Hi, He.
Qed.

Lemma LoopState_eq s s' :
  componentExports s = componentExports s' ->
  fileExtensions s = fileExtensions s' ->
  processedCount s = processedCount s' ->
  typesDetectedCount s = typesDetectedCount s' ->
  s = s'.
Proof. destruct s, s'; simpl; intros; subst; reflexivity. Qed.

(** The state after the loop is decided by the component files and by
    what reading them gives. *)
Lemma scan_frame H c c' fs fs' dir files files' :
  typePatterns c = typePatterns c' ->
  componentFilesOf c files = componentFilesOf c' files' ->
  (forall file, In file (componentFilesOf c files) ->
     readFile fs (path_join H dir file) = readFile fs' (path_join H dir file)) ->
  fst (scan H c fs dir files) = fst (scan H c' fs' dir files').
Proof.
  intros Hpatterns Hfiles Hread.
  destruct (scan_state H c fs dir files) as (E1 & E2 & E3 & E4).
  destruct (scan_state H c' fs' dir files') as (F1 & F2 & F3 & F4).
  apply LoopState_eq.
  - rewrite E1, F1, <- Hfiles. apply fold_left_ext_in. intros m file Hin.
    unfold stepExports.
    now destruct (clauseOf_frame H c c' fs fs' dir file Hpatterns (Hread file Hin))
      as [-> _].
  - now rewrite E2, F2, <- Hfiles.
  - now rewrite E3, F3, <- Hfiles.
  - rewrite E4, F4, <- Hfiles. f_equal. apply map_ext_in. intros file Hin.
    now destruct (clauseOf_frame H c c' fs fs' dir file Hpatterns (Hread file Hin))
      as [_ ->].
Qed.

Lemma renderIndex_mode c c' useExplicit s :
  SameButMode c c' -> renderIndex c useExplicit s = renderIndex c' useExplicit s.
Proof.
  destruct c, c'. unfold SameButMode. simpl.
  intros (-> & -> & -> & -> & -> & -> & -> & -> & -> & ->). reflexivity.
Qed.

Lemma setup_mode H c c' fs :
  SameButMode c c' ->
  useExplicitExtensions (setup H c fs) = useExplicitExtensions (setup H c' fs) /\
  scannedDir (setup H c fs) = scannedDir (setup H c' fs) /\
  outputFilePath (setup H c fs) = outputFilePath (setup H c' fs).
Proof.
  destruct c, c'. unfold SameButMode. simpl.
  intros (-> & -> & -> & -> & -> & -> & -> & -> & -> & ->). unfold setup. simpl.
  destruct (detectMonorepo H fs (cwd H)) as [[|] t1];
    destruct forceExplicitExtensions1;
    destruct (shouldUseExplicitExtensions H fs (cwd H)) as [[|] t2];
    try destruct (findUIComponentsInMonorepo H fs (cwd H)) as [[found|] t4];
    simpl; auto.
Qed.

Lemma indexContentOf_mode H c c' useExplicit fs dir files :
  SameButMode c c' ->
  indexContentOf H c useExplicit fs dir files
  = indexContentOf H c' useExplicit fs dir files.
Proof.
  intros Hsame. unfold indexContentOf.
  rewrite (renderIndex_mode c c' useExplicit _ Hsame). f_equal.
  destruct Hsame as (_ & _ & _ & _ & Hp & Hi & He & _).
  apply scan_frame; auto. now apply componentFilesOf_frame.
Qed.

(** X17. [verbose] and [dryRun] have no part in the text.  For two
    configurations that differ in these two fields only, the first with
    [dryRun] and the second without, run on the same files: the text that
    the dry run prints between its two rules is the text that the other
    run writes to the output file, and the dry run leaves the file system
    as it was. *)
Theorem dry_run_previews_the_written_text
  (H : Host) (dry wet : Config) (p : Process) (st0 : Stats) (files : list string) :
  SameButMode dry wet ->
  dryRun dry = true ->
  dryRun wet = false ->
  let fs := fileSystem p in
  let st := setup H wet fs in
  stat fs (scannedDir st) = Ok st0 ->
  readdir fs (scannedDir st) = Ok files ->
  let text := indexContentOf H wet (useExplicitExtensions st) fs (scannedDir st) files in
  In (ConsoleLog text) (trace (run H dry p)) /\
  In (FsWriteFile (outputFilePath st) text) (trace (run H wet p)) /\
  fileSystem (run H dry p) = fs.
Proof.
  intros Hsame Hdry Hwet fs st Hstat Hdir text.
  destruct (setup_mode H dry wet fs Hsame) as (Eu & Ed & Eo). fold st in Eu, Ed, Eo.
  split; [|split].
  - pose proof (tryBlock_listed H dry (useExplicitExtensions st) fs (scannedDir st)
                  (outputFilePath st) st0 files Hstat Hdir) as Htry.
    destruct (generateFrom_dryRun H dry (useExplicitExtensions st) fs (scannedDir st)
                (outputFilePath st) files Hdry) as (t & Hg & _ & Hin).
    rewrite Hg in Htry. rewrite <- Eu, <- Ed, <- Eo in Htry.
    rewrite (run_trace H dry p _ _ _ Htry). cbn [trace].
    rewrite (indexContentOf_mode H dry wet _ fs _ files Hsame) in Hin. fold text in Hin.
    apply in_or_app. right. apply in_or_app. right. apply in_or_app. left.
    apply in_or_app. right. exact Hin.
  - pose proof (tryBlock_listed H wet (useExplicitExtensions st) fs (scannedDir st)
                  (outputFilePath st) st0 files Hstat Hdir) as Htry.
    destruct (generateFrom_write H wet (useExplicitExtensions st) fs (scannedDir st)
                (outputFilePath st) files Hwet)
      as (before & after & completion & Hg & _).
    rewrite Hg in Htry. rewrite (run_trace H wet p _ _ _ Htry). cbn [trace].
    fold text. apply in_or_app. right. apply in_or_app. right. apply in_or_app. left.
    apply in_or_app. right. apply in_or_app. right. apply in_eq.
  - pose proof (tryBlock_listed H dry (useExplicitExtensions st) fs (scannedDir st)
                  (outputFilePath st) st0 files Hstat Hdir) as Htry.
    destruct (generateFrom_dryRun H dry (useExplicitExtensions st) fs (scannedDir st)
                (outputFilePath st) files Hdry) as (t & Hg & _).
    rewrite Hg in Htry. rewrite <- Eu, <- Ed, <- Eo in Htry.
    now rewrite (run_trace H dry p _ _ _ Htry).
Qed.

Lemma dry_run_previews_the_written_text_witness :
  let dry := mergeConfig defaultConfig previewOptions in
  let p := Example.fresh Example.components in
  let text :=
    indexContentOf Example.host defaultConfig false Example.components Example.ui
      ["card.tsx"; "button.tsx"] in
  In (ConsoleLog text) (trace (run Example.host dry p)) /\
  In (FsWriteFile "/proj/src/components/ui/index.ts" text)
    (trace (run Example.host defaultConfig p)) /\
  fileSystem (run Example.host dry p) = Example.components.
Proof.
  apply (dry_run_previews_the_written_text Example.host
           (mergeConfig defaultConfig previewOptions) defaultConfig
           (Example.fresh Example.components) (mkStats true) ["card.tsx"; "button.tsx"]).
  - repeat split.
  - reflexivity.
  - reflexivity.
  - reflexivity.
  - reflexivity.
Defined.

(** The text is decided by the component files and by what reading them
    gives, when every pattern answers as with [lastIndex] 0. *)
Lemma indexContentOf_frame
  (H : Host) (fullConfig : Config) (useExplicit : bool) (fs fs' : FileSystem)
  (dir : string) (files files' : list string) :
  componentFilesOf fullConfig files = componentFilesOf fullConfig files' ->
  (forall file, In file (componentFilesOf fullConfig files) ->
     readFile fs (path_join H dir file) = readFile fs' (path_join H dir file)) ->
  indexContentOf H fullConfig useExplicit fs dir files
  = indexContentOf H fullConfig useExplicit fs' dir files'.
Proof.
  intros Hfiles Hread. unfold indexContentOf. f_equal. now apply scan_frame.
Qed.

(** ** File names, component names and extensions *)

Lemma length_append (a b : string) :
  String.length (a +++ b) = String.length a + String.length b.
Proof. induction a as [|x a IH]; simpl; [reflexivity | now rewrite IH]. Qed.

Lemma substring_whole (s : string) : String.substring 0 (String.length s) s = s.
Proof. induction s as [|x s IH]; simpl; [reflexivity | now rewrite IH]. Qed.

Lemma substring_append_right (pre rest : string) :
  String.substring (String.length pre) (String.length rest) (pre +++ rest) = rest.
Proof. induction pre as [|x pre IH]; simpl; [apply substring_whole | exact IH]. Qed.

Lemma substring_append_left (pre rest : string) :
  String.substring 0 (String.length pre) (pre +++ rest) = pre.
Proof.
  induction pre as [|x pre IH]; simpl; [now destruct rest | now rewrite IH].
Qed.

Lemma rev_acc_append (s acc : string) : Str.rev_acc s acc = Str.rev s +++ acc.
Proof.
  unfold Str.rev. revert acc. induction s as [|x s IH]; intros acc; simpl; [reflexivity|].
  rewrite (IH (String x "")), IH, append_assoc. reflexivity.
Qed.

Lemma rev_append (a b : string) : Str.rev (a +++ b) = Str.rev b +++ Str.rev a.
Proof.
  induction a as [|x a IH]; simpl.
  - now rewrite append_empty_r.
  - change (Str.rev (String x (a +++ b))) with (Str.rev_acc (a +++ b) (String x "")).
    change (Str.rev (String x a)) with (Str.rev_acc a (String x "")).
    rewrite !(rev_acc_append _ (String x "")), IH. apply append_assoc.
Qed.

Lemma prefix_append (a b : string) : String.prefix a (a +++ b) = true.
Proof.
  induction a as [|x a IH]; simpl; [now destruct b|].
  destruct (ascii_dec x x); [exact IH | contradiction].
Qed.

Lemma endsWith_append (pre suffix : string) : Str.endsWith (pre +++ suffix) suffix = true.
Proof. unfold Str.endsWith. rewrite rev_append. apply prefix_append. Qed.

Lemma lastIndexOf_split c s : forall i,
  Str.lastIndexOf c s = Some i ->
  exists pre post,
    s = pre +++ String c post /\ String.length pre = i /\ Str.lastIndexOf c post = None.
Proof.
  induction s as [|x s IH]; intros i; simpl; [discriminate|].
  destruct (Str.lastIndexOf c s) as [j|] eqn:E.
  - intros [= <-]. destruct (IH j eq_refl) as (pre & post & -> & Hlen & Hnone).
    exists (String x pre), post. simpl. auto.
  - destruct (Ascii.eqb_spec x c) as [->|]; [|discriminate].
    intros [= <-]. exists "", s. auto.
Qed.

(** The extension of a name that has one begins at its last dot, which
    is not the first character. *)
Lemma extname_split file :
  extname file = "" \/
  exists pre, pre <> "" /\ file = pre +++ extname file /\ extname file <> "".
Proof.
  unfold extname. destruct (Str.lastIndexOf "." file) as [i|] eqn:E; [|now left].
  destruct (i =? 0)%nat eqn:E0; [now left|].
  destruct (String.eqb file ".."); [now left|]. right.
  destruct (lastIndexOf_split _ _ _ E) as (pre & post & -> & Hlen & _).
  exists pre. unfold Str.sliceFrom. rewrite length_append, <- Hlen.
  replace (String.length pre + String.length (String "." post) - String.length pre)
    with (String.length (String "." post)) by lia.
  rewrite substring_append_right. repeat split; [|discriminate].
  intros ->. simpl in Hlen. subst i. discriminate.
Qed.

Lemma basename_strips pre suffix :
  pre <> "" -> suffix <> "" -> basename (pre +++ suffix) suffix = pre.
Proof.
  intros Hpre Hsuffix. unfold basename.
  apply String.eqb_neq in Hsuffix. rewrite Hsuffix. simpl.
  rewrite length_append.
  replace (String.length suffix <=? String.length pre + String.length suffix)%nat
    with true by (symmetry; apply Nat.leb_le; lia).
  destruct (String.eqb_spec suffix (pre +++ suffix)) as [E|_].
  - exfalso. apply (f_equal String.length) in E. rewrite length_append in E.
    destruct pre; [now apply Hpre | simpl in E; lia].
  - rewrite endsWith_append. unfold Str.sliceTo.
    replace (String.length pre + String.length suffix - String.length suffix)
      with (String.length pre) by lia.
    apply substring_append_left.
Qed.

Lemma componentName_extension file : componentNameOf file +++ extname file = file.
Proof.
  unfold componentNameOf.
  destruct (extname_split file) as [E|(pre & Hpre & Hfile & Hext)].
  - rewrite E. unfold basename. simpl. apply append_empty_r.
  - rewrite Hfile at 1. rewrite (basename_strips pre _ Hpre Hext). now symmetry.
Qed.

(** X19. The component name and the extension of a file name put
    together give the file name back, whatever the name is.  So under
    [forceExplicitExtensions] without an override the module specifier of
    a component is [./] followed by the full name of the last component
    file of the listing with that component name; under detection alone
    that file's [.ts] or [.tsx] is replaced by [.js]; and without explicit
    extensions the specifier is [./] and the component name. *)
Theorem specifier_names_the_last_file_of_the_component
  (H : Host) (fullConfig : Config) (fs : FileSystem) (dir : string)
  (files : list string) (name file : string) :
  lastWith (fun f => String.eqb (componentNameOf f) name)
    (componentFilesOf fullConfig files) = Some file ->
  extensionOverride fullConfig = "" ->
  let s := fst (scan H fullConfig fs dir files) in
  componentNameOf file +++ extname file = file /\
  (forceExplicitExtensions fullConfig = true ->
   specifierOf name (extensionOf fullConfig true s name) = "./" +++ file) /\
  (forceExplicitExtensions fullConfig = false ->
   extname file = ".ts" \/ extname file = ".tsx" ->
   specifierOf name (extensionOf fullConfig true s name) = "./" +++ name +++ ".js") /\
  specifierOf name (extensionOf fullConfig false s name) = "./" +++ name.
Proof.
  intros Hlast Hoverride s.
  pose proof (scan_extension H fullConfig fs dir files name) as Hext.
  rewrite Hlast in Hext. simpl in Hext. fold s in Hext.
  apply lastWith_Some in Hlast as [_ Hname]. apply String.eqb_eq in Hname.
  split; [apply componentName_extension|]. unfold specifierOf, extensionOf.
  rewrite Hoverride, Hext. simpl. split; [|split].
  - intros ->. now rewrite <- Hname, componentName_extension.
  - intros -> [E|E]; rewrite E; reflexivity.
  - now rewrite append_empty_r.
Qed.

Lemma specifier_names_the_last_file_of_the_component_witness :
  let fullConfig := mergeConfig defaultConfig Example.forceOptions in
  let s := fst (scan Example.host fullConfig Example.components Example.ui
                  ["card.tsx"; "button.tsx"]) in
  componentNameOf "button.tsx" +++ extname "button.tsx" = "button.tsx" /\
  (forceExplicitExtensions fullConfig = true ->
   specifierOf "button" (extensionOf fullConfig true s "button") = "./button.tsx") /\
  (forceExplicitExtensions fullConfig = false ->
   extname "button.tsx" = ".ts" \/ extname "button.tsx" = ".tsx" ->
   specifierOf "button" (extensionOf fullConfig true s "button") = "./button.js") /\
  specifierOf "button" (extensionOf fullConfig false s "button") = "./button".
Proof.
  exact (specifier_names_the_last_file_of_the_component Example.host
           (mergeConfig defaultConfig Example.forceOptions) Example.components Example.ui
           ["card.tsx"; "button.tsx"] "button" "button.tsx" eq_refl eq_refl).
Defined.

(** ** The patterns of the default configuration *)

Section RegexFacts.
Variable i : bool.

Lemma append_eq_empty (a b : string) : a +++ b = "" -> a = "" /\ b = "".
Proof. destruct a; simpl; [auto | discriminate]. Qed.

Lemma append_eq_String (a b : string) x s :
  a +++ b = String x s ->
  (a = "" /\ b = String x s) \/ exists a', a = String x a' /\ s = a' +++ b.
Proof.
  destruct a as [|y a]; simpl; [auto|].
  intros [= -> <-]. right. eauto.
Qed.

Lemma concat_cons (piece : string) pieces :
  String.concat "" (piece :: pieces) = piece +++ String.concat "" pieces.
Proof.
  destruct pieces as [|q pieces]; simpl; [now rewrite append_empty_r | reflexivity].
Qed.

Lemma nullable_Matches r : Regex.nullable r = true <-> Matches i r "".
Proof.
  induction r as [| |c| |a IHa b IHb|a IHa b IHb|a IHa]; simpl.
  - split; [discriminate | tauto].
  - tauto.
  - split; [discriminate | intros (x & E & _); discriminate].
  - split; [discriminate | intros (x & E & _); discriminate].
  - rewrite andb_true_iff, IHa, IHb. split.
    + intros [Ha Hb]. exists "", "". auto.
    + intros (s1 & s2 & E & Ha & Hb). symmetry in E.
      apply append_eq_empty in E as [-> ->]. auto.
  - rewrite orb_true_iff, IHa, IHb. tauto.
  - split; [|reflexivity]. intros _. exists []. split; [reflexivity | constructor].
Qed.

Lemma deriv_Matches x r : forall s,
  Matches i (Regex.deriv i x r) s <-> Matches i r (String x s).
Proof.
  induction r as [| |c| |a IHa b IHb|a IHa b IHb|a IHa]; intros s; simpl.
  - tauto.
  - split; [tauto | discriminate].
  - destruct (Ascii.eqb_spec (Regex.canon i c) (Regex.canon i x)) as [E|E]; simpl.
    + split.
      * intros ->. eauto.
      * intros (y & [= <- ->] & _). reflexivity.
    + split; [tauto|]. intros (y & [= <- ->] & Hy). contradiction.
  - destruct (Regex.isWordChar x) eqn:E; simpl.
    + split.
      * intros ->. eauto.
      * intros (y & [= <- ->] & _). reflexivity.
    + split; [tauto|]. intros (y & [= <- ->] & Hy). congruence.
  - assert (Matches i (Regex.Seq (Regex.deriv i x a) b) s
            <-> exists s1 s2, s = s1 +++ s2 /\ Matches i a (String x s1) /\ Matches i b s2)
      as Hseq.
    { simpl. split; intros (s1 & s2 & E & Ha & Hb); exists s1, s2;
        (split; [exact E|]); (split; [|exact Hb]); now apply IHa. }
    destruct (Regex.nullable a) eqn:En.
    + change (Matches i (Regex.Alt (Regex.Seq (Regex.deriv i x a) b) (Regex.deriv i x b)) s)
        with (Matches i (Regex.Seq (Regex.deriv i x a) b) s
              \/ Matches i (Regex.deriv i x b) s).
      rewrite Hseq, IHb. split.
      * intros [(s1 & s2 & -> & Ha & Hb)|Hb].
        -- exists (String x s1), s2. auto.
        -- exists "", (String x s). repeat split; [|exact Hb].
           now apply nullable_Matches.
      * intros (s1 & s2 & E & Ha & Hb). symmetry in E.
        apply append_eq_String in E as [[-> ->]|(s1' & -> & ->)].
        -- now right.
        -- left. exists s1', s2. auto.
    + rewrite Hseq. split.
      * intros (s1 & s2 & -> & Ha & Hb). exists (String x s1), s2. auto.
      * intros (s1 & s2 & E & Ha & Hb). symmetry in E.
        apply append_eq_String in E as [[-> ->]|(s1' & -> & ->)].
        -- apply nullable_Matches in Ha. congruence.
        -- exists s1', s2. auto.
  - now rewrite IHa, IHb.
  - split.
    + intros (s1 & s2 & -> & Ha & pieces & -> & Hpieces).
      exists (String x s1 :: pieces). split; [now rewrite concat_cons|].
      constructor; [|exact Hpieces]. split; [discriminate | now apply IHa].
    + intros (pieces & E & Hpieces).
      destruct Hpieces as [|piece pieces [Hne Ha] Hpieces]; [discriminate|].
      rewrite concat_cons in E. symmetry in E.
      apply append_eq_String in E as [[-> _]|(p' & -> & ->)]; [contradiction|].
      exists p', (String.concat "" pieces). split; [reflexivity|].
      split; [now apply IHa | now exists pieces].
Qed.

Lemma matchHere_Matches s : forall r,
  Regex.matchHere i true r s = true <-> Matches i r s.
Proof.
  induction s as [|x s IH]; intros r; simpl.
  - apply nullable_Matches.
  - rewrite IH. apply deriv_Matches.
Qed.

Lemma search_Matches r s :
  Regex.search i true r s = true
  <-> exists stem tail, s = stem +++ tail /\ Matches i r tail.
Proof.
  induction s as [|x s IH].
  - simpl. rewrite orb_false_r, nullable_Matches. split.
    + intros Hm. exists "", "". auto.
    + intros (stem & tail & E & Hm). symmetry in E.
      apply append_eq_empty in E as [_ ->]. exact Hm.
  - change (Regex.search i true r (String x s))
      with (Regex.matchHere i true r (String x s) || Regex.search i true r s).
    rewrite orb_true_iff, IH, matchHere_Matches. split.
    + intros [Hm|(stem & tail & -> & Hm)].
      * exists "", (String x s). auto.
      * exists (String x stem), tail. auto.
    + intros (stem & tail & E & Hm). symmetry in E.
      apply append_eq_String in E as [[-> ->]|(stem' & -> & ->)]; [now left|].
      right. eauto.
Qed.

Lemma suffix_Matches r file :
  test (Regex.suffix i r) file = true
  <-> exists stem tail, file = stem +++ tail /\ Matches i r tail.
Proof. apply search_Matches. Qed.

Lemma Matches_lits literal : forall s,
  Matches i (Regex.lits literal) s <-> canonicalize i s = canonicalize i literal.
Proof.
  induction literal as [|c literal IH]; intros s; simpl.
  - split; [now intros -> | now destruct s].
  - split.
    + intros (s1 & s2 & -> & (x & -> & Hx) & Hrest). simpl.
      apply IH in Hrest. now rewrite Hrest, Hx.
    + destruct s as [|x s]; simpl; [discriminate|]. intros [= Hx Hrest].
      exists (String x ""), s. repeat split; [eauto | now apply IH].
Qed.

End RegexFacts.

Lemma canonicalize_exact (s : string) : canonicalize false s = s.
Proof. induction s as [|c s IH]; simpl; [reflexivity | now rewrite IH]. Qed.

Lemma Matches_literal literal s : Matches false (Regex.lits literal) s <-> s = literal.
Proof. now rewrite Matches_lits, !canonicalize_exact. Qed.

Lemma suffix_literal literal file :
  test (Regex.suffix false (Regex.lits literal)) file = true <-> EndsWith file literal.
Proof.
  rewrite suffix_Matches. unfold EndsWith. split.
  - intros (stem & tail & -> & Hm). apply Matches_literal in Hm. subst. eauto.
  - intros (stem & ->). exists stem, literal. split; [reflexivity|].
    now apply Matches_literal.
Qed.

(** [/<literal>x?$/] *)
Lemma suffix_optional_x literal file :
  test (Regex.suffix false (Regex.Seq (Regex.lits literal) (Regex.Opt (Regex.Lit "x")))) file
  = true
  <-> EndsWith file literal \/ EndsWith file (literal +++ "x").
Proof.
  rewrite suffix_Matches. unfold EndsWith. split.
  - intros (stem & tail & -> & s1 & s2 & -> & H1 & H2).
    apply Matches_literal in H1. subst s1.
    destruct H2 as [(x & -> & Hx)| ->].
    + right. simpl in Hx. subst x. eauto.
    + left. rewrite append_empty_r. eauto.
  - intros [(stem & ->)|(stem & ->)].
    + exists stem, literal. split; [reflexivity|].
      exists literal, "". rewrite append_empty_r. repeat split.
      * now apply Matches_literal.
      * now right.
    + exists stem, (literal +++ "x"). split; [reflexivity|].
      exists literal, "x". repeat split.
      * now apply Matches_literal.
      * left. exists "x"%char. auto.
Qed.

Lemma include_Matches file :
  test Defaults.include file = true <-> EndsWith file ".ts" \/ EndsWith file ".tsx".
Proof.
  unfold Defaults.include. rewrite suffix_Matches. unfold EndsWith. split.
  - intros (stem & tail & -> & s1 & s2 & -> & (x & -> & Hx) & [H2|H2]);
      apply Matches_literal in H2; subst s2; simpl in Hx; subst x; eauto.
  - intros [(stem & ->)|(stem & ->)].
    + exists stem, ".ts". split; [reflexivity|]. exists ".", "ts".
      repeat split; [exists "."%char; auto | right; now apply Matches_literal].
    + exists stem, ".tsx". split; [reflexivity|]. exists ".", "tsx".
      repeat split; [exists "."%char; auto | left; now apply Matches_literal].
Qed.

Lemma exclude_Matches file :
  existsb (fun pattern => test pattern file) Defaults.exclude = true
  <-> ExcludedByDefault file.
Proof.
  unfold Defaults.exclude, ExcludedByDefault. cbn [existsb].
  rewrite orb_false_r, !orb_true_iff, !suffix_literal.
  rewrite (suffix_optional_x ".test.ts"), (suffix_optional_x ".stories.ts").
  simpl. tauto.
Qed.

(** X20. With the patterns of [config.ts] a name of the listing is a
    component file exactly when it ends in [.ts] or [.tsx] and does not end
    in [.d.ts], [.test.ts], [.test.tsx], [.stories.ts], [.stories.tsx] or
    [index.ts]; the comparison is exact in letter case, and any name that
    ends in [index.ts], such as [myindex.ts], is left out with it. *)
Theorem default_filter_iff (file : string) :
  isComponentFile defaultConfig file = true
  <-> (EndsWith file ".ts" \/ EndsWith file ".tsx") /\ ~ ExcludedByDefault file.
Proof.
  unfold isComponentFile.
  change (include defaultConfig) with Defaults.include.
  change (exclude defaultConfig) with Defaults.exclude.
  rewrite andb_true_iff, negb_true_iff, include_Matches, <- exclude_Matches.
  now rewrite not_true_iff_false.
Qed.

Lemma suffix_ignoring_case literal name :
  test (Regex.suffix true (Regex.lits literal)) name = true
  <-> EndsWithIgnoringCase name literal.
Proof.
  rewrite suffix_Matches. unfold EndsWithIgnoringCase.
  split; intros (stem & tail & E & Hm); exists stem, tail; (split; [exact E|]);
    now apply Matches_lits.
Qed.

Lemma Matches_star_word i s : Matches i (Regex.Star Regex.Word) s <-> isWord s = true.
Proof.
  split.
  - intros (pieces & -> & Hpieces).
    induction Hpieces as [|piece pieces [_ (x & -> & Hx)] _ IH]; [reflexivity|].
    rewrite concat_cons. simpl. now rewrite Hx, IH.
  - induction s as [|c s IH]; simpl.
    + intros _. exists []. split; [reflexivity | constructor].
    + rewrite andb_true_iff. intros [Hc Hs].
      destruct (IH Hs) as (pieces & -> & Hpieces).
      exists (String c "" :: pieces). split; [now rewrite concat_cons|].
      constructor; [|exact Hpieces]. split; [discriminate | eauto].
Qed.

(** [/^(Use\w+)$/i] *)
Lemma use_Matches name :
  test (Regex.compile (Regex.mkFlags true true true)
          (Regex.Seq (Regex.lits "Use") (Regex.Plus Regex.Word))) name = true
  <-> IsUseName name.
Proof.
  unfold Regex.compile, Regex.exec, IsUseName. cbn [test Regex.anchoredStart
    Regex.anchoredEnd Regex.ignoreCase].
  rewrite matchHere_Matches.
  change (Matches true (Regex.Seq (Regex.lits "Use") (Regex.Plus Regex.Word)) name)
    with (exists s1 s2,
            name = s1 +++ s2 /\ Matches true (Regex.lits "Use") s1 /\
            exists w1 w2,
              s2 = w1 +++ w2 /\ Matches true Regex.Word w1 /\
              Matches true (Regex.Star Regex.Word) w2).
  split.
  - intros (s1 & s2 & -> & H1 & w1 & w2 & -> & (x & -> & Hx) & Hw).
    apply Matches_lits in H1. apply Matches_star_word in Hw.
    exists s1, (String x w2).
    split; [reflexivity|]. split; [exact H1|]. split; [discriminate|].
    simpl. now rewrite Hx, Hw.
  - intros (head & rest & -> & Hhead & Hne & Hword).
    destruct rest as [|x rest]; [contradiction|]. simpl in Hword.
    apply andb_true_iff in Hword as [Hx Hrest].
    exists head, (String x rest).
    split; [reflexivity|]. split; [now apply Matches_lits|].
    exists (String x ""), rest.
    split; [reflexivity|]. split; [exists x; auto | now apply Matches_star_word].
Qed.

(** X21. With the type patterns of [config.ts] a name is taken for a
    type exactly when it ends, letter case apart, in [Api], [Props],
    [Config], [Context], [Provider], [Store], [Ref] or [Options], or is
    [use], letter case apart, followed by one or more letters, digits or
    underscores.  The endings are not anchored at the start, so the bare
    name [Props] matches, and so does a component such as [ThemeProvider]. *)
Theorem default_type_patterns_iff (name : string) :
  isType defaultConfig name = true
  <-> (exists suffix, In suffix typeSuffixes /\ EndsWithIgnoringCase name suffix) \/
      IsUseName name.
Proof.
  unfold isType, shouldBeType.
  change (typePatterns defaultConfig) with Defaults.typePatterns.
  unfold Defaults.typePatterns. cbn [existsb].
  rewrite orb_false_r, !orb_true_iff, !suffix_ignoring_case, use_Matches.
  unfold typeSuffixes. split.
  - intros [E|[E|[E|[E|[E|[E|[E|[E|E]]]]]]]];
      first [ right; exact E
            | left; eexists; split; [|exact E]; simpl; tauto ].
  - intros [(suffix & Hin & E)|E]; [|tauto].
    simpl in Hin. repeat destruct Hin as [<-|Hin]; try tauto.
Qed.

(** X22. With [forceExplicitExtensions] and no override the run logs
    that it uses the actual file extensions and, right after, that it
    converts [.tsx] and [.ts] to [.js]; the extension that is then written
    for a component is the one recorded for its file, unconverted. *)
Theorem forced_extensions_are_announced_as_converted
  (H : Host) (fullConfig : Config) (fs : FileSystem) :
  forceExplicitExtensions fullConfig = true ->
  extensionOverride fullConfig = "" ->
  let st := setup H fullConfig fs in
  (exists before after,
     setupTrace st
     = before ++
       [Log "Using actual file extensions in imports (--force-extensions flag)" highlight;
        Log "Converting .tsx/.ts extensions to .js in imports (auto-detected)" highlight]
       ++ after) /\
  forall s componentName,
    extensionOf fullConfig (useExplicitExtensions st) s componentName
    = orDefault (JsMap.get (fileExtensions s) componentName) "".
Proof.
  intros Hforce Hoverride st. split.
  - unfold st, setup. rewrite Hforce, Hoverride.
    destruct (detectMonorepo H fs (cwd H)) as [isMonorepo t1]. cbn [String.eqb negb].
    destruct isMonorepo;
      [destruct (findUIComponentsInMonorepo H fs (cwd H)) as [[found|] t4]|];
      cbn [setupTrace]; eexists t1, _; rewrite app_nil_l; reflexivity.
  - intros s componentName. unfold st.
    rewrite setup_useExplicitExtensions, Hforce. unfold extensionOf.
    now rewrite Hoverride, Hforce.
Qed.

Lemma forced_extensions_are_announced_as_converted_witness :
  let fullConfig := mergeConfig defaultConfig Example.forceOptions in
  let st := setup Example.host fullConfig Example.components in
  (exists before after,
     setupTrace st
     = before ++
       [Log "Using actual file extensions in imports (--force-extensions flag)" highlight;
        Log "Converting .tsx/.ts extensions to .js in imports (auto-detected)" highlight]
       ++ after) /\
  forall s componentName,
    extensionOf fullConfig (useExplicitExtensions st) s componentName
    = orDefault (JsMap.get (fileExtensions s) componentName) "".
Proof.
  exact (forced_extensions_are_announced_as_converted Example.host
           (mergeConfig defaultConfig Example.forceOptions) Example.components
           eq_refl eq_refl).
Defined.

(** ** Progress and calls *)

Lemma progressOf_app t u : progressOf (t ++ u) = progressOf t ++ progressOf u.
Proof. apply flat_map_app. Qed.

Lemma progressOf_logs t : Forall IsLog t -> progressOf t = [].
Proof.
  induction 1 as [|e t He _ IH]; [reflexivity|].
  destruct e; try destruct He. exact IH.
Qed.

Lemma processFile_progress H fullConfig fs dir total s file :
  progressOf (snd (processFile H fullConfig fs dir total s file))
  = if verbose fullConfig then [(S (processedCount s), total)] else [].
Proof.
  unfold processFile.
  destruct (readSource H fs (path_join H dir file) file) as [sourceFile|e];
    cbn [updateProgress fst snd processedCount].
  - rewrite !progressOf_app, (progressOf_logs (notices _)).
    + now destruct (verbose fullConfig).
    + unfold classify. apply classify_notices_logs. constructor.
  - now destruct (verbose fullConfig).
Qed.

Lemma processFiles_progress H fullConfig fs dir total files : forall s,
  progressOf (snd (processFiles H fullConfig fs dir total s files))
  = if verbose fullConfig
    then map (fun k => (k, total)) (seq (S (processedCount s)) (List.length files))
    else [].
Proof.
  induction files as [|file rest IH]; intros s.
  - simpl. now destruct (verbose fullConfig).
  - rewrite processFiles_trace_cons, progressOf_app, processFile_progress, IH.
    destruct (processFile_state H fullConfig fs dir total s file) as (_ & _ & -> & _).
    now destruct (verbose fullConfig).
Qed.

(** X23. With [verbose] the progress line is printed once after every
    component file, failed or not, and counts from 1 up to the number of
    component files, always against that total; so the last line shows all
    of them.  Without [verbose] no progress line is printed. *)
Theorem progress_counts_every_component_file
  (H : Host) (fullConfig : Config) (fs : FileSystem) (dir : string)
  (files : list string) :
  let total := List.length (componentFilesOf fullConfig files) in
  progressOf (snd (scan H fullConfig fs dir files))
  = if verbose fullConfig then map (fun k => (k, total)) (seq 1 total) else [].
Proof. intros total. unfold scan. apply processFiles_progress. Qed.

Lemma callsOf_app t u : callsOf (t ++ u) = callsOf t ++ callsOf u.
Proof. apply filter_app. Qed.

Lemma callsOf_quiet t : Forall NotCall t -> callsOf t = [].
Proof.
  induction 1 as [|e t He _ IH]; [reflexivity|].
  unfold callsOf in *. simpl. unfold NotCall in He. now rewrite He.
Qed.

Lemma IsLog_NotCall t : Forall IsLog t -> Forall NotCall t.
Proof. apply Forall_impl. intros [] He; try destruct He; reflexivity. Qed.

Lemma processFile_calls H fullConfig fs dir total s file :
  callsOf (snd (processFile H fullConfig fs dir total s file))
  = [FsReadFile (path_join H dir file)].
Proof.
  unfold processFile.
  destruct (readSource H fs (path_join H dir file) file) as [sourceFile|e];
    cbn [updateProgress fst snd].
  - rewrite !callsOf_app, (callsOf_quiet (notices _)).
    + now destruct (verbose fullConfig).
    + apply IsLog_NotCall. unfold classify. apply classify_notices_logs. constructor.
  - now destruct (verbose fullConfig).
Qed.

Lemma processFiles_calls H fullConfig fs dir total files : forall s,
  callsOf (snd (processFiles H fullConfig fs dir total s files))
  = map (fun file => FsReadFile (path_join H dir file)) files.
Proof.
  induction files as [|file rest IH]; intros s; [reflexivity|].
  now rewrite processFiles_trace_cons, callsOf_app, processFile_calls, IH.
Qed.

Lemma generateFrom_calls H fullConfig useExplicit fs dir output files :
  callsOf (snd (fst (generateFrom H fullConfig useExplicit fs dir output files)))
  = map (fun file => FsReadFile (path_join H dir file))
      (componentFilesOf fullConfig files) ++
    (if dryRun fullConfig then []
     else [FsWriteFile output (indexContentOf H fullConfig useExplicit fs dir files)]).
Proof.
  unfold generateFrom, indexContentOf.
  pose proof (processFiles_calls H fullConfig fs dir
                (List.length (componentFilesOf fullConfig files))
                (componentFilesOf fullConfig files) emptyLoopState) as Hloop.
  fold (scan H fullConfig fs dir files) in Hloop.
  destruct (scan H fullConfig fs dir files) as [s loop]. cbn [fst snd] in *.
  destruct (dryRun fullConfig);
    [|unfold writeFile; destruct (writeRefused fs output)]; cbn [fst snd];
    rewrite !callsOf_app, Hloop;
    repeat match goal with
           | |- context [callsOf ?t] => rewrite (callsOf_quiet t) by quiet
           end;
    reflexivity.
Qed.

Lemma tryBlock_calls H fullConfig useExplicit fs dir output :
  callsOf (snd (fst (tryBlock H fullConfig useExplicit fs dir output)))
  = expectedCalls H fullConfig useExplicit fs dir output.
Proof.
  unfold tryBlock, expectedCalls.
  destruct (stat fs dir) as [st|e];
    [|destruct (isString (code e) "ENOENT"); reflexivity].
  destruct (readdir fs dir) as [files|e]; [|reflexivity].
  pose proof (generateFrom_calls H fullConfig useExplicit fs dir output files) as Hg.
  destruct (generateFrom H fullConfig useExplicit fs dir output files) as [[c t] fs'].
  cbn [fst snd] in *. rewrite callsOf_app, Hg. reflexivity.
Qed.

Lemma report_calls fullConfig e : callsOf (report fullConfig e) = [].
Proof.
  apply callsOf_quiet. unfold report. destruct (code e) as [c|];
    repeat match goal with
           | |- context [if String.eqb ?a ?b then _ else _] => destruct (String.eqb a b)
           end; quiet.
Qed.

(** X24. The calls of the file system in a run come in one order:
    after those of the probes, [stat] on the scanned directory; if that
    succeeds, the listing of the directory; if that succeeds, one read for
    each component file, in the order of the listing and whether or not
    earlier files failed; and then, unless the run is a dry run, the one
    write of the generated text to the output file. *)
Theorem calls_come_in_order (H : Host) (fullConfig : Config) (p : Process) :
  let fs := fileSystem p in
  let st := setup H fullConfig fs in
  exists new,
    trace (run H fullConfig p) = trace p ++ new /\
    callsOf new
    = callsOf (setupTrace st)
      ++ expectedCalls H fullConfig (useExplicitExtensions st) fs (scannedDir st)
           (outputFilePath st).
Proof.
  intros fs st. unfold run. fold fs. fold st.
  pose proof (tryBlock_calls H fullConfig (useExplicitExtensions st) fs (scannedDir st)
                (outputFilePath st)) as Htry.
  destruct (tryBlock H fullConfig (useExplicitExtensions st) fs (scannedDir st)
              (outputFilePath st)) as [[[| |e] t] fs']; cbn [fst snd trace] in *;
    eexists; (split; [reflexivity|]);
    rewrite !callsOf_app, Htry, ?report_calls, (callsOf_quiet footer) by (unfold footer; quiet);
    now rewrite ?app_nil_r.
Qed.

(** ** The written file *)

Lemma generateFrom_reports H fullConfig useExplicit fs dir output files :
  dryRun fullConfig = false ->
  writeRefused fs output = None ->
  let text := indexContentOf H fullConfig useExplicit fs dir files in
  exists t fs',
    generateFrom H fullConfig useExplicit fs dir output files = (Completed, t, fs') /\
    readFile fs' output = Ok text /\
    In (Log ("Generated " +++ output +++ " (" +++ fileSizeKB (byteLength text)
             +++ "KB" +++ ")") success) t /\
    In (Log ("File contains "
             +++ Str.ofNat (JsMap.size (componentExports (fst (scan H fullConfig fs dir files))))
             +++ " component exports") success) t.
Proof.
  intros Hwet Hfree text. unfold text, indexContentOf, generateFrom.
  destruct (scan H fullConfig fs dir files) as [s loop]. cbn [fst].
  rewrite Hwet. unfold writeFile. rewrite Hfree.
  eexists _, _. split; [reflexivity|]. cbn [readFile]. rewrite String.eqb_refl.
  split; [reflexivity|].
  split; do 3 (apply in_or_app; right); in_trace.
Qed.

(** X25. After a run that lists the directory and is allowed to write,
    the output file holds the generated text, the run has logged the path
    with the size of the text, and the number it reports as component
    exports is the number of distinct component names that gave an export
    clause, which is the number of statements of the text. *)
Theorem written_file_holds_the_text_and_is_counted
  (H : Host) (fullConfig : Config) (p : Process) (st0 : Stats) (files : list string) :
  let fs := fileSystem p in
  let st := setup H fullConfig fs in
  stat fs (scannedDir st) = Ok st0 ->
  readdir fs (scannedDir st) = Ok files ->
  dryRun fullConfig = false ->
  writeRefused fs (outputFilePath st) = None ->
  let text :=
    indexContentOf H fullConfig (useExplicitExtensions st) fs (scannedDir st) files in
  let names := enumeratedNames H fullConfig fs (scannedDir st) files in
  let r := run H fullConfig p in
  readFile (fileSystem r) (outputFilePath st) = Ok text /\
  In (Log ("Generated " +++ outputFilePath st +++ " ("
           +++ fileSizeKB (byteLength text) +++ "KB" +++ ")") success) (trace r) /\
  In (Log ("File contains " +++ Str.ofNat (List.length names) +++ " component exports")
        success) (trace r) /\
  List.length (componentNamesOf fullConfig (fst (scan H fullConfig fs (scannedDir st) files)))
  = List.length names.
Proof.
  intros fs st Hstat Hdir Hwet Hfree text names r.
  pose proof (tryBlock_listed H fullConfig (useExplicitExtensions st) fs (scannedDir st)
                (outputFilePath st) st0 files Hstat Hdir) as Htry.
  destruct (generateFrom_reports H fullConfig (useExplicitExtensions st) fs (scannedDir st)
              (outputFilePath st) files Hwet Hfree) as (t & fs' & Hg & Hread & Hsize & Hcount).
  rewrite Hg in Htry. unfold r. rewrite (run_trace H fullConfig p _ _ _ Htry).
  cbn [fileSystem trace]. fold text in Hread, Hsize.
  assert (JsMap.size (componentExports (fst (scan H fullConfig fs (scannedDir st) files)))
          = List.length names) as Hnames.
  { unfold names. rewrite <- scan_keys. unfold JsMap.size, JsMap.keys.
    now rewrite length_map. }
  rewrite Hnames in Hcount.
  split; [exact Hread|]. split; [|split].
  - apply in_or_app. right. apply in_or_app. right. apply in_or_app. left.
    apply in_or_app. right. exact Hsize.
  - apply in_or_app. right. apply in_or_app. right. apply in_or_app. left.
    apply in_or_app. right. exact Hcount.
  - unfold componentNamesOf. rewrite scan_keys. fold names.
    destruct (sortAlphabetically fullConfig); [|reflexivity].
    symmetry. apply Permutation_length, sort_perm.
Qed.

Lemma written_file_holds_the_text_and_is_counted_witness :
  let p := Example.fresh Example.components in
  let files := ["card.tsx"; "button.tsx"] in
  let text :=
    indexContentOf Example.host defaultConfig false Example.components Example.ui files in
  let names := enumeratedNames Example.host defaultConfig Example.components Example.ui files in
  let r := run Example.host defaultConfig p in
  readFile (fileSystem r) "/proj/src/components/ui/index.ts" = Ok text /\
  In (Log ("Generated " +++ "/proj/src/components/ui/index.ts" +++ " ("
           +++ fileSizeKB (byteLength text) +++ "KB" +++ ")") success) (trace r) /\
  In (Log ("File contains " +++ Str.ofNat (List.length names) +++ " component exports")
        success) (trace r) /\
  List.length (componentNamesOf defaultConfig
                 (fst (scan Example.host defaultConfig Example.components Example.ui files)))
  = List.length names.
Proof.
  exact (written_file_holds_the_text_and_is_counted Example.host defaultConfig
           (Example.fresh Example.components) (mkStats true) ["card.tsx"; "button.tsx"]
           eq_refl eq_refl eq_refl eq_refl).
Defined.

(** ** Patterns with a [lastIndex]

    For patterns without the [g] and [y] flags no call of [test] reads or
    writes a [lastIndex], and the program is the function of the
    sections above. *)

Lemma test_plain pattern s lastIndex :
  plain pattern = true -> Stateful.test pattern s lastIndex = (test pattern s, lastIndex).
Proof. destruct pattern; [reflexivity | discriminate]. Qed.

Lemma some_plain patterns s lastIndex :
  forallb plain patterns = true ->
  Stateful.some patterns s lastIndex
  = (existsb (fun pattern => test pattern s) patterns, lastIndex).
Proof.
  induction patterns as [|pattern rest IH]; simpl; [reflexivity|].
  rewrite andb_true_iff. intros [Hp Hrest]. rewrite (test_plain _ _ _ Hp).
  destruct (test pattern s); [reflexivity | now apply IH].
Qed.

Section PlainPatterns.
Variable H : Host.
Variable fullConfig : Config.

Lemma classify_plain file ex count lastIndex :
  PlainTypePatterns fullConfig ->
  Stateful.classify fullConfig file ex count lastIndex
  = (classify fullConfig file ex count, lastIndex).
Proof.
  intros Hplain. unfold Stateful.classify, classify.
  generalize (mkClassified [] (typeExports ex) count []) as c.
  induction (exports ex) as [|name names IH]; intros c; simpl; [reflexivity|].
  unfold Stateful.shouldBeType. rewrite (some_plain _ _ _ Hplain).
  unfold classifyStep at 2, shouldBeType.
  destruct (existsb (fun pattern => test pattern name) (typePatterns fullConfig));
    apply IH.
Qed.

Lemma processFile_plain fs dir total s lastIndex file :
  PlainTypePatterns fullConfig ->
  Stateful.processFile H fullConfig fs dir total s lastIndex file
  = (processFile H fullConfig fs dir total s file, lastIndex).
Proof.
  intros Hplain. unfold Stateful.processFile, processFile.
  destruct (readSource H fs (path_join H dir file) file) as [sourceFile|e].
  - rewrite (classify_plain _ _ _ _ Hplain). reflexivity.
  - reflexivity.
Qed.

Lemma processFiles_plain fs dir total files : forall s lastIndex,
  PlainTypePatterns fullConfig ->
  Stateful.processFiles H fullConfig fs dir total s lastIndex files
  = (processFiles H fullConfig fs dir total s files, lastIndex).
Proof.
  induction files as [|file rest IH]; intros s lastIndex Hplain; simpl; [reflexivity|].
  rewrite (processFile_plain _ _ _ _ _ _ Hplain).
  destruct (processFile H fullConfig fs dir total s file) as [s1 t1].
  rewrite (IH s1 lastIndex Hplain).
  destruct (processFiles H fullConfig fs dir total s1 rest) as [s2 t2]. reflexivity.
Qed.

Lemma isComponentFile_plain file lastIndex :
  PlainFilter fullConfig ->
  Stateful.isComponentFile fullConfig file lastIndex
  = (isComponentFile fullConfig file, lastIndex).
Proof.
  intros [Hi He]. unfold Stateful.isComponentFile, isComponentFile.
  rewrite (test_plain _ _ _ Hi).
  destruct (test (include fullConfig) file); [|reflexivity].
  now rewrite (some_plain _ _ _ He).
Qed.

Lemma componentFilesOf_plain files : forall lastIndex,
  PlainFilter fullConfig ->
  Stateful.componentFilesOf fullConfig files lastIndex
  = (componentFilesOf fullConfig files, lastIndex).
Proof.
  induction files as [|file rest IH]; intros lastIndex Hplain; simpl; [reflexivity|].
  rewrite (isComponentFile_plain _ _ Hplain), (IH lastIndex Hplain). reflexivity.
Qed.

Lemma generateFrom_plain useExplicit fs dir output files lastIndex :
  PlainTypePatterns fullConfig ->
  PlainFilter fullConfig ->
  Stateful.generateFrom H fullConfig useExplicit fs dir output files lastIndex
  = (generateFrom H fullConfig useExplicit fs dir output files, lastIndex).
Proof.
  intros Ht Hf. unfold Stateful.generateFrom, generateFrom, scan.
  rewrite (componentFilesOf_plain _ _ Hf), (processFiles_plain _ _ _ _ _ _ Ht).
  destruct (processFiles H fullConfig fs dir
              (List.length (componentFilesOf fullConfig files)) emptyLoopState
              (componentFilesOf fullConfig files)) as [s loop].
  destruct (dryRun fullConfig); [reflexivity|].
  destruct (writeFile fs output (renderIndex fullConfig useExplicit s)) as [[u|e] fs'];
    reflexivity.
Qed.

Lemma indexContentOf_plain useExplicit fs dir files lastIndex :
  PlainTypePatterns fullConfig ->
  PlainFilter fullConfig ->
  Stateful.indexContentOf H fullConfig useExplicit fs dir files lastIndex
  = indexContentOf H fullConfig useExplicit fs dir files.
Proof.
  intros Ht Hf. unfold Stateful.indexContentOf, indexContentOf, scan.
  rewrite (componentFilesOf_plain _ _ Hf), (processFiles_plain _ _ _ _ _ _ Ht).
  now destruct (processFiles H fullConfig fs dir
                  (List.length (componentFilesOf fullConfig files)) emptyLoopState
                  (componentFilesOf fullConfig files)) as [s loop].
Qed.

Lemma tryBlock_plain useExplicit fs dir output lastIndex :
  PlainTypePatterns fullConfig ->
  PlainFilter fullConfig ->
  Stateful.tryBlock H fullConfig useExplicit fs dir output lastIndex
  = (tryBlock H fullConfig useExplicit fs dir output, lastIndex).
Proof.
  intros Ht Hf. unfold Stateful.tryBlock, tryBlock.
  destruct (stat fs dir) as [st|e];
    [|destruct (isString (code e) "ENOENT"); reflexivity].
  destruct (readdir fs dir) as [files|e]; [|reflexivity].
  rewrite (generateFrom_plain _ _ _ _ _ _ Ht Hf).
  now destruct (generateFrom H fullConfig useExplicit fs dir output files) as [[c t] fs'].
Qed.

(** Without the two flags a run leaves every [lastIndex] as it was and
    is the run of the sections above. *)
Lemma run_plain p lastIndex :
  PlainTypePatterns fullConfig ->
  PlainFilter fullConfig ->
  Stateful.run H fullConfig p lastIndex = (run H fullConfig p, lastIndex).
Proof.
  intros Ht Hf. unfold Stateful.run, run. rewrite (tryBlock_plain _ _ _ _ _ Ht Hf).
  now destruct (tryBlock H fullConfig
                  (useExplicitExtensions (setup H fullConfig (fileSystem p)))
                  (fileSystem p) (scannedDir (setup H fullConfig (fileSystem p)))
                  (outputFilePath (setup H fullConfig (fileSystem p))))
    as [[[| |e] t] fs'].
Qed.

End PlainPatterns.

Lemma defaultConfig_plain :
  PlainTypePatterns defaultConfig /\ PlainFilter defaultConfig.
Proof. repeat split. Qed.

(** For type patterns without the [g] and [y] flags: a file that is read
    and parsed and contains [export const Foo = ...] gets an export clause
    in which [Foo] is a plain specifier when no type pattern matches it,
    and [type Foo] is a specifier when one does, counted once. *)
Lemma const_clause_without_flags
  (H : Host) (fullConfig : Config) (fs : FileSystem)
  (componentsDir : string) (total : nat) (s : LoopState)
  (lastIndex : Stateful.Store) (file : string) (sourceFile : Node) (Foo : string) :
  PlainTypePatterns fullConfig ->
  readSource H fs (path_join H componentsDir file) file = Ok sourceFile ->
  ExportsConst sourceFile Foo ->
  let s' := fst (fst (Stateful.processFile H fullConfig fs componentsDir total s
                        lastIndex file)) in
  exists clause,
    JsMap.get (componentExports s') (basename file (extname file)) = Some clause /\
    (shouldBeType Foo (typePatterns fullConfig) = false -> In Foo clause) /\
    (shouldBeType Foo (typePatterns fullConfig) = true ->
       In ("type " +++ Foo) clause /\
       exists before after,
         exports (extractExports sourceFile) = before ++ Foo :: after /\
         typesDetectedCount s'
         = typesDetectedCount s
           + List.length (filter (isType fullConfig) before)
           + 1
           + List.length (filter (isType fullConfig) after)).
Proof.
  intros Hplain Hread Hdecl. rewrite (processFile_plain _ _ _ _ _ _ _ _ Hplain).
  now apply const_is_value_unless_type_pattern.
Qed.

(** C7 fails on the code.  [typePatterns] is [[/Props$/g]] and [props.ts]
    exports the constants [AProps], [BProps] and [CProps].  Each of the
    three names matches the pattern.  The call of [test] on [AProps] leaves
    [lastIndex] at 6, the call on [BProps] starts there, finds nothing and
    sets it back to 0, and the call on [CProps] matches again: [BProps] is
    written as a plain specifier, and two reclassified exports are
    reported.  With [/Props$/] the three names are written behind
    [type]. *)
Theorem global_type_pattern_misses_a_matching_name :
  let output := "/proj/src/components/ui/index.ts" in
  let pattern := globalSuffix 0 false (Regex.lits "Props") in
  let r := fst (Stateful.generateIndex propsHost globalPropsOptions
                  (Example.fresh propsFolder) freshPatterns) in
  let r' := fst (Stateful.generateIndex propsHost plainPropsOptions
                   (Example.fresh propsFolder) freshPatterns) in
  ExportsConst propsTree "BProps" /\
  map (fun name => fst (Stateful.test pattern name freshPatterns))
    ["AProps"; "BProps"; "CProps"] = [true; true; true] /\
  readFile (fileSystem r) output
  = Ok (Defaults.headerComment
        +++ "export { BProps, type AProps, type CProps } from " +++ dq +++ "./props"
        +++ dq +++ ";" +++ nl) /\
  In (Log "Detected 2 type exports that need the 'type' keyword" highlight) (trace r) /\
  readFile (fileSystem r') output
  = Ok (Defaults.headerComment
        +++ "export { type AProps, type BProps, type CProps } from " +++ dq +++ "./props"
        +++ dq +++ ";" +++ nl) /\
  In (Log "Detected 3 type exports that need the 'type' keyword" highlight) (trace r').
Proof.
  repeat split; try reflexivity.
  - exists Example.exported, [Identifier "BProps"], [].
    split; [reflexivity|]. split; [simpl; auto|].
    eapply Inside_child; [|apply Inside_here]. simpl. auto.
  - vm_compute. auto 40.
  - vm_compute. auto 40.
Qed.

(** X4. For type patterns without the [g] and [y] flags, the clause
    stored for a file that is read and parsed lists the value exports that
    no type pattern matches, in file order, then the declared type exports
    and after them the reclassified value exports, each behind [type]; no
    name is dropped or merged, so the clause has as many specifiers as the
    extractor found names.  When the file exports nothing, nothing is
    stored.  No [lastIndex] is changed. *)
Theorem clause_is_values_then_types
  (H : Host) (fullConfig : Config) (fs : FileSystem)
  (componentsDir : string) (total : nat) (s : LoopState)
  (lastIndex : Stateful.Store) (file : string) (sourceFile : Node) :
  PlainTypePatterns fullConfig ->
  readSource H fs (path_join H componentsDir file) file = Ok sourceFile ->
  let ex := extractExports sourceFile in
  let clause := clauseLayout fullConfig ex in
  let r := Stateful.processFile H fullConfig fs componentsDir total s lastIndex file in
  let s' := fst (fst r) in
  List.length clause = List.length (exports ex) + List.length (typeExports ex) /\
  (clause <> [] ->
   JsMap.get (componentExports s') (componentNameOf file) = Some clause) /\
  (clause = [] -> componentExports s' = componentExports s) /\
  snd r = lastIndex.
Proof.
  intros Hplain Hread ex clause r s'. unfold s', r.
  rewrite (processFile_plain _ _ _ _ _ _ _ _ Hplain). cbn [fst snd].
  destruct (clause_layout_of_the_loop H fullConfig fs componentsDir total s file
              sourceFile Hread) as (H1 & H2 & H3).
  repeat split; assumption.
Qed.

Lemma clause_is_values_then_types_witness :
  let fs := Example.folder Example.ui [("variants.ts", Ok Example.variantsSource)] in
  let r := Stateful.processFile Example.host defaultConfig fs Example.ui 1
             emptyLoopState freshPatterns "variants.ts" in
  JsMap.get (componentExports (fst (fst r))) "variants"
  = Some ["type Variant"; "type buttonConfig"].
Proof.
  intros fs r.
  destruct (clause_is_values_then_types Example.host defaultConfig fs Example.ui 1
              emptyLoopState freshPatterns "variants.ts" Example.variantsTree
              eq_refl eq_refl)
    as (_ & Hstored & _).
  apply Hstored. discriminate.
Defined.

(** X7. For patterns without the [g] and [y] flags, the two numbers of
    the summary are read off the whole loop: the run reports as found the
    number of files that pass the filter, and as detected the number of
    value exports, over all component files that were read and parsed,
    that a type pattern matches; files that fail add nothing to the
    second. *)
Theorem summary_reports_the_loop
  (H : Host) (fullConfig : Config) (useExplicit : bool) (fs : FileSystem)
  (componentsDir output : string) (files : list string) (lastIndex : Stateful.Store) :
  PlainTypePatterns fullConfig ->
  PlainFilter fullConfig ->
  let t := snd (fst (fst (Stateful.generateFrom H fullConfig useExplicit fs componentsDir
                            output files lastIndex))) in
  let componentFiles := filter (isComponentFile fullConfig) files in
  In (Log ("Found " +++ Str.ofNat (List.length componentFiles) +++ " component files")
        highlight) t /\
  In (Log ("Detected "
           +++ Str.ofNat
                 (list_sum (map (reclassifiedIn H fullConfig fs componentsDir)
                              componentFiles))
           +++ " type exports that need the 'type' keyword") highlight) t.
Proof.
  intros Ht Hf t componentFiles. unfold t.
  rewrite (generateFrom_plain _ _ _ _ _ _ _ _ Ht Hf). cbn [fst].
  destruct (summary_of_the_loop H fullConfig useExplicit fs componentsDir output files)
    as (_ & Hfound & Hdetected).
  split; assumption.
Qed.

Lemma summary_reports_the_loop_witness :
  let t := snd (fst (fst (Stateful.generateFrom Example.host defaultConfig false
                            Example.components Example.ui
                            "/proj/src/components/ui/index.ts"
                            ["card.tsx"; "helper.d.ts"; "button.tsx"] freshPatterns))) in
  In (Log "Found 2 component files" highlight) t /\
  In (Log "Detected 0 type exports that need the 'type' keyword" highlight) t.
Proof.
  exact (summary_reports_the_loop Example.host defaultConfig false Example.components
           Example.ui "/proj/src/components/ui/index.ts"
           ["card.tsx"; "helper.d.ts"; "button.tsx"] freshPatterns
           eq_refl (conj eq_refl eq_refl)).
Defined.

(** X18. For patterns without the [g] and [y] flags, the generated text
    is decided by the component files of the listing, in their order, and
    by what reading each of them gives: entries that the filter drops,
    files outside the listing, the answers of [stat], the permission to
    write and the values of [lastIndex] have no part in it.  So a
    directory that has gained the generated [index.ts] gives the same text
    again. *)
Theorem text_depends_on_component_files_only
  (H : Host) (fullConfig : Config) (useExplicit : bool) (fs fs' : FileSystem)
  (dir : string) (files files' : list string) (lastIndex lastIndex' : Stateful.Store) :
  PlainTypePatterns fullConfig ->
  PlainFilter fullConfig ->
  filter (isComponentFile fullConfig) files = filter (isComponentFile fullConfig) files' ->
  (forall file, In file (filter (isComponentFile fullConfig) files) ->
     readFile fs (path_join H dir file) = readFile fs' (path_join H dir file)) ->
  Stateful.indexContentOf H fullConfig useExplicit fs dir files lastIndex
  = Stateful.indexContentOf H fullConfig useExplicit fs' dir files' lastIndex'.
Proof.
  intros Ht Hf Hfiles Hread.
  rewrite !(indexContentOf_plain _ _ _ _ _ _ _ Ht Hf).
  now apply indexContentOf_frame.
Qed.

Lemma text_depends_on_component_files_only_witness :
  Stateful.indexContentOf Example.host defaultConfig false Example.components Example.ui
    ["card.tsx"; "button.tsx"] freshPatterns
  = Stateful.indexContentOf Example.host defaultConfig false regenerated Example.ui
      ["card.tsx"; "index.ts"; "button.tsx"] (fun _ => 3).
Proof.
  apply (text_depends_on_component_files_only Example.host defaultConfig false
           Example.components regenerated Example.ui
           ["card.tsx"; "button.tsx"] ["card.tsx"; "index.ts"; "button.tsx"]
           freshPatterns (fun _ => 3)).
  - reflexivity.
  - split; reflexivity.
  - reflexivity.
  - intros file [<-|[<-|[]]]; reflexivity.
Defined.
